(** * Elite Install client scripts: overlay navigation, fragment loader, scroll reveal

    A shallow embedding of the interaction layer of the site's scripts.  The
    repository keeps several revisions of the same modules side by side; each
    revision that a property talks about is embedded in a module of its own,
    named after the version banner of the script it comes from:

    - [V6]     Version 6.0, "Award-Worthy Professional JavaScript"
               (mobileNav with isOpen, componentLoader with a cache);
    - [V8]     Version 8.0, "Stabilized & Simplified" (debounced handlers);
    - [V5_1]   Version 5.1, "Final Professional Build" (componentLoader);
    - [V2]     Version 2.0, "Digital Premier Blueprint" (mobileNav.init);
    - [Pro1]   "Professional Edition Script" 1.0 (CONFIG-driven modules);
    - [Reveal] the stand-alone createScrollReveal function.

    JavaScript is modelled with explicit state passing: a computation is a
    function from the store to a completion (normal or thrown) and the store
    the code left behind, so that effects made before a throw persist, as
    they do in the browser. *)

From Stdlib Require Import QArith.
From stdpp Require Import gmap strings list pretty.

Open Scope string_scope.
Open Scope list_scope.
Open Scope Z_scope.

(** ** Completions and the state-and-exception monad *)

Inductive Exn : Type :=
| TypeError (message : string)          (* member access on null / undefined; a failed fetch *)
| Error (message : string)              (* throw new Error(message) *)
| DOMException (name message : string). (* AbortError and the like *)

(** [String(e)] for an error object: Error.prototype.toString. *)
Definition error_toString (name message : string) : string :=
  if bool_decide (name = EmptyString) then message
  else if bool_decide (message = EmptyString) then name
  else name +:+ ": " +:+ message.

Definition String_of_Exn (e : Exn) : string :=
  match e with
  | TypeError message => error_toString "TypeError" message
  | Error message => error_toString "Error" message
  | DOMException name message => error_toString name message
  end.

Inductive Completion (A : Type) : Type :=
| Normal (a : A)
| Thrown (e : Exn).
Arguments Normal {A} a.
Arguments Thrown {A} e.

Definition JS (S A : Type) : Type := S → Completion A * S.

Definition ret {S A} (a : A) : JS S A := λ s, (Normal a, s).

Definition bind {S A B} (m : JS S A) (k : A → JS S B) : JS S B :=
  λ s, match m s with
       | (Normal a, s') => k a s'
       | (Thrown e, s') => (Thrown e, s')
       end.

Definition throw {S A} (e : Exn) : JS S A := λ s, (Thrown e, s).

(** [try { body } catch (e) { handler e }] *)
Definition try_catch {S A} (body : JS S A) (handler : Exn → JS S A) : JS S A :=
  λ s, match body s with
       | (Normal a, s') => (Normal a, s')
       | (Thrown e, s') => handler e s'
       end.

Definition gets {S A} (f : S → A) : JS S A := λ s, (Normal (f s), s).
Definition modify {S} (f : S → S) : JS S unit := λ s, (Normal tt, f s).

(** The store a computation leaves behind, whatever its completion. *)
Definition exec {S A} (m : JS S A) (s : S) : S := snd (m s).
Definition completion {S A} (m : JS S A) (s : S) : Completion A := fst (m s).

Definition returns_normally {A} (c : Completion A) : bool :=
  match c with Normal _ => true | Thrown _ => false end.

Declare Scope js_scope.
Delimit Scope js_scope with js.
Notation "'let*' x := c 'in' k" := (bind c (λ x, k))
  (at level 10, x name, c at level 100, k at level 200) : js_scope.
Notation "c ;;; k" := (bind c (λ _, k))
  (at level 100, k at level 200, right associativity) : js_scope.
Notation "'when' b 'then' c" := (if b then c else ret tt)
  (at level 10, b at level 100, c at level 200) : js_scope.

(** [xs.forEach(x => f x)] *)
Fixpoint forEach {S A} (xs : list A) (f : A → JS S unit) : JS S unit :=
  match xs with
  | [] => ret tt
  | x :: xs' => bind (f x) (λ _, forEach xs' f)
  end.

(** ** The part of the DOM the scripts touch *)

(** Nodes are compared by identity only ([===]), so a node is a number. *)
Definition Element := nat.

Record Dom : Type := mkDom {
  bodyClass : gset string;                    (* document.body.classList *)
  attrs : gmap (Element * string) string;     (* attributes, per element *)
  activeElement : option Element;             (* document.activeElement, None: no tracked node *)
  innerWidth : Z;                             (* window.innerWidth *)
  bodyOverflow : string;                      (* document.body.style.overflow *)
  takesFocus : gset string → Z → Element → bool;
                                              (* markup and style sheet: the elements that can
                                                 take focus, given the body's classes and the
                                                 viewport width *)
}.

Definition classList_add (c : string) (d : Dom) : Dom :=
  mkDom ({[c]} ∪ bodyClass d) (attrs d) (activeElement d) (innerWidth d) (bodyOverflow d)
        (takesFocus d).

Definition classList_remove (c : string) (d : Dom) : Dom :=
  mkDom (bodyClass d ∖ {[c]}) (attrs d) (activeElement d) (innerWidth d) (bodyOverflow d)
        (takesFocus d).

Definition classList_contains (c : string) (d : Dom) : bool :=
  bool_decide (c ∈ bodyClass d).

(** [classList.toggle(c)]: removes [c] and answers false when present, adds it
    and answers true when absent. *)
Definition classList_toggle (c : string) (d : Dom) : bool * Dom :=
  if classList_contains c d then (false, classList_remove c d)
  else (true, classList_add c d).

(** [classList.toggle(c, force)] *)
Definition classList_toggle_force (c : string) (force : bool) (d : Dom) : Dom :=
  if force then classList_add c d else classList_remove c d.

Definition setAttribute (e : Element) (name value : string) (d : Dom) : Dom :=
  mkDom (bodyClass d) (<[(e, name) := value]> (attrs d)) (activeElement d)
        (innerWidth d) (bodyOverflow d) (takesFocus d).

(** [getAttribute] answers null ([None]) for a missing attribute. *)
Definition getAttribute (e : Element) (name : string) (d : Dom) : option string :=
  attrs d !! (e, name).

(** Whether [e] can take focus now.  An element that is disabled, not
    rendered or inert cannot, although the scripts' selectors match it. *)
Definition can_focus (e : Element) (d : Dom) : bool :=
  takesFocus d (bodyClass d) (innerWidth d) e.

(** [e.focus()]: the element becomes the active element when it can take
    focus; otherwise the call does nothing. *)
Definition focus (e : Element) (d : Dom) : Dom :=
  mkDom (bodyClass d) (attrs d) (if can_focus e d then Some e else activeElement d)
        (innerWidth d) (bodyOverflow d) (takesFocus d).

Definition set_innerWidth (w : Z) (d : Dom) : Dom :=
  mkDom (bodyClass d) (attrs d) (activeElement d) w (bodyOverflow d) (takesFocus d).

Definition set_bodyOverflow (v : string) (d : Dom) : Dom :=
  mkDom (bodyClass d) (attrs d) (activeElement d) (innerWidth d) v (takesFocus d).

(** [String(b)] *)
Definition String_of_bool (b : bool) : string := if b then "true" else "false".

(** [s || dflt] for [s] a string or undefined: both undefined and the empty
    string are falsy. *)
Definition or_default (s : option string) (dflt : string) : string :=
  match s with
  | Some (String c r) => String c r
  | _ => dflt
  end.

(** [a === b] between [document.activeElement] (a node or null) and a cached
    reference (a node or undefined): true only for the same node. *)
Definition same_node (a b : option Element) : bool :=
  match a, b with
  | Some x, Some y => bool_decide (x = y)
  | _, _ => false
  end.

(** [list[i]] for a NodeList: undefined ([None]) outside [0, length). *)
Definition item (l : list Element) (i : Z) : option Element :=
  if decide (0 ≤ i) then l !! Z.to_nat i else None.

(** [node.contains(event.target)], with the event given by its propagation
    path (the target first, then its ancestors): a node contains the target
    exactly when it lies on the path. *)
Definition on_path (e : Element) (path : list Element) : bool :=
  bool_decide (e ∈ path).

(** What the page's markup answers to the scripts' queries. *)
Record Page : Type := mkPage {
  q_toggle : option Element;       (* querySelector('.mobile-menu-toggle') *)
  q_nav : option Element;          (* querySelector('#nav-links') *)
  q_focusable : list Element;      (* nav.querySelectorAll(<focusable selector>) *)
}.

(** Events delivered by the browser. *)
Inductive Event : Type :=
| Click (path : list Element)              (* target :: ancestors *)
| Keydown (key : string) (shiftKey : bool)
| Resize (width : Z)                       (* the viewport is now [width] wide *)
| AnimationFrame                           (* the next paint frame *)
| TimerFires (i : nat).                    (* the i-th pending setTimeout runs out *)

Inductive Target : Type := OnElement (e : Element) | OnDocument | OnWindow.

Global Instance Target_eq_dec : EqDecision Target.
Proof. solve_decision. Defined.

Inductive EventType : Type := click | keydown | resize.

Global Instance EventType_eq_dec : EqDecision EventType.
Proof. solve_decision. Defined.

(** ** Listeners, frame callbacks, timers and event dispatch

    Shared by all revisions: [N] is the record of fields of the component
    object, [H] names the functions the revision hands to the browser
    (listeners, requestAnimationFrame callbacks, setTimeout callbacks). *)

Section Browser.
Context {N H : Type} `{EqDecision H}.

Record Listener : Type := mkListener {
  l_target : Target;
  l_type : EventType;
  l_handler : H;
}.

Record World : Type := mkWorld {
  dom : Dom;
  nav : N;
  listeners : list Listener;          (* in registration order *)
  frameQueue : list H;                (* requestAnimationFrame callbacks *)
  timers : list (H * Event);          (* pending setTimeout callbacks and their arguments *)
  defaultPrevented : bool;            (* of the event being dispatched *)
  console : list string;
}.

Definition with_dom (f : Dom → Dom) (w : World) : World :=
  mkWorld (f (dom w)) (nav w) (listeners w) (frameQueue w) (timers w)
          (defaultPrevented w) (console w).
Definition with_nav (f : N → N) (w : World) : World :=
  mkWorld (dom w) (f (nav w)) (listeners w) (frameQueue w) (timers w)
          (defaultPrevented w) (console w).
Definition addEventListener (t : Target) (ty : EventType) (h : H) (w : World) : World :=
  mkWorld (dom w) (nav w) (listeners w ++ [mkListener t ty h]) (frameQueue w) (timers w)
          (defaultPrevented w) (console w).
Definition requestAnimationFrame (h : H) (w : World) : World :=
  mkWorld (dom w) (nav w) (listeners w) (frameQueue w ++ [h]) (timers w)
          (defaultPrevented w) (console w).
Definition set_frameQueue (q : list H) (w : World) : World :=
  mkWorld (dom w) (nav w) (listeners w) q (timers w) (defaultPrevented w) (console w).
Definition set_timers (ts : list (H * Event)) (w : World) : World :=
  mkWorld (dom w) (nav w) (listeners w) (frameQueue w) ts (defaultPrevented w) (console w).
Definition set_defaultPrevented (b : bool) (w : World) : World :=
  mkWorld (dom w) (nav w) (listeners w) (frameQueue w) (timers w) b (console w).
Definition console_log (msg : string) (w : World) : World :=
  mkWorld (dom w) (nav w) (listeners w) (frameQueue w) (timers w) (defaultPrevented w)
          (console w ++ [msg]).

(** A function wrapped by [debounce(func, wait)], called with [ev]:
    [clearTimeout(timeout); timeout = setTimeout(later, wait)].  The pending
    call of the same function is dropped, the new one is queued. *)
Definition debounced (h : H) (ev : Event) (w : World) : World :=
  set_timers (filter (λ p, p.1 ≠ h) (timers w) ++ [(h, ev)]) w.

(** The functions themselves, given by each revision. *)
Variable invoke : H → Event → JS World unit.

(** An exception that escapes a callback is reported on the console and
    the browser goes on with the next callback. *)
Definition run_callback (h : H) (ev : Event) : JS World unit :=
  try_catch (invoke h ev) (λ _, modify (console_log "Uncaught exception")).

Definition listeners_on (t : Target) (ty : EventType) (w : World) : list Listener :=
  filter (λ l, l_target l = t ∧ l_type l = ty) (listeners w).

Definition fire (t : Target) (ty : EventType) (ev : Event) : JS World unit :=
  bind (gets (listeners_on t ty)) (λ ls,
  forEach ls (λ l, run_callback (l_handler l) ev)).

(** Bubbling: the listeners of the target, then of each ancestor, then of
    the document, then of the window.  A keydown is delivered to the
    document and window listeners (no revision listens for it on an
    element of the panel).  A resize first changes the viewport. *)
Definition dispatch (ev : Event) : JS World unit :=
  bind (modify (set_defaultPrevented false)) (λ _,
  match ev with
  | Click path =>
      bind (forEach path (λ e, fire (OnElement e) click ev)) (λ _,
      bind (fire OnDocument click ev) (λ _,
      fire OnWindow click ev))
  | Keydown _ _ =>
      bind (fire OnDocument keydown ev) (λ _,
      fire OnWindow keydown ev)
  | Resize width =>
      bind (modify (with_dom (set_innerWidth width))) (λ _,
      fire OnWindow resize ev)
  | AnimationFrame =>
      bind (gets frameQueue) (λ q,
      bind (modify (set_frameQueue [])) (λ _,
      forEach q (λ h, run_callback h ev)))
  | TimerFires i =>
      bind (gets timers) (λ ts,
      match ts !! i with
      | Some (h, ev') =>
          bind (modify (set_timers (delete i ts))) (λ _,
          run_callback h ev')
      | None => ret tt
      end)
  end).

Definition step (ev : Event) (w : World) : World := exec (dispatch ev) w.

Definition run (evs : list Event) (w : World) : World := foldl (λ w ev, step ev w) w evs.

(** Member access through a reference that may be null or undefined. *)
Definition deref {A} (what : string) (o : option A) : JS World A :=
  match o with
  | Some a => ret a
  | None => throw (TypeError what)
  end.
End Browser.

Arguments Listener : clear implicits.
Arguments World : clear implicits.

(** [w'] shows no trace of the component having acted on [w]: its fields,
    the body's classes, the attributes and the focused element are as
    they were. *)
Definition quiet {N H} (w w' : World N H) : Prop :=
  nav w' = nav w ∧
  bodyClass (dom w') = bodyClass (dom w) ∧
  attrs (dom w') = attrs (dom w) ∧
  activeElement (dom w') = activeElement (dom w).

(** Propagation paths of the clicks the properties speak of.  A path lists
    distinct nodes.  An activation goes through the trigger and through no
    link of the panel; a click on a link of the panel goes through that link
    and not through the trigger; a click outside goes through neither the
    panel nor the trigger. *)
Definition trigger_click (t : Element) (fs : list Element) (path : list Element) : Prop :=
  NoDup path ∧ t ∈ path ∧ ∀ l, l ∈ fs → l ∉ path.

Definition link_click (t : Element) (fs : list Element) (path : list Element) : Prop :=
  (t ∉ path) ∧ ∃ l, l ∈ fs ∧ l ∈ path.

Definition outside_click (t n : Element) (path : list Element) : Prop :=
  (t ∉ path) ∧ (n ∉ path).

(** Focus containment, for a revision given by its [step] and the list [fs]
    of the elements its selector matched in the panel: Tab on the last asks
    the first to take focus, Shift+Tab on the first asks the last, both with
    the default suppressed; the focus lands there when that element can take
    focus and stays where it is when it cannot.  On an element that is
    neither, either key leaves the component quiet and the default in
    place; so does Tab when the focus is not on the last, and Shift+Tab when
    it is not on the first (on the body, say). *)
Definition traps_focus {N H} (step : Event → World N H → World N H)
    (fs : list Element) (w : World N H) : Prop :=
  (∀ l, last fs = Some l → activeElement (dom w) = Some l →
     ∃ f, head fs = Some f ∧
       defaultPrevented (step (Keydown "Tab" false) w) = true ∧
       (can_focus f (dom w) = true →
        activeElement (dom (step (Keydown "Tab" false) w)) = Some f) ∧
       (can_focus f (dom w) = false →
        activeElement (dom (step (Keydown "Tab" false) w)) = Some l)) ∧
  (∀ f, head fs = Some f → activeElement (dom w) = Some f →
     ∃ l, last fs = Some l ∧
       defaultPrevented (step (Keydown "Tab" true) w) = true ∧
       (can_focus l (dom w) = true →
        activeElement (dom (step (Keydown "Tab" true) w)) = Some l) ∧
       (can_focus l (dom w) = false →
        activeElement (dom (step (Keydown "Tab" true) w)) = Some f)) ∧
  (∀ b shift, activeElement (dom w) = Some b → head fs ≠ Some b → last fs ≠ Some b →
     quiet w (step (Keydown "Tab" shift) w) ∧
     defaultPrevented (step (Keydown "Tab" shift) w) = false) ∧
  (∀ shift : bool,
     same_node (activeElement (dom w)) (if shift then head fs else last fs) = false →
     quiet w (step (Keydown "Tab" shift) w) ∧
     defaultPrevented (step (Keydown "Tab" shift) w) = false).

(** ** Version 6.0: mobileNav *)

Module V6.

(** [this.elements], once [init] has filled it (before that it is [{}]). *)
Record Elements : Type := mkElements {
  toggleButton : option Element;
  navContainer : option Element;
}.

(** The fields of the [mobileNav] object. *)
Record Nav : Type := mkNav {
  elements : option Elements;          (* None: still the empty object *)
  isOpen : bool;
  focusableElements : list Element;
  firstFocusable : option Element;
  lastFocusable : option Element;
}.

Inductive Handler : Type :=
| H_toggleMenu          (* this.toggleMenu.bind(this) *)
| H_handleKeydown       (* this.handleKeydown.bind(this) *)
| H_outsideClick        (* the "close menu when clicking outside" closure *)
| H_linkClick           (* the "close menu on nav link click" closure *)
| H_handleResize        (* this.handleResize.bind(this) *)
| H_focusFirst.         (* the closure handed to requestAnimationFrame *)

Global Instance Handler_eq_dec : EqDecision Handler.
Proof. solve_decision. Defined.

Abbreviation World := (World Nav Handler).

(** The object literal: [elements: {}, isOpen: false]. *)
Definition nav0 : Nav := mkNav None false [] None None.

(** The page before the script runs: nothing registered, nothing pending. *)
Definition world0 (d : Dom) : World := mkWorld d nav0 [] [] [] false [].

Definition set_isOpen (b : bool) (n : Nav) : Nav :=
  mkNav (elements n) b (focusableElements n) (firstFocusable n) (lastFocusable n).
Definition set_elements (e : Elements) (n : Nav) : Nav :=
  mkNav (Some e) (isOpen n) (focusableElements n) (firstFocusable n) (lastFocusable n).
Definition set_focusables (l : list Element) (f g : option Element) (n : Nav) : Nav :=
  mkNav (elements n) (isOpen n) l f g.

Local Open Scope js_scope.

(** [this.elements.body]: [document.body] once [init] ran, undefined before;
    reading a property of it then throws. *)
Definition elements_body : JS World unit :=
  let* e := gets (λ w, elements (nav w)) in
  match e with
  | Some _ => ret tt
  | None => throw (TypeError "this.elements.body")
  end.

Definition elements_toggleButton : JS World Element :=
  let* e := gets (λ w, elements (nav w)) in
  deref "this.elements.toggleButton" (e ≫= toggleButton).

Definition elements_navContainer : JS World Element :=
  let* e := gets (λ w, elements (nav w)) in
  deref "this.elements.navContainer" (e ≫= navContainer).

Definition setupAccessibility : JS World unit :=
  let* t := elements_toggleButton in
  modify (with_dom (setAttribute t "aria-expanded" "false")) ;;;
  modify (with_dom (setAttribute t "aria-controls" "nav-links")) ;;;
  let* n := elements_navContainer in
  modify (with_dom (setAttribute n "aria-hidden" "true")).

Definition trapFocus : JS World unit := ret tt.

Definition openMenu : JS World unit :=
  modify (with_nav (set_isOpen true)) ;;;
  elements_body ;;;
  modify (with_dom (classList_add "mobile-nav-open")) ;;;
  let* t := elements_toggleButton in
  modify (with_dom (setAttribute t "aria-expanded" "true")) ;;;
  let* n := elements_navContainer in
  modify (with_dom (setAttribute n "aria-hidden" "false")) ;;;
  modify (requestAnimationFrame H_focusFirst) ;;;
  trapFocus.

Definition closeMenu : JS World unit :=
  modify (with_nav (set_isOpen false)) ;;;
  elements_body ;;;
  modify (with_dom (classList_remove "mobile-nav-open")) ;;;
  let* t := elements_toggleButton in
  modify (with_dom (setAttribute t "aria-expanded" "false")) ;;;
  let* n := elements_navContainer in
  modify (with_dom (setAttribute n "aria-hidden" "true")) ;;;
  modify (with_dom (focus t)).

Definition toggleMenu : JS World unit :=
  let* o := gets (λ w, isOpen (nav w)) in
  if o then closeMenu else openMenu.

(** [() => { if (this.firstFocusable) this.firstFocusable.focus(); }] *)
Definition focusFirst : JS World unit :=
  let* f := gets (λ w, firstFocusable (nav w)) in
  match f with
  | Some e => modify (with_dom (focus e))
  | None => ret tt
  end.

Definition handleTabNavigation (shiftKey : bool) : JS World unit :=
  let* a := gets (λ w, activeElement (dom w)) in
  if shiftKey then
    let* f := gets (λ w, firstFocusable (nav w)) in
    when same_node a f then
      let* l := gets (λ w, lastFocusable (nav w)) in
      let* l := deref "this.lastFocusable" l in
      modify (with_dom (focus l)) ;;;
      modify (set_defaultPrevented true)
  else
    let* l := gets (λ w, lastFocusable (nav w)) in
    when same_node a l then
      let* f := gets (λ w, firstFocusable (nav w)) in
      let* f := deref "this.firstFocusable" f in
      modify (with_dom (focus f)) ;;;
      modify (set_defaultPrevented true).

Definition handleKeydown (key : string) (shiftKey : bool) : JS World unit :=
  let* o := gets (λ w, isOpen (nav w)) in
  if negb o then ret tt
  else if bool_decide (key = "Escape") then closeMenu
  else if bool_decide (key = "Tab") then handleTabNavigation shiftKey
  else ret tt.

Definition handleResize : JS World unit :=
  let* width := gets (λ w, innerWidth (dom w)) in
  let* o := gets (λ w, isOpen (nav w)) in
  when bool_decide (width > 768) && o then closeMenu.

(** [(e) => { if (this.isOpen && !nav.contains(e.target) &&
    !toggle.contains(e.target)) this.closeMenu(); }], with the short-circuit
    evaluation of [&&] written out. *)
Definition outsideClick (path : list Element) : JS World unit :=
  let* o := gets (λ w, isOpen (nav w)) in
  if negb o then ret tt
  else
    let* n := elements_navContainer in
    if on_path n path then ret tt
    else
      let* t := elements_toggleButton in
      if on_path t path then ret tt else closeMenu.

(** [() => { if (this.isOpen) this.closeMenu(); }] *)
Definition linkClick : JS World unit :=
  let* o := gets (λ w, isOpen (nav w)) in
  when o then closeMenu.

Definition bindEvents : JS World unit :=
  let* t := elements_toggleButton in
  modify (addEventListener (OnElement t) click H_toggleMenu) ;;;
  modify (addEventListener OnDocument keydown H_handleKeydown) ;;;
  modify (addEventListener OnDocument click H_outsideClick) ;;;
  let* fs := gets (λ w, focusableElements (nav w)) in
  forEach fs (λ link, modify (addEventListener (OnElement link) click H_linkClick)) ;;;
  modify (addEventListener OnWindow resize H_handleResize).

Definition init (p : Page) : JS World unit :=
  modify (with_nav (set_elements (mkElements (q_toggle p) (q_nav p)))) ;;;
  match q_toggle p, q_nav p with
  | Some _, Some _ =>
      let fs := q_focusable p in
      modify (with_nav (set_focusables fs (item fs 0) (item fs (Z.of_nat (length fs) - 1)))) ;;;
      bindEvents ;;;
      setupAccessibility
  | _, _ => modify (console_log "Mobile navigation elements not found")
  end.

(** What each function handed to the browser does with the event it gets. *)
Definition invoke (h : Handler) (ev : Event) : JS World unit :=
  match h with
  | H_toggleMenu => toggleMenu
  | H_handleKeydown =>
      match ev with
      | Keydown key shiftKey => handleKeydown key shiftKey
      | _ => handleKeydown EmptyString false
      end
  | H_outsideClick =>
      match ev with
      | Click path => outsideClick path
      | _ => outsideClick []
      end
  | H_linkClick => linkClick
  | H_handleResize => handleResize
  | H_focusFirst => focusFirst
  end.

Definition dispatch : Event → JS World unit := dispatch invoke.
Definition step : Event → World → World := step invoke.
Definition run : list Event → World → World := run invoke.

(** The page after the script ran [mobileNav.init()]. *)
Definition boot (p : Page) (d : Dom) : World := exec (init p) (world0 d).

(** The registrations [bindEvents] makes, in its order. *)
Definition bound_listeners (t : Element) (fs : list Element) : list (Listener Handler) :=
  [mkListener (OnElement t) click H_toggleMenu;
   mkListener OnDocument keydown H_handleKeydown;
   mkListener OnDocument click H_outsideClick]
  ++ ((λ link, mkListener (OnElement link) click H_linkClick) <$> fs)
  ++ [mkListener OnWindow resize H_handleResize].

(** What a successful [init] establishes and no later call changes. *)
Definition Ready (t n : Element) (fs : list Element) (w : World) : Prop :=
  elements (nav w) = Some (mkElements (Some t) (Some n)) ∧
  focusableElements (nav w) = fs ∧
  firstFocusable (nav w) = head fs ∧
  lastFocusable (nav w) = last fs ∧
  listeners w = bound_listeners t fs.

(** The trigger's expanded attribute spells [isOpen]. *)
Definition Synced (t : Element) (w : World) : Prop :=
  getAttribute t "aria-expanded" (dom w) = Some (String_of_bool (isOpen (nav w))).

(** The invariant of the initialised component. *)
Definition Inv (t n : Element) (fs : list Element) (w : World) : Prop :=
  Ready t n fs w ∧ Synced t w.

(** The body's open marker and the panel's hidden attribute spell [isOpen]. *)
Definition Mirrored (n : Element) (w : World) : Prop :=
  classList_contains "mobile-nav-open" (dom w) = isOpen (nav w) ∧
  getAttribute n "aria-hidden" (dom w) = Some (String_of_bool (negb (isOpen (nav w)))).

(** Nothing but the focus move is ever queued for a frame, no timer is
    started and nothing is reported on the console. *)
Definition Calm (w : World) : Prop :=
  Forall (λ h, h = H_focusFirst) (frameQueue w) ∧ timers w = [] ∧ console w = [].

(** The events that close an open panel: Escape, an activation of the
    trigger, a click on a link of the panel, a click outside, a resize to
    more than 768. *)
Definition closes_panel (t n : Element) (fs : list Element) (ev : Event) : Prop :=
  match ev with
  | Keydown key _ => key = "Escape"
  | Click path => trigger_click t fs path ∨ link_click t fs path ∨ outside_click t n path
  | Resize x => 768 < x
  | AnimationFrame | TimerFires _ => False
  end.



(** [App.initComponents]: the dependency check, then the modules' [init]s
    in the order of the array literal, [mobileNav.init()] first.  The other
    modules are outside this development and are taken as they come. *)
Definition initComponents (gsap_loaded : bool) (p : Page)
    (siblings : list (JS World unit)) : JS World unit :=
  if negb gsap_loaded then throw (Error "GSAP or ScrollTrigger not loaded")
  else
    init p ;;;
    forEach siblings (λ sibling_init, sibling_init).

End V6.

(** ** Version 8.0: mobileNav with debounced document and window handlers *)

Module V8.

Record Elements : Type := mkElements {
  el_toggle : option Element;
  el_nav : option Element;
  el_focusable : option (list Element);    (* null while the nav is not found *)
}.

Record Nav : Type := mkNav {
  elements : option Elements;              (* None: still the empty object *)
  isOpen : bool;
}.

Inductive Handler : Type :=
| H_toggle                   (* this.toggle.bind(this) *)
| H_handleKeydown            (* this.handleKeydown.bind(this) *)
| H_outsideClickDebounced    (* this.debounce(this.handleOutsideClick.bind(this), 10) *)
| H_handleOutsideClick       (* ... and the call its timer makes *)
| H_linkClick                (* () => this.isOpen && this.close() *)
| H_resizeDebounced          (* this.debounce(<resize check>, 100) *)
| H_resizeCheck              (* ... and the call its timer makes *)
| H_focusFirst.              (* the closure handed to requestAnimationFrame *)

Global Instance Handler_eq_dec : EqDecision Handler.
Proof. solve_decision. Defined.

Abbreviation World := (World Nav Handler).

Definition nav0 : Nav := mkNav None false.
Definition world0 (d : Dom) : World := mkWorld d nav0 [] [] [] false [].

Definition set_isOpen (b : bool) (n : Nav) : Nav := mkNav (elements n) b.
Definition set_elements (e : Elements) (n : Nav) : Nav := mkNav (Some e) (isOpen n).

Local Open Scope js_scope.

Definition elements_body : JS World unit :=
  let* e := gets (λ w, elements (nav w)) in
  match e with
  | Some _ => ret tt
  | None => throw (TypeError "this.elements.body")
  end.

Definition elements_toggle : JS World Element :=
  let* e := gets (λ w, elements (nav w)) in
  deref "this.elements.toggle" (e ≫= el_toggle).

Definition elements_nav : JS World Element :=
  let* e := gets (λ w, elements (nav w)) in
  deref "this.elements.nav" (e ≫= el_nav).

Definition cacheElements (p : Page) : JS World unit :=
  modify (with_nav (set_elements
    (mkElements (q_toggle p) (q_nav p)
                (match q_nav p with Some _ => Some (q_focusable p) | None => None end)))).

Definition setupAccessibility : JS World unit :=
  let* t := elements_toggle in
  modify (with_dom (setAttribute t "aria-expanded" "false")) ;;;
  modify (with_dom (setAttribute t "aria-controls" "nav-links")).

Definition open : JS World unit :=
  modify (with_nav (set_isOpen true)) ;;;
  elements_body ;;;
  modify (with_dom (classList_add "mobile-nav-open")) ;;;
  let* t := elements_toggle in
  modify (with_dom (setAttribute t "aria-expanded" "true")) ;;;
  modify (requestAnimationFrame H_focusFirst).

Definition close : JS World unit :=
  modify (with_nav (set_isOpen false)) ;;;
  elements_body ;;;
  modify (with_dom (classList_remove "mobile-nav-open")) ;;;
  let* t := elements_toggle in
  modify (with_dom (setAttribute t "aria-expanded" "false")) ;;;
  modify (with_dom (focus t)).

Definition toggle : JS World unit :=
  let* o := gets (λ w, isOpen (nav w)) in
  if o then close else open.

(** [() => { this.elements.focusable?.[0]?.focus(); }] *)
Definition focusFirst : JS World unit :=
  let* e := gets (λ w, elements (nav w)) in
  match (e ≫= el_focusable) ≫= (λ fs, item fs 0) with
  | Some f => modify (with_dom (focus f))
  | None => ret tt
  end.

Definition handleKeydown (key : string) : JS World unit :=
  let* o := gets (λ w, isOpen (nav w)) in
  if negb o || negb (bool_decide (key = "Escape")) then ret tt
  else close.

Definition handleOutsideClick (path : list Element) : JS World unit :=
  let* o := gets (λ w, isOpen (nav w)) in
  if negb o then ret tt
  else
    let* n := elements_nav in
    if on_path n path then ret tt
    else
      let* t := elements_toggle in
      if on_path t path then ret tt else close.

Definition linkClick : JS World unit :=
  let* o := gets (λ w, isOpen (nav w)) in
  when o then close.

(** [() => { if (window.innerWidth > 768 && this.isOpen) this.close(); }] *)
Definition resizeCheck : JS World unit :=
  let* width := gets (λ w, innerWidth (dom w)) in
  let* o := gets (λ w, isOpen (nav w)) in
  when bool_decide (width > 768) && o then close.

Definition bindEvents : JS World unit :=
  let* t := elements_toggle in
  modify (addEventListener (OnElement t) click H_toggle) ;;;
  modify (addEventListener OnDocument keydown H_handleKeydown) ;;;
  modify (addEventListener OnDocument click H_outsideClickDebounced) ;;;
  let* e := gets (λ w, elements (nav w)) in
  match e ≫= el_focusable with
  | Some fs => forEach fs (λ link, modify (addEventListener (OnElement link) click H_linkClick))
  | None => ret tt
  end ;;;
  modify (addEventListener OnWindow resize H_resizeDebounced).

Definition init (p : Page) : JS World unit :=
  cacheElements p ;;;
  match q_toggle p, q_nav p with
  | Some _, Some _ => bindEvents ;;; setupAccessibility
  | _, _ => ret tt
  end.

Definition invoke (h : Handler) (ev : Event) : JS World unit :=
  match h with
  | H_toggle => toggle
  | H_handleKeydown =>
      match ev with
      | Keydown key _ => handleKeydown key
      | _ => handleKeydown EmptyString
      end
  | H_outsideClickDebounced => modify (debounced H_handleOutsideClick ev)
  | H_handleOutsideClick =>
      match ev with
      | Click path => handleOutsideClick path
      | _ => handleOutsideClick []
      end
  | H_linkClick => linkClick
  | H_resizeDebounced => modify (debounced H_resizeCheck ev)
  | H_resizeCheck => resizeCheck
  | H_focusFirst => focusFirst
  end.

Definition dispatch : Event → JS World unit := dispatch invoke.
Definition step : Event → World → World := step invoke.
Definition run : list Event → World → World := run invoke.

(** The page after the script ran [mobileNav.init()]. *)
Definition boot (p : Page) (d : Dom) : World := exec (init p) (world0 d).

(** The registrations [bindEvents] makes, in its order. *)
Definition bound_listeners (t : Element) (fs : list Element) : list (Listener Handler) :=
  [mkListener (OnElement t) click H_toggle;
   mkListener OnDocument keydown H_handleKeydown;
   mkListener OnDocument click H_outsideClickDebounced]
  ++ ((λ link, mkListener (OnElement link) click H_linkClick) <$> fs)
  ++ [mkListener OnWindow resize H_resizeDebounced].

(** What a successful [init] establishes and no later call changes. *)
Definition Ready (t n : Element) (fs : list Element) (w : World) : Prop :=
  elements (nav w) = Some (mkElements (Some t) (Some n) (Some fs)) ∧
  listeners w = bound_listeners t fs.

(** The invariant of the initialised component: the only calls ever pending
    on a timer are those of the two debounced functions. *)
Definition Inv (t n : Element) (fs : list Element) (w : World) : Prop :=
  Ready t n fs w ∧
  Forall (λ p, p.1 = H_handleOutsideClick ∨ p.1 = H_resizeCheck) (timers w).

(** The trigger's expanded attribute and the body's open marker spell [isOpen]. *)
Definition Synced (t : Element) (w : World) : Prop :=
  getAttribute t "aria-expanded" (dom w) = Some (String_of_bool (isOpen (nav w))) ∧
  classList_contains "mobile-nav-open" (dom w) = isOpen (nav w).

(** At most one call of each debounced function is pending. *)
Definition Debounced (w : World) : Prop := NoDup (fst <$> timers w).

(** Nothing but the focus move is ever queued for a frame and nothing is
    reported on the console. *)
Definition Calm (w : World) : Prop :=
  Forall (λ h, h = H_focusFirst) (frameQueue w) ∧ console w = [].

End V8.

(** ** Version 2.0: mobileNav.init and the application start-up *)

Module V2.

Record Nav : Type := mkNav {
  toggleButton : option Element;
  navLinksContainer : option Element;
  focusableElements : list Element;
  firstFocusable : option Element;
  lastFocusable : option Element;
}.

Inductive Handler : Type :=
| H_toggleMenu.         (* this.toggleMenu.bind(this) *)

Global Instance Handler_eq_dec : EqDecision Handler.
Proof. solve_decision. Defined.

Abbreviation World := (World Nav Handler).

Definition nav0 : Nav := mkNav None None [] None None.
Definition world0 (d : Dom) : World := mkWorld d nav0 [] [] [] false [].

Local Open Scope js_scope.

Definition toggleMenu : JS World unit :=
  let* d := gets dom in
  let '(isExpanded, d') := classList_toggle "mobile-nav-open" d in
  modify (with_dom (λ _, d')) ;;;
  let* t := gets (λ w, toggleButton (nav w)) in
  let* t := deref "this.toggleButton" t in
  modify (with_dom (setAttribute t "aria-expanded" (String_of_bool isExpanded))).

Definition init (p : Page) : JS World unit :=
  modify (with_nav (λ n, mkNav (q_toggle p) (q_nav p) (focusableElements n)
                               (firstFocusable n) (lastFocusable n))) ;;;
  match q_toggle p, q_nav p with
  | Some t, Some _ =>
      let fs := q_focusable p in
      modify (with_nav (λ n, mkNav (toggleButton n) (navLinksContainer n) fs
                                   (item fs 0) (item fs (Z.of_nat (length fs) - 1)))) ;;;
      modify (addEventListener (OnElement t) click H_toggleMenu)
  | _, _ => ret tt
  end.

Definition invoke (h : Handler) (ev : Event) : JS World unit :=
  match h with
  | H_toggleMenu => toggleMenu
  end.

Definition dispatch : Event → JS World unit := dispatch invoke.
Definition step : Event → World → World := step invoke.
Definition run : list Event → World → World := run invoke.

(** The page after the script ran [mobileNav.init()]. *)
Definition boot (p : Page) (d : Dom) : World := exec (init p) (world0 d).

(** This revision keeps no flag: the panel is open when the body says so. *)
Definition isNavOpen (w : World) : bool := classList_contains "mobile-nav-open" (dom w).

Definition bound_listeners (t : Element) : list (Listener Handler) :=
  [mkListener (OnElement t) click H_toggleMenu].

(** What a successful [init] establishes and no later call changes. *)
Definition Ready (t n : Element) (fs : list Element) (w : World) : Prop :=
  toggleButton (nav w) = Some t ∧
  navLinksContainer (nav w) = Some n ∧
  focusableElements (nav w) = fs ∧
  firstFocusable (nav w) = head fs ∧
  lastFocusable (nav w) = last fs ∧
  listeners w = bound_listeners t ∧
  frameQueue w = [] ∧
  timers w = [].

(** The DOMContentLoaded callback: without GSAP it logs and returns; with it,
    [mobileNav.init()] runs first and the other modules' [init]s follow. *)
Definition app_init (gsap_loaded : bool) (p : Page)
    (siblings : list (JS World unit)) : JS World unit :=
  if negb gsap_loaded then modify (console_log "GSAP or ScrollTrigger is not loaded.")
  else
    init p ;;;
    forEach siblings (λ sibling_init, sibling_init).

End V2.

(** ** Reveal on scroll: the store shared by the two embedded revisions *)

(** What the page and the environment answer to a reveal script. *)
Record RevealPage : Type := mkRevealPage {
  reduced_motion : bool;                  (* matchMedia('(prefers-reduced-motion: reduce)').matches *)
  targets : list Element;                 (* querySelectorAll(<the revision's selector>) *)
  dataset_delay : Element → option string;   (* el.dataset.delay *)
}.

Record RevealWorld : Type := mkRevealWorld {
  elClass : gset (Element * string);          (* el.classList, per element *)
  elStyle : gmap (Element * string) string;   (* el.style, per element *)
  observers : nat;                            (* IntersectionObservers constructed *)
  observed : list Element;                    (* elements under observation *)
  pendingTimeouts : list (Element * string);  (* setTimeout(() => add 'visible', delay) *)
}.

Definition el_classList_add (e : Element) (c : string) (w : RevealWorld) : RevealWorld :=
  mkRevealWorld ({[(e, c)]} ∪ elClass w) (elStyle w) (observers w) (observed w)
                (pendingTimeouts w).
(** The declaration [prop: value] enters [el.style]: what an assignment of
    a value the CSS parser accepts does. *)
Definition el_style_set (e : Element) (prop value : string) (w : RevealWorld) : RevealWorld :=
  mkRevealWorld (elClass w) (<[(e, prop) := value]> (elStyle w)) (observers w) (observed w)
                (pendingTimeouts w).

(** The browser's CSS parser, for a property and a text assigned to it: the
    value as the style declaration keeps it, or [None] when the text is not
    a value of the property. *)
Definition CssParser : Type := string → string → option string.

(** [el.style[prop] = text] for a computed text: an invalid value is
    dropped and the declaration stays as it was. *)
Definition el_style_assign (css : CssParser) (e : Element) (prop text : string)
    (w : RevealWorld) : RevealWorld :=
  match css prop text with
  | Some value => el_style_set e prop value w
  | None => w
  end.
Definition new_IntersectionObserver (w : RevealWorld) : RevealWorld :=
  mkRevealWorld (elClass w) (elStyle w) (S (observers w)) (observed w) (pendingTimeouts w).
Definition observe (e : Element) (w : RevealWorld) : RevealWorld :=
  mkRevealWorld (elClass w) (elStyle w) (observers w) (observed w ++ [e]) (pendingTimeouts w).
Definition unobserve (e : Element) (w : RevealWorld) : RevealWorld :=
  mkRevealWorld (elClass w) (elStyle w) (observers w) (filter (λ x, x ≠ e) (observed w))
                (pendingTimeouts w).
Definition setTimeout_visible (e : Element) (delay : string) (w : RevealWorld) : RevealWorld :=
  mkRevealWorld (elClass w) (elStyle w) (observers w) (observed w)
                (pendingTimeouts w ++ [(e, delay)]).
Definition set_pendingTimeouts (ts : list (Element * string)) (w : RevealWorld) : RevealWorld :=
  mkRevealWorld (elClass w) (elStyle w) (observers w) (observed w) ts.

(** The stand-alone [createScrollReveal]. *)
Module Reveal.

Local Open Scope js_scope.

Definition createScrollReveal (p : RevealPage) : JS RevealWorld unit :=
  if reduced_motion p then
    forEach (targets p) (λ el,
      modify (el_style_set el "opacity" "1") ;;;
      modify (el_style_set el "transform" "none"))
  else
    modify new_IntersectionObserver ;;;
    forEach (targets p) (λ el, modify (observe el)).

(** The observer's callback, on entries given as (target, isIntersecting). *)
Definition on_intersection (p : RevealPage) (entries : list (Element * bool))
    : JS RevealWorld unit :=
  forEach entries (λ entry,
    when entry.2 then
      let delay := or_default (dataset_delay p entry.1) "0" in
      modify (setTimeout_visible entry.1 delay)).

(** The i-th pending timeout runs out: [entry.target.classList.add('visible')]. *)
Definition timeout_fires (i : nat) : JS RevealWorld unit :=
  let* ts := gets pendingTimeouts in
  match ts !! i with
  | Some (el, _) =>
      modify (set_pendingTimeouts (delete i ts)) ;;;
      modify (el_classList_add el "visible")
  | None => ret tt
  end.

End Reveal.

(** ** Professional Edition 1.0: mobileNav and scrollAnimator *)

Module Pro1.

Record Nav : Type := mkNav {
  toggleButton : option Element;
  navLinksContainer : option Element;
  focusableElements : list Element;
  firstFocusable : option Element;
  lastFocusable : option Element;
}.

Inductive Handler : Type :=
| H_toggleMenu          (* this.toggleMenu.bind(this) *)
| H_handleKeydown.      (* this.handleKeydown.bind(this) *)

Global Instance Handler_eq_dec : EqDecision Handler.
Proof. solve_decision. Defined.

Abbreviation World := (World Nav Handler).

Definition nav0 : Nav := mkNav None None [] None None.
Definition world0 (d : Dom) : World := mkWorld d nav0 [] [] [] false [].

(** [CONFIG.nav.openBodyClass] *)
Definition openBodyClass : string := "mobile-nav-open".

Local Open Scope js_scope.

Definition toggleMenu : JS World unit :=
  let* d := gets dom in
  let '(isExpanded, d') := classList_toggle openBodyClass d in
  modify (with_dom (λ _, d')) ;;;
  let* t := gets (λ w, toggleButton (nav w)) in
  let* t := deref "this.toggleButton" t in
  modify (with_dom (setAttribute t "aria-expanded" (String_of_bool isExpanded))) ;;;
  modify (with_dom (set_bodyOverflow (if isExpanded then "hidden" else EmptyString))) ;;;
  when isExpanded then
    let* f := gets (λ w, firstFocusable (nav w)) in
    let* f := deref "this.firstFocusable" f in
    modify (with_dom (focus f)).

Definition handleKeydown (key : string) (shiftKey : bool) : JS World unit :=
  let* isNavOpen := gets (λ w, classList_contains openBodyClass (dom w)) in
  if negb isNavOpen then ret tt
  else
    (when bool_decide (key = "Escape") then toggleMenu) ;;;
    when bool_decide (key = "Tab") then
      let* a := gets (λ w, activeElement (dom w)) in
      if shiftKey then
        let* f := gets (λ w, firstFocusable (nav w)) in
        when same_node a f then
          let* l := gets (λ w, lastFocusable (nav w)) in
          let* l := deref "this.lastFocusable" l in
          modify (with_dom (focus l)) ;;;
          modify (set_defaultPrevented true)
      else
        let* l := gets (λ w, lastFocusable (nav w)) in
        when same_node a l then
          let* f := gets (λ w, firstFocusable (nav w)) in
          let* f := deref "this.firstFocusable" f in
          modify (with_dom (focus f)) ;;;
          modify (set_defaultPrevented true).

Definition init (p : Page) : JS World unit :=
  modify (with_nav (λ n, mkNav (q_toggle p) (q_nav p) (focusableElements n)
                               (firstFocusable n) (lastFocusable n))) ;;;
  match q_toggle p, q_nav p with
  | Some t, Some _ =>
      let fs := q_focusable p in
      modify (with_nav (λ n, mkNav (toggleButton n) (navLinksContainer n) fs
                                   (item fs 0) (item fs (Z.of_nat (length fs) - 1)))) ;;;
      modify (addEventListener (OnElement t) click H_toggleMenu) ;;;
      modify (addEventListener OnDocument keydown H_handleKeydown)
  | _, _ => ret tt
  end.

Definition invoke (h : Handler) (ev : Event) : JS World unit :=
  match h with
  | H_toggleMenu => toggleMenu
  | H_handleKeydown =>
      match ev with
      | Keydown key shiftKey => handleKeydown key shiftKey
      | _ => handleKeydown EmptyString false
      end
  end.

Definition dispatch : Event → JS World unit := dispatch invoke.
Definition step : Event → World → World := step invoke.
Definition run : list Event → World → World := run invoke.

(** The page after the script ran [mobileNav.init()]. *)
Definition boot (p : Page) (d : Dom) : World := exec (init p) (world0 d).

(** This revision keeps no flag: the panel is open when the body says so. *)
Definition isNavOpen (w : World) : bool := classList_contains openBodyClass (dom w).

Definition bound_listeners (t : Element) : list (Listener Handler) :=
  [mkListener (OnElement t) click H_toggleMenu;
   mkListener OnDocument keydown H_handleKeydown].

(** The scroll lock of the page follows the open marker. *)
Definition ScrollLocked (w : World) : Prop :=
  bodyOverflow (dom w) = (if isNavOpen w then "hidden" else EmptyString).

(** What a successful [init] establishes and no later call changes. *)
Definition Ready (t n : Element) (fs : list Element) (w : World) : Prop :=
  toggleButton (nav w) = Some t ∧
  navLinksContainer (nav w) = Some n ∧
  focusableElements (nav w) = fs ∧
  firstFocusable (nav w) = head fs ∧
  lastFocusable (nav w) = last fs ∧
  listeners w = bound_listeners t ∧
  frameQueue w = [] ∧
  timers w = [].

(** [CONFIG.animation.visibleClass] *)
Definition visibleClass : string := "is-visible".

(** [scrollAnimator.init], with [targets p] the '.fade-in-up' elements. *)
Definition scrollAnimator_init (p : RevealPage) : JS RevealWorld unit :=
  if bool_decide (length (targets p) = 0%nat) then ret tt
  else if reduced_motion p then
    forEach (targets p) (λ el, modify (el_classList_add el visibleClass))
  else
    modify new_IntersectionObserver ;;;
    forEach (targets p) (λ el, modify (observe el)).

Definition on_intersection (css : CssParser) (p : RevealPage)
    (entries : list (Element * bool)) : JS RevealWorld unit :=
  forEach entries (λ entry,
    when entry.2 then
      let delay := or_default (dataset_delay p entry.1) "0" in
      modify (el_style_assign css entry.1 "transitionDelay" (delay +:+ "ms")) ;;;
      modify (el_classList_add entry.1 visibleClass) ;;;
      modify (unobserve entry.1)).

End Pro1.

(** ** componentLoader.fetchAndInject, versions 5.1 and 6.0 *)

(** Markup is kept parsed: a text is the list of its top-level nodes, the
    empty text being the empty list. *)
Unset Elimination Schemes.
Inductive Node : Type :=
| ElementNode (tag : string) (id : option string) (children : list Node)
| TextNode (text : string).
Set Elimination Schemes.

Definition Markup := list Node.

(** What [await response.text()] gives. *)
Inductive Body : Type :=
| Text (html : Markup)
| Unreadable (reason : Exn).                  (* the promise rejects *)

Inductive FetchOutcome : Type :=
| Rejected (reason : Exn)                     (* fetch() rejects: network failure, abort *)
| Response (status : N) (statusText : string) (body : Body).

(** [response.ok]: the status is in the range 200-299. *)
Definition response_ok (status : N) : bool := (200 <=? status)%N && (status <=? 299)%N.

(** An argument of [console.error]. *)
Inductive LogArg : Type :=
| LogText (s : string)
| LogError (e : Exn).

Record LoaderWorld : Type := mkLoaderWorld {
  document : list Node;                 (* the document tree: its top-level nodes *)
  cache : gmap string Markup;           (* componentLoader.cache (6.0 only) *)
  errors : list (list LogArg);          (* the calls of console.error *)
}.

(** A position in the tree: the indices of the children to go through. *)
Definition Path := list nat.

Definition shift (p : option Path) : option Path :=
  match p with
  | Some (k :: q) => Some (S k :: q)
  | _ => p
  end.

(** The first element with id [i] in [n], in document order: [n] itself,
    then its descendants, depth first. *)
Fixpoint find_id (i : string) (n : Node) : option Path :=
  match n with
  | ElementNode _ j children =>
      if bool_decide (j = Some i) then Some []
      else (fix among (l : list Node) : option Path :=
              match l with
              | [] => None
              | c :: l' =>
                  match find_id i c with
                  | Some p => Some (0%nat :: p)
                  | None => shift (among l')
                  end
              end) children
  | TextNode _ => None
  end.

(** [document.getElementById(i)]: the position of the first element with
    that id anywhere in the tree, in document order. *)
Fixpoint getElementById (i : string) (doc : list Node) : option Path :=
  match doc with
  | [] => None
  | c :: doc' =>
      match find_id i c with
      | Some p => Some (0%nat :: p)
      | None => shift (getElementById i doc')
      end
  end.

(** The node at position [p] gives way to the nodes [f] makes of it. *)
Fixpoint update_at (p : Path) (f : Node → list Node) (l : list Node) : list Node :=
  match p with
  | [] => l
  | k :: p' =>
      match p' with
      | [] =>
          match l !! k with
          | Some c => take k l ++ f c ++ drop (S k) l
          | None => l
          end
      | _ :: _ =>
          match l !! k with
          | Some (ElementNode tag i children) =>
              <[k := ElementNode tag i (update_at p' f children)]> l
          | _ => l
          end
      end
  end.

(** [placeholder.outerHTML = html] and [placeholder.replaceWith(...)]: the
    nodes take the placeholder's place among its siblings. *)
Definition replace_at (p : Path) (new : list Node) (doc : list Node) : list Node :=
  update_at p (λ _, new) doc.

(** [placeholder.innerHTML = html]: the nodes become its only children. *)
Definition set_innerHTML (p : Path) (new : list Node) (doc : list Node) : list Node :=
  update_at p (λ c, match c with
                    | ElementNode tag i _ => [ElementNode tag i new]
                    | TextNode _ => [c]
                    end) doc.

Definition is_element (n : Node) : bool :=
  match n with ElementNode _ _ _ => true | TextNode _ => false end.

(** [temp.firstElementChild] after [temp.innerHTML = html]. *)
Definition firstElementChild (html : Markup) : option Node :=
  head (filter (λ n, is_element n = true) html).

Definition with_document (f : list Node → list Node) (w : LoaderWorld) : LoaderWorld :=
  mkLoaderWorld (f (document w)) (cache w) (errors w).
Definition cache_set (url : string) (html : Markup) (w : LoaderWorld) : LoaderWorld :=
  mkLoaderWorld (document w) (<[url := html]> (cache w)) (errors w).
Definition console_error (args : list LogArg) (w : LoaderWorld) : LoaderWorld :=
  mkLoaderWorld (document w) (cache w) (errors w ++ [args]).

(** [await fetch(url)], [if (!response.ok) throw failure] and
    [await response.text()]. *)
Definition fetch_text (network : string → FetchOutcome) (url : string)
    (failure : N → string → Exn) : JS LoaderWorld Markup :=
  match network url with
  | Rejected reason => throw reason
  | Response status statusText body =>
      if negb (response_ok status) then throw (failure status statusText)
      else match body with
           | Text html => ret html
           | Unreadable reason => throw reason
           end
  end.

(** What reaches the catch block, if anything does. *)
Definition fetch_error (o : FetchOutcome) (failure : N → string → Exn) : option Exn :=
  match o with
  | Rejected reason => Some reason
  | Response status statusText body =>
      if negb (response_ok status) then Some (failure status statusText)
      else match body with
           | Text _ => None
           | Unreadable reason => Some reason
           end
  end.

(** The text a successful retrieval yields. *)
Definition fetched (o : FetchOutcome) : option Markup :=
  match o with
  | Response status _ (Text html) => if response_ok status then Some html else None
  | _ => None
  end.

Module V5_1.

Local Open Scope js_scope.

(** [new Error(`Failed to load ${url}`)] *)
Definition failure (url : string) : N → string → Exn :=
  λ _ _, Error ("Failed to load " +:+ url).

(** The message written into the placeholder names the URL. *)
Definition fallback (url : string) : Markup :=
  [ElementNode "p" None [TextNode ("Failed to load component: " +:+ url)]].

Definition fetchAndInject (network : string → FetchOutcome) (url placeholderId : string)
    : JS LoaderWorld unit :=
  let* placeholder := gets (λ w, getElementById placeholderId (document w)) in
  match placeholder with
  | None => ret tt
  | Some p =>
      try_catch
        (let* html := fetch_text network url (failure url) in
         modify (with_document (replace_at p html)))
        (λ error,
           modify (console_error
                     [LogText ("Error loading component: " +:+ String_of_Exn error)]) ;;;
           modify (with_document (set_innerHTML p (fallback url))))
  end.

End V5_1.

Module V6Loader.

Local Open Scope js_scope.

(** [new Error(`HTTP ${response.status}: ${response.statusText}`)] *)
Definition failure : N → string → Exn :=
  λ status statusText, Error ("HTTP " +:+ pretty status +:+ ": " +:+ statusText).

Definition fallback : Markup :=
  [ElementNode "div" None [ElementNode "p" None [TextNode "Content temporarily unavailable"]]].

(** [!html] for what [this.cache.get(url)] answers: undefined or empty. *)
Definition falsy (html : option Markup) : bool :=
  match html with
  | None | Some [] => true
  | Some (_ :: _) => false
  end.

(** What the success branch leaves in the document: the first element of the
    markup in the placeholder's place, or, for markup without an element, the
    markup inside the placeholder. *)
Definition inject (p : Path) (html : Markup) (doc : list Node) : list Node :=
  match firstElementChild html with
  | Some newElement => replace_at p [newElement] doc
  | None => set_innerHTML p html doc
  end.

Definition fetchAndInject (network : string → FetchOutcome) (url placeholderId : string)
    : JS LoaderWorld unit :=
  let* placeholder := gets (λ w, getElementById placeholderId (document w)) in
  match placeholder with
  | None => ret tt
  | Some p =>
      try_catch
        (let* cached := gets (λ w, cache w !! url) in
         let* html :=
           (if falsy cached then
              let* html := fetch_text network url failure in
              modify (cache_set url html) ;;;
              ret html
            else ret (default [] cached)) in
         match firstElementChild html with
         | Some newElement => modify (with_document (replace_at p [newElement]))
         | None => modify (with_document (set_innerHTML p html))
         end)
        (λ error,
           modify (console_error
                     [LogText ("Component loading failed for " +:+ url +:+ ":");
                      LogError error]) ;;;
           modify (with_document (set_innerHTML p fallback)))
  end.

End V6Loader.

(** ** Version 5.1: mobileNav *)

Module V5_1Nav.

Record Nav : Type := mkNav {
  toggleButton : option Element;
  navLinksContainer : option Element;
  focusableElements : list Element;
  firstFocusable : option Element;
  lastFocusable : option Element;
}.

Inductive Handler : Type :=
| H_toggleMenu          (* this.toggleMenu.bind(this) *)
| H_handleKeydown.      (* this.handleKeydown.bind(this) *)

Global Instance Handler_eq_dec : EqDecision Handler.
Proof. solve_decision. Defined.

Abbreviation World := (World Nav Handler).

Definition nav0 : Nav := mkNav None None [] None None.
Definition world0 (d : Dom) : World := mkWorld d nav0 [] [] [] false [].

Local Open Scope js_scope.

Definition toggleMenu : JS World unit :=
  let* d := gets dom in
  let '(isExpanded, d') := classList_toggle "mobile-nav-open" d in
  modify (with_dom (λ _, d')) ;;;
  let* t := gets (λ w, toggleButton (nav w)) in
  let* t := deref "this.toggleButton" t in
  modify (with_dom (setAttribute t "aria-expanded" (String_of_bool isExpanded))).

Definition handleKeydown (key : string) (shiftKey : bool) : JS World unit :=
  let* isNavOpen := gets (λ w, classList_contains "mobile-nav-open" (dom w)) in
  if negb isNavOpen then ret tt
  else
    (when bool_decide (key = "Escape") then toggleMenu) ;;;
    when bool_decide (key = "Tab") then
      let* a := gets (λ w, activeElement (dom w)) in
      if shiftKey then
        let* f := gets (λ w, firstFocusable (nav w)) in
        when same_node a f then
          let* l := gets (λ w, lastFocusable (nav w)) in
          let* l := deref "this.lastFocusable" l in
          modify (with_dom (focus l)) ;;;
          modify (set_defaultPrevented true)
      else
        let* l := gets (λ w, lastFocusable (nav w)) in
        when same_node a l then
          let* f := gets (λ w, firstFocusable (nav w)) in
          let* f := deref "this.firstFocusable" f in
          modify (with_dom (focus f)) ;;;
          modify (set_defaultPrevented true).

Definition init (p : Page) : JS World unit :=
  modify (with_nav (λ n, mkNav (q_toggle p) (q_nav p) (focusableElements n)
                               (firstFocusable n) (lastFocusable n))) ;;;
  match q_toggle p, q_nav p with
  | Some t, Some _ =>
      let fs := q_focusable p in
      modify (with_nav (λ n, mkNav (toggleButton n) (navLinksContainer n) fs
                                   (item fs 0) (item fs (Z.of_nat (length fs) - 1)))) ;;;
      modify (addEventListener (OnElement t) click H_toggleMenu) ;;;
      modify (addEventListener OnDocument keydown H_handleKeydown)
  | _, _ => ret tt
  end.

Definition invoke (h : Handler) (ev : Event) : JS World unit :=
  match h with
  | H_toggleMenu => toggleMenu
  | H_handleKeydown =>
      match ev with
      | Keydown key shiftKey => handleKeydown key shiftKey
      | _ => handleKeydown EmptyString false
      end
  end.

Definition dispatch : Event → JS World unit := dispatch invoke.
Definition step : Event → World → World := step invoke.
Definition run : list Event → World → World := run invoke.

(** The page after the script ran [mobileNav.init()]. *)
Definition boot (p : Page) (d : Dom) : World := exec (init p) (world0 d).

Definition isNavOpen (w : World) : bool := classList_contains "mobile-nav-open" (dom w).

Definition bound_listeners (t : Element) : list (Listener Handler) :=
  [mkListener (OnElement t) click H_toggleMenu;
   mkListener OnDocument keydown H_handleKeydown].

(** What a successful [init] establishes and no later call changes. *)
Definition Ready (t n : Element) (fs : list Element) (w : World) : Prop :=
  toggleButton (nav w) = Some t ∧
  navLinksContainer (nav w) = Some n ∧
  focusableElements (nav w) = fs ∧
  firstFocusable (nav w) = head fs ∧
  lastFocusable (nav w) = last fs ∧
  listeners w = bound_listeners t ∧
  frameQueue w = [] ∧
  timers w = [].

End V5_1Nav.

(** ** Version 9.1: the restored mobileNav

    Its keydown listener sits on the toggle itself, so a key reaches it only
    when the toggle is the target of the event. *)

Module V9_1.

Record Elements : Type := mkElements {
  el_toggle : option Element;
  el_nav : option Element;
}.

Record Nav : Type := mkNav {
  elements : option Elements;          (* None: still the empty object *)
  isOpen : bool;
}.

Inductive Handler : Type :=
| H_click               (* () => this.toggle() *)
| H_keydown.            (* e => { if (e.key === 'Enter' || e.key === ' ') ... } *)

Global Instance Handler_eq_dec : EqDecision Handler.
Proof. solve_decision. Defined.

Abbreviation World := (World Nav Handler).

Definition nav0 : Nav := mkNav None false.
Definition world0 (d : Dom) : World := mkWorld d nav0 [] [] [] false [].

Local Open Scope js_scope.

Definition elements_body : JS World unit :=
  let* e := gets (λ w, elements (nav w)) in
  match e with
  | Some _ => ret tt
  | None => throw (TypeError "this.elements.body")
  end.

Definition elements_toggle : JS World Element :=
  let* e := gets (λ w, elements (nav w)) in
  deref "this.elements.toggle" (e ≫= el_toggle).

Definition toggle : JS World unit :=
  modify (with_nav (λ n, mkNav (elements n) (negb (isOpen n)))) ;;;
  elements_body ;;;
  let* o := gets (λ w, isOpen (nav w)) in
  modify (with_dom (classList_toggle_force "mobile-nav-open" o)) ;;;
  let* t := elements_toggle in
  let* o := gets (λ w, isOpen (nav w)) in
  modify (with_dom (setAttribute t "aria-expanded" (String_of_bool o))).

Definition onKeydown (key : string) : JS World unit :=
  when bool_decide (key = "Enter") || bool_decide (key = " ") then
    modify (set_defaultPrevented true) ;;;
    toggle.

Definition bindEvents : JS World unit :=
  let* t := elements_toggle in
  modify (addEventListener (OnElement t) click H_click) ;;;
  let* t := elements_toggle in
  modify (addEventListener (OnElement t) keydown H_keydown).

Definition init (p : Page) : JS World unit :=
  modify (with_nav (λ n, mkNav (Some (mkElements (q_toggle p) (q_nav p))) (isOpen n))) ;;;
  match q_toggle p, q_nav p with
  | Some _, Some _ => bindEvents
  | _, _ => ret tt
  end.

Definition invoke (h : Handler) (ev : Event) : JS World unit :=
  match h with
  | H_click => toggle
  | H_keydown =>
      match ev with
      | Keydown key _ => onKeydown key
      | _ => onKeydown EmptyString
      end
  end.

Definition dispatch : Event → JS World unit := dispatch invoke.
Definition step : Event → World → World := step invoke.






(** The page after the script ran [mobileNav.init()]. *)
Definition boot (p : Page) (d : Dom) : World := exec (init p) (world0 d).

Definition bound_listeners (t : Element) : list (Listener Handler) :=
  [mkListener (OnElement t) click H_click;
   mkListener (OnElement t) keydown H_keydown].

(** What a successful [init] establishes and no later call changes. *)
Definition Ready (t n : Element) (w : World) : Prop :=
  elements (nav w) = Some (mkElements (Some t) (Some n)) ∧
  listeners w = bound_listeners t.

(** The body's open marker and the toggle's expanded attribute spell [isOpen]. *)
Definition Synced (t : Element) (w : World) : Prop :=
  classList_contains "mobile-nav-open" (dom w) = isOpen (nav w) ∧
  getAttribute t "aria-expanded" (dom w) = Some (String_of_bool (isOpen (nav w))).

(** The page a completed [toggle] leaves behind, written out. *)
Definition toggled (t : Element) (w : World) : World :=
  with_dom (λ d, setAttribute t "aria-expanded" (String_of_bool (negb (isOpen (nav w))))
                   (classList_toggle_force "mobile-nav-open" (negb (isOpen (nav w))) d))
    (with_nav (λ x, mkNav (elements x) (negb (isOpen x))) w).

End V9_1.

(** ** Sticky header: the store shared by the embedded revisions

    Scroll offsets and the progress of a scroll trigger are fractional; the
    scripts only compare them. *)

Record HeaderWorld : Type := mkHeaderWorld {
  scrollY : Q;                        (* window.scrollY *)
  headerClass : gset string;          (* header.classList *)
  headerTransform : string;           (* header.style.transform *)
  lastScrollY : Q;                    (* this.lastScrollY (8.0) *)
  isScrolled : bool;                  (* this.isScrolled (8.0) *)
  ticking : bool;                     (* the flag closed over by the scroll listener *)
  listening : bool;                   (* the scroll listener is registered *)
  pendingFrames : nat;                (* requestAnimationFrame callbacks of the module *)
}.

(** [x > y] on numbers. *)
Definition js_gt (x y : Q) : bool := negb (Qle_bool x y).

(** A page at rest, scrolled to [y], before any script ran: the fields of
    the object literal ([lastScrollY: 0], [isScrolled: false]), nothing
    registered, nothing pending. *)
Definition header_world0 (y : Q) (classes : gset string) (transform : string) : HeaderWorld :=
  mkHeaderWorld y classes transform 0 false false false 0.

Definition set_scrollY (y : Q) (w : HeaderWorld) : HeaderWorld :=
  mkHeaderWorld y (headerClass w) (headerTransform w) (lastScrollY w) (isScrolled w)
                (ticking w) (listening w) (pendingFrames w).
Definition set_headerClass (c : gset string) (w : HeaderWorld) : HeaderWorld :=
  mkHeaderWorld (scrollY w) c (headerTransform w) (lastScrollY w) (isScrolled w)
                (ticking w) (listening w) (pendingFrames w).
Definition set_headerTransform (v : string) (w : HeaderWorld) : HeaderWorld :=
  mkHeaderWorld (scrollY w) (headerClass w) v (lastScrollY w) (isScrolled w)
                (ticking w) (listening w) (pendingFrames w).
Definition set_lastScrollY (y : Q) (w : HeaderWorld) : HeaderWorld :=
  mkHeaderWorld (scrollY w) (headerClass w) (headerTransform w) y (isScrolled w)
                (ticking w) (listening w) (pendingFrames w).
Definition set_isScrolled (b : bool) (w : HeaderWorld) : HeaderWorld :=
  mkHeaderWorld (scrollY w) (headerClass w) (headerTransform w) (lastScrollY w) b
                (ticking w) (listening w) (pendingFrames w).
Definition set_ticking (b : bool) (w : HeaderWorld) : HeaderWorld :=
  mkHeaderWorld (scrollY w) (headerClass w) (headerTransform w) (lastScrollY w) (isScrolled w)
                b (listening w) (pendingFrames w).
Definition set_listening (b : bool) (w : HeaderWorld) : HeaderWorld :=
  mkHeaderWorld (scrollY w) (headerClass w) (headerTransform w) (lastScrollY w) (isScrolled w)
                (ticking w) b (pendingFrames w).
Definition set_pendingFrames (k : nat) (w : HeaderWorld) : HeaderWorld :=
  mkHeaderWorld (scrollY w) (headerClass w) (headerTransform w) (lastScrollY w) (isScrolled w)
                (ticking w) (listening w) k.

(** [header.classList.toggle(c, force)] *)
Definition header_toggle_force (c : string) (force : bool) (w : HeaderWorld) : HeaderWorld :=
  set_headerClass (if force then {[c]} ∪ headerClass w else headerClass w ∖ {[c]}) w.

(** What the browser and the scroll trigger deliver to a header module. *)
Inductive HeaderEvent : Type :=
| Scroll (y : Q)                 (* the page is now scrolled to [y] *)
| Frame                          (* the next paint frame *)
| Update (progress : Q).         (* ScrollTrigger's onUpdate, with self.progress *)

(** The scroll listener both revisions register: at most one frame callback
    is requested until it has run. *)
Definition onScroll (w : HeaderWorld) : HeaderWorld :=
  if ticking w then w
  else set_ticking true (set_pendingFrames (S (pendingFrames w)) w).

(** A frame: the callbacks requested so far run, in order. *)
Definition run_frame (callback : HeaderWorld → HeaderWorld) (w : HeaderWorld) : HeaderWorld :=
  Nat.iter (pendingFrames w) callback (set_pendingFrames 0 w).

(** *** Professional Edition 1.0: stickyHeader *)

Module Pro1Header.

(** [CONFIG.header.scrolledClass] and [CONFIG.header.scrollThreshold] *)
Definition scrolledClass : string := "is-scrolled".
Definition scrollThreshold : Q := 10.

Definition updateHeaderState (w : HeaderWorld) : HeaderWorld :=
  header_toggle_force scrolledClass (js_gt (scrollY w) scrollThreshold) w.

(** [() => { this.updateHeaderState(); ticking = false; }] *)
Definition frame_callback (w : HeaderWorld) : HeaderWorld :=
  set_ticking false (updateHeaderState w).

(** [init], [found] telling whether the page has a '.main-header'. *)
Definition init (found : bool) (w : HeaderWorld) : HeaderWorld :=
  if negb found then w
  else updateHeaderState (set_listening true (set_ticking false w)).

Definition step (ev : HeaderEvent) (w : HeaderWorld) : HeaderWorld :=
  match ev with
  | Scroll y => let w := set_scrollY y w in if listening w then onScroll w else w
  | Frame => run_frame frame_callback w
  | Update _ => w
  end.

Definition run (evs : list HeaderEvent) (w : HeaderWorld) : HeaderWorld :=
  foldl (λ w ev, step ev w) w evs.

(** The throttle: a callback is pending exactly while the flag is up. *)
Definition Throttled (w : HeaderWorld) : Prop :=
  pendingFrames w = (if ticking w then 1%nat else 0%nat).

End Pro1Header.

(** *** Version 8.0: stickyHeader *)

Module V8Header.

(** The [onUpdate] handed to [ScrollTrigger.create]. *)
Definition onUpdate (progress : Q) (w : HeaderWorld) : HeaderWorld :=
  let shouldBeScrolled := js_gt progress 0 in
  if negb (eqb shouldBeScrolled (isScrolled w))
  then header_toggle_force "is-scrolled" shouldBeScrolled (set_isScrolled shouldBeScrolled w)
  else w.

(** The frame callback of [addSmartScroll]. *)
Definition frame_callback (w : HeaderWorld) : HeaderWorld :=
  let currentScrollY := scrollY w in
  let scrollingDown := js_gt currentScrollY (lastScrollY w) in
  let scrolledEnough := js_gt currentScrollY 200 in
  let w := if scrolledEnough && scrollingDown
           then set_headerTransform "translateY(-100%)" w
           else set_headerTransform "translateY(0)" w in
  set_ticking false (set_lastScrollY currentScrollY w).

(** [init], [found] telling whether the page has a '.main-header'. *)
Definition init (found : bool) (w : HeaderWorld) : HeaderWorld :=
  if negb found then w else set_listening true (set_ticking false w).

Definition step (ev : HeaderEvent) (w : HeaderWorld) : HeaderWorld :=
  match ev with
  | Scroll y => let w := set_scrollY y w in if listening w then onScroll w else w
  | Frame => run_frame frame_callback w
  | Update progress => if listening w then onUpdate progress w else w
  end.

Definition run (evs : list HeaderEvent) (w : HeaderWorld) : HeaderWorld :=
  foldl (λ w ev, step ev w) w evs.

(** The throttle: a callback is pending exactly while the flag is up. *)
Definition Throttled (w : HeaderWorld) : Prop :=
  pendingFrames w = (if ticking w then 1%nat else 0%nat).

(** The scrolled class follows the cached flag. *)
Definition ClassCached (w : HeaderWorld) : Prop :=
  bool_decide ("is-scrolled" ∈ headerClass w) = isScrolled w.

End V8Header.

(** ** A sample page

    A header holding the trigger and the panel with three links, and some
    content outside the header, on a phone-sized viewport. *)
Module Sample.

Definition toggle : Element := 1%nat.
Definition panel : Element := 2%nat.
Definition header : Element := 3%nat.
Definition content : Element := 4%nat.
Definition link_a : Element := 10%nat.
Definition link_b : Element := 11%nat.
Definition link_c : Element := 12%nat.

Definition page : Page := mkPage (Some toggle) (Some panel) [link_a; link_b; link_c].
Definition page_without_panel : Page := mkPage (Some toggle) None [].
Definition page_without_links : Page := mkPage (Some toggle) (Some panel) [].

(** Markup and style sheet under which every element can take focus. *)
Definition all_focusable : gset string → Z → Element → bool := λ _ _ _, true.

Definition dom0 : Dom := mkDom ∅ ∅ None 375 EmptyString all_focusable.

(** The same page with its first link replaced by a disabled button: the
    selectors still match it, and it cannot take focus. *)
Definition first_disabled : gset string → Z → Element → bool :=
  λ _ _ e, negb (Nat.eqb e link_a).
Definition dom_first_disabled : Dom := mkDom ∅ ∅ None 375 EmptyString first_disabled.


Definition on_trigger : list Element := [toggle; header].
Definition on_link_b : list Element := [link_b; panel; header].
Definition on_content : list Element := [content].

(** A component file with two top-level elements, and the page awaiting it. *)
Definition two_roots : Markup :=
  [ElementNode "header" None [TextNode "Elite Install"]; ElementNode "nav" None []].
Definition placeholder_page : LoaderWorld :=
  mkLoaderWorld [ElementNode "div" (Some "header-placeholder") []; ElementNode "main" None []]
                ∅ [].
Definition serves (html : Markup) : string → FetchOutcome :=
  λ _, Response 200 "OK" (Text html).
Definition offline : string → FetchOutcome := λ _, Rejected (TypeError "Failed to fetch").
Definition not_found : string → FetchOutcome := λ _, Response 404 "Not Found" (Text []).

(** The placeholder inside the page's header, after a section that holds
    nothing of interest. *)
Definition nested_page : LoaderWorld :=
  mkLoaderWorld [ElementNode "section" None [TextNode "intro"];
                 ElementNode "header" None
                   [TextNode "top"; ElementNode "div" (Some "header-placeholder") []];
                 ElementNode "main" None []]
                ∅ [].

(** Two placeholders awaiting the same component file. *)
Definition badge : Markup := [ElementNode "span" None []].
Definition two_placeholders : LoaderWorld :=
  mkLoaderWorld [ElementNode "div" (Some "first") []; ElementNode "div" (Some "second") []]
                ∅ [].

(** Two elements to reveal, motion reduced. *)
Definition reveal_page : RevealPage := mkRevealPage true [20%nat; 21%nat] (λ _, None).
Definition reveal_world0 : RevealWorld := mkRevealWorld ∅ ∅ 0 [] [].

(** The same two elements, motion allowed; the first carries data-delay="150". *)
Definition scrolling_page : RevealPage :=
  mkRevealPage false [20%nat; 21%nat] (λ el, if decide (el = 20%nat) then Some "150" else None).

(** A page loaded scrolled to 350, its header marked by the markup. *)
Definition scrolled_header : HeaderWorld := header_world0 350 {["main-header"]} EmptyString.

End Sample.

(** The events that ask an open panel to close: a key, a click that does
    not go through the trigger, a resize. *)
Definition close_request (t : Element) (ev : Event) : Prop :=
  match ev with
  | Keydown _ _ | Resize _ => True
  | Click path => t ∉ path
  | AnimationFrame | TimerFires _ => False
  end.

(** * Properties *)

(** ** Focus *)

Lemma can_focus_focus e e' d : can_focus e (focus e' d) = can_focus e d.
Proof. reflexivity. Qed.

Lemma activeElement_focus e d :
  activeElement (focus e d) = if can_focus e d then Some e else activeElement d.
Proof. reflexivity. Qed.

Lemma focus_idem e d : focus e (focus e d) = focus e d.
Proof.
  unfold focus at 1 3. rewrite can_focus_focus. simpl.
  destruct (can_focus e d); reflexivity.
Qed.

(** ** Loops, callbacks and dispatch keep what every callback keeps *)

Section MonadFacts.
Context {S : Type}.

Lemma forEach_app {A} (xs ys : list A) (f : A → JS S unit) (s : S) :
  forEach (xs ++ ys) f s = bind (forEach xs f) (λ _, forEach ys f) s.
Proof.
  revert s. induction xs as [|x xs IH]; intros s; simpl.
  - reflexivity.
  - unfold bind in *. destruct (f x s) as [[[]|e] s']; [|reflexivity].
    apply IH.
Qed.

(** A loop whose body always returns normally and keeps [I] does so too. *)
Lemma forEach_preserves {A} (I : S → Prop) (xs : list A) (f : A → JS S unit) :
  (∀ x s, I s → ∃ s', f x s = (Normal tt, s') ∧ I s') →
  ∀ s, I s → ∃ s', forEach xs f s = (Normal tt, s') ∧ I s'.
Proof.
  intros Hf. induction xs as [|x xs IH]; intros s Hs; simpl.
  - exists s. split; [reflexivity | assumption].
  - destruct (Hf x s Hs) as (s1 & E1 & H1).
    unfold bind. rewrite E1. apply IH, H1.
Qed.

Lemma forEach_nil_like {A} (xs : list A) (f : A → JS S unit) (s : S) :
  (∀ x s, f x s = (Normal tt, s)) → forEach xs f s = (Normal tt, s).
Proof.
  intros Hf. induction xs as [|x xs IH]; simpl; [reflexivity|].
  unfold bind. rewrite Hf. exact IH.
Qed.
(** A loop whose body leaves the store [s] as it is, leaves it as it is. *)
Lemma forEach_fixed {A} (xs : list A) (f : A → JS S unit) (s : S) :
  (∀ x, x ∈ xs → f x s = (Normal tt, s)) → forEach xs f s = (Normal tt, s).
Proof.
  induction xs as [|x xs IH]; intros Hf; simpl; [reflexivity|].
  unfold bind. rewrite Hf by (left). apply IH. intros y Hy. apply Hf. right. exact Hy.
Qed.
End MonadFacts.

(** The dispatch of each kind of event, after the event's flag is reset. *)
Section DispatchEquations.
Context {N H : Type} `{EqDecision H}.
Variable invoke : H → Event → JS (World N H) unit.

Lemma dispatch_Click path w :
  dispatch invoke (Click path) w =
    bind (forEach path (λ e, fire invoke (OnElement e) click (Click path))) (λ _,
    bind (fire invoke OnDocument click (Click path)) (λ _,
    fire invoke OnWindow click (Click path)))
    (set_defaultPrevented false w).
Proof. reflexivity. Qed.

Lemma dispatch_Keydown k s w :
  dispatch invoke (Keydown k s) w =
    bind (fire invoke OnDocument keydown (Keydown k s)) (λ _,
    fire invoke OnWindow keydown (Keydown k s))
    (set_defaultPrevented false w).
Proof. reflexivity. Qed.

Lemma dispatch_Resize x w :
  dispatch invoke (Resize x) w =
    fire invoke OnWindow resize (Resize x)
         (with_dom (set_innerWidth x) (set_defaultPrevented false w)).
Proof. reflexivity. Qed.

Lemma dispatch_AnimationFrame w :
  dispatch invoke AnimationFrame w =
    forEach (frameQueue w) (λ h, run_callback invoke h AnimationFrame)
            (set_frameQueue [] (set_defaultPrevented false w)).
Proof. reflexivity. Qed.

Lemma dispatch_TimerFires i w :
  dispatch invoke (TimerFires i) w =
    match timers w !! i with
    | Some (h, ev') =>
        run_callback invoke h ev'
          (set_timers (delete i (timers w)) (set_defaultPrevented false w))
    | None => (Normal tt, set_defaultPrevented false w)
    end.
Proof.
  unfold dispatch, bind, modify, gets. simpl.
  destruct (timers w !! i) as [[h ev']|]; reflexivity.
Qed.

(** With nothing registered, queued or pending, an event leaves the store
    to the browser's own changes. *)
Lemma inert_step ev w :
  listeners w = [] → frameQueue w = [] → timers w = [] →
  step invoke ev w =
    match ev with
    | Resize x => with_dom (set_innerWidth x) (set_defaultPrevented false w)
    | _ => set_defaultPrevented false w
    end.
Proof.
  intros Hl Hf Ht.
  assert (Hfire : ∀ t ty e (v : World N H), listeners v = [] → fire invoke t ty e v = (Normal tt, v)).
  { intros t ty e v Hv. unfold fire, bind, gets, listeners_on. rewrite Hv. reflexivity. }
  unfold step, exec. destruct ev as [path|k s|x| |i].
  - rewrite dispatch_Click. unfold bind.
    rewrite forEach_fixed by (intros; apply Hfire; exact Hl).
    rewrite !Hfire by exact Hl. reflexivity.
  - rewrite dispatch_Keydown. unfold bind. rewrite !Hfire by exact Hl. reflexivity.
  - rewrite dispatch_Resize, Hfire by exact Hl. reflexivity.
  - rewrite dispatch_AnimationFrame, Hf. simpl.
    destruct w; simpl in *; subst; reflexivity.
  - rewrite dispatch_TimerFires, Ht. reflexivity.
Qed.

Lemma inert_run evs w :
  listeners w = [] → frameQueue w = [] → timers w = [] →
  quiet w (run invoke evs w) ∧
  listeners (run invoke evs w) = [] ∧
  frameQueue (run invoke evs w) = [] ∧
  timers (run invoke evs w) = [] ∧
  console (run invoke evs w) = console w.
Proof.
  revert w. induction evs as [|ev evs IH]; intros w Hl Hf Ht.
  - repeat split; assumption.
  - change (run invoke (ev :: evs) w) with (run invoke evs (step invoke ev w)).
    rewrite (inert_step ev w Hl Hf Ht).
    destruct ev;
      match goal with
      | |- context [run invoke evs ?v] =>
          destruct (IH v Hl Hf Ht) as ((? & ? & ? & ?) & ? & ? & ? & ?)
      end;
      unfold quiet; simpl in *; repeat split; assumption.
Qed.

Lemma run_app evs1 evs2 (w : World N H) :
  run invoke (evs1 ++ evs2) w = run invoke evs2 (run invoke evs1 w).
Proof. unfold run. apply foldl_app. Qed.

Lemma run_snoc evs ev (w : World N H) :
  run invoke (evs ++ [ev]) w = step invoke ev (run invoke evs w).
Proof. rewrite run_app. reflexivity. Qed.
End DispatchEquations.

Section BrowserFacts.
Context {N H : Type} `{EqDecision H}.
Variable invoke : H → Event → JS (World N H) unit.
Variable I : World N H → Prop.

Hypothesis invoke_keeps : ∀ h ev w, I w → I (exec (invoke h ev) w).
Hypothesis console_keeps : ∀ msg w, I w → I (console_log msg w).
Hypothesis prevented_keeps : ∀ b w, I w → I (set_defaultPrevented b w).
Hypothesis width_keeps : ∀ x w, I w → I (with_dom (set_innerWidth x) w).
Hypothesis frames_keeps : ∀ w, I w → I (set_frameQueue [] w).
Hypothesis timers_keeps : ∀ i w, I w → I (set_timers (delete i (timers w)) w).

Lemma run_callback_keeps h ev w :
  I w → ∃ w', run_callback invoke h ev w = (Normal tt, w') ∧ I w'.
Proof.
  intros Hw. unfold run_callback, try_catch.
  pose proof (invoke_keeps h ev w Hw) as Hk. unfold exec in Hk.
  destruct (invoke h ev w) as [[[]|e] w']; simpl in Hk.
  - eauto.
  - eexists. split; [reflexivity|]. apply console_keeps, Hk.
Qed.

Lemma fire_keeps t ty ev w :
  I w → ∃ w', fire invoke t ty ev w = (Normal tt, w') ∧ I w'.
Proof.
  intros Hw. unfold fire, bind, gets.
  apply forEach_preserves; [|assumption].
  intros l s Hs. apply run_callback_keeps, Hs.
Qed.

Lemma dispatch_keeps ev w :
  I w → ∃ w', dispatch invoke ev w = (Normal tt, w') ∧ I w'.
Proof.
  intros Hw. unfold dispatch. unfold bind at 1. unfold modify at 1.
  pose proof (prevented_keeps false w Hw) as H0.
  destruct ev as [path|k s|x| |i].
  - unfold bind at 1.
    destruct (forEach_preserves I path (λ e, fire invoke (OnElement e) click (Click path))
                (λ e s, fire_keeps _ _ _ s) _ H0) as (w1 & E1 & H1).
    rewrite E1. unfold bind at 1.
    destruct (fire_keeps OnDocument click (Click path) w1 H1) as (w2 & E2 & H2).
    rewrite E2. apply fire_keeps, H2.
  - unfold bind at 1.
    destruct (fire_keeps OnDocument keydown (Keydown k s) _ H0) as (w1 & E1 & H1).
    rewrite E1. apply fire_keeps, H1.
  - unfold bind at 1, modify at 1. apply fire_keeps, width_keeps, H0.
  - unfold bind at 1, gets at 1. unfold bind at 1, modify at 1.
    apply forEach_preserves; [|apply frames_keeps, H0].
    intros h s Hs. apply run_callback_keeps, Hs.
  - unfold bind at 1, gets at 1. simpl.
    destruct (timers w !! i) as [[h ev']|]; [|eexists; split; [reflexivity|exact H0]].
    unfold bind at 1, modify at 1.
    apply run_callback_keeps. exact (timers_keeps i (set_defaultPrevented false w) H0).
Qed.

Lemma step_keeps ev w : I w → I (step invoke ev w).
Proof.
  intros Hw. destruct (dispatch_keeps ev w Hw) as (w' & E & H').
  unfold step, exec. rewrite E. exact H'.
Qed.

Lemma run_keeps evs w : I w → I (run invoke evs w).
Proof.
  revert w. induction evs as [|ev evs IH]; intros w Hw; simpl; [assumption|].
  apply IH, step_keeps, Hw.
Qed.
End BrowserFacts.
(** Case analysis on whatever a computation branches on. *)
Ltac crunch :=
  repeat (simpl;
          match goal with
          | |- context [if ?b then _ else _] => destruct b eqn:?
          | |- context [match ?x with _ => _ end] => is_var x; destruct x eqn:?
          end);
  simpl.

Lemma item_head (fs : list Element) : item fs 0 = head fs.
Proof. unfold item. simpl. destruct fs; reflexivity. Qed.

Lemma item_last (fs : list Element) : item fs (Z.of_nat (length fs) - 1) = last fs.
Proof.
  unfold item. destruct fs as [|x fs]; [reflexivity|].
  case_decide; [|simpl in *; lia].
  replace (Z.to_nat (Z.of_nat (length (x :: fs)) - 1)) with (length fs) by (simpl; lia).
  rewrite last_lookup. reflexivity.
Qed.

Lemma head_last_some (fs : list Element) : is_Some (head fs) ↔ is_Some (last fs).
Proof.
  destruct fs as [|x fs]; simpl.
  - split; intros [? ?]; discriminate.
  - split; intros _; [|eauto]. rewrite last_cons. destruct (last fs); eauto.
Qed.

Lemma filter_none {A} (P : A → Prop) `{∀ x, Decision (P x)} (l : list A) :
  (∀ x, x ∈ l → ¬ P x) → filter P l = [].
Proof.
  intros Hn. induction l as [|x l IH]; [reflexivity|].
  rewrite filter_cons_False by (apply Hn; left).
  apply IH. intros y Hy. apply Hn. right. exact Hy.
Qed.

Lemma filter_some {A} (P : A → Prop) `{∀ x, Decision (P x)} (l : list A) (x : A) :
  x ∈ l → P x → filter P l ≠ [].
Proof.
  intros Hin HP E. assert (Hx : x ∈ filter P l) by (apply list_elem_of_filter; auto).
  rewrite E in Hx. inversion Hx.
Qed.

(** ** Two runs side by side

    If every callback takes related stores to related stores, and related
    stores have the same registrations, frame callbacks and timers, then so
    does the dispatch of any event. *)
Section Relational.
Context {N H : Type} `{EqDecision H}.
Variable invoke : H → Event → JS (World N H) unit.
Variable R : World N H → World N H → Prop.

Hypothesis R_listeners : ∀ w w', R w w' → listeners w = listeners w'.
Hypothesis R_frameQueue : ∀ w w', R w w' → frameQueue w = frameQueue w'.
Hypothesis R_timers : ∀ w w', R w w' → timers w = timers w'.
Hypothesis invoke_rel : ∀ h ev w w', R w w' →
  ∃ v v', invoke h ev w = (Normal tt, v) ∧ invoke h ev w' = (Normal tt, v') ∧ R v v'.
Hypothesis prevented_rel : ∀ b w w', R w w' →
  R (set_defaultPrevented b w) (set_defaultPrevented b w').
Hypothesis width_rel : ∀ x w w', R w w' →
  R (with_dom (set_innerWidth x) w) (with_dom (set_innerWidth x) w').
Hypothesis frames_rel : ∀ q w w', R w w' → R (set_frameQueue q w) (set_frameQueue q w').
Hypothesis timers_rel : ∀ ts w w', R w w' → R (set_timers ts w) (set_timers ts w').





End Relational.

(** ** The listeners of a panel

    Versions 6.0 and 8.0 register the same five kinds of listeners in the
    same order; which of them a target has does not depend on what they do. *)
Section PanelListeners.
Context {N H : Type}.
Variables (on_toggle on_keydown on_doc_click on_link on_resize : H).
Variables (t : Element) (fs : list Element) (w : World N H).

Hypothesis bound :
  listeners w =
    [mkListener (OnElement t) click on_toggle;
     mkListener OnDocument keydown on_keydown;
     mkListener OnDocument click on_doc_click]
    ++ ((λ link, mkListener (OnElement link) click on_link) <$> fs)
    ++ [mkListener OnWindow resize on_resize].

Lemma links_on_other (tgt : Target) (ty : EventType) (ls : list Element) :
  (∀ e, tgt ≠ OnElement e) →
  filter (λ l, l_target l = tgt ∧ l_type l = ty)
         ((λ link, mkListener (OnElement link) click on_link) <$> ls) = [].
Proof.
  intros Hne. induction ls as [|x ls IH]; [reflexivity|].
  rewrite fmap_cons, filter_cons_False; [exact IH|].
  simpl. intros [E _]. exact (Hne x (eq_sym E)).
Qed.

Lemma links_on_element (e : Element) (ls : list Element) :
  filter (λ l, l_target l = OnElement e ∧ l_type l = click)
         ((λ link, mkListener (OnElement link) click on_link) <$> ls)
  = (λ link, mkListener (OnElement link) click on_link) <$> filter (λ x, x = e) ls.
Proof.
  induction ls as [|x ls IH]; [reflexivity|].
  rewrite fmap_cons. destruct (decide (x = e)) as [->|Hne].
  - rewrite !filter_cons_True by (simpl; auto). rewrite fmap_cons, IH. reflexivity.
  - rewrite !filter_cons_False; [exact IH | exact Hne | simpl; intros [E _]; congruence].
Qed.

Lemma panel_listeners_on_element e :
  listeners_on (OnElement e) click w =
    (if decide (e = t) then [mkListener (OnElement t) click on_toggle] else [])
    ++ ((λ link, mkListener (OnElement link) click on_link) <$> filter (λ x, x = e) fs).
Proof.
  unfold listeners_on. rewrite bound.
  rewrite !filter_app, links_on_element.
  rewrite (filter_cons_False _ (mkListener OnWindow _ _)) by (simpl; intros [? _]; discriminate).
  rewrite filter_nil, app_nil_r. f_equal.
  destruct (decide (e = t)) as [->|Hne].
  - rewrite filter_cons_True by (simpl; auto).
    rewrite !filter_cons_False by (simpl; intros [? _]; discriminate). reflexivity.
  - rewrite !filter_cons_False; [reflexivity | | |];
      simpl; intros [? _]; try discriminate; congruence.
Qed.

Lemma panel_listeners_on_document_click :
  listeners_on OnDocument click w = [mkListener OnDocument click on_doc_click].
Proof.
  unfold listeners_on. rewrite bound.
  rewrite !filter_app, links_on_other by discriminate.
  rewrite filter_cons_False by (simpl; intros [? _]; discriminate).
  rewrite filter_cons_False by (simpl; intros [_ ?]; discriminate).
  rewrite filter_cons_True by (simpl; auto).
  rewrite filter_cons_False by (simpl; intros [? _]; discriminate).
  reflexivity.
Qed.

Lemma panel_listeners_on_document_keydown :
  listeners_on OnDocument keydown w = [mkListener OnDocument keydown on_keydown].
Proof.
  unfold listeners_on. rewrite bound.
  rewrite !filter_app, links_on_other by discriminate.
  rewrite filter_cons_False by (simpl; intros [? _]; discriminate).
  rewrite filter_cons_True by (simpl; auto).
  rewrite filter_cons_False by (simpl; intros [_ ?]; discriminate).
  rewrite filter_cons_False by (simpl; intros [? _]; discriminate).
  reflexivity.
Qed.

Lemma panel_listeners_on_window ty :
  listeners_on OnWindow ty w =
    if decide (ty = resize) then [mkListener OnWindow resize on_resize] else [].
Proof.
  unfold listeners_on. rewrite bound.
  rewrite !filter_app, links_on_other by discriminate.
  rewrite !filter_cons_False by (simpl; intros [? _]; discriminate).
  simpl. destruct (decide (ty = resize)) as [->|Hne].
  - rewrite filter_cons_True by (simpl; auto). reflexivity.
  - rewrite filter_cons_False by (simpl; intros [_ ?]; congruence). reflexivity.
Qed.
End PanelListeners.

Module V6Facts.
Import V6.

Ltac open_world w :=
  let d := fresh "d" in let el := fresh "el" in let o := fresh "o" in
  let fe := fresh "fe" in let ff := fresh "ff" in let lf := fresh "lf" in
  let ls := fresh "ls" in let fq := fresh "fq" in let ts := fresh "ts" in
  let dp := fresh "dp" in let cs := fresh "cs" in
  destruct w as [d [el o fe ff lf] ls fq ts dp cs].

Ltac use_ready HR :=
  let He := fresh in let Hf := fresh in let Hff := fresh in
  let Hlf := fresh in let Hl := fresh in
  destruct HR as (He & Hf & Hff & Hlf & Hl); simpl in He, Hf, Hff, Hlf, Hl; subst.

Section Ready.
Variables (t n : Element) (fs : list Element).

Lemma v6_closeMenu_ready w :
  Ready t n fs w →
  closeMenu w =
    (Normal tt,
     mkWorld (focus t (setAttribute n "aria-hidden" "true"
                (setAttribute t "aria-expanded" "false"
                   (classList_remove "mobile-nav-open" (dom w)))))
             (set_isOpen false (nav w)) (listeners w) (frameQueue w) (timers w)
             (defaultPrevented w) (console w)).
Proof. intros HR. open_world w. use_ready HR. reflexivity. Qed.

Lemma v6_openMenu_ready w :
  Ready t n fs w →
  openMenu w =
    (Normal tt,
     mkWorld (setAttribute n "aria-hidden" "false"
                (setAttribute t "aria-expanded" "true"
                   (classList_add "mobile-nav-open" (dom w))))
             (set_isOpen true (nav w)) (listeners w) (frameQueue w ++ [H_focusFirst])
             (timers w) (defaultPrevented w) (console w)).
Proof. intros HR. open_world w. use_ready HR. reflexivity. Qed.

Local Abbreviation I := (Ready t n fs).

Lemma v6_expanded_after_set (d : Dom) (v : string) (m : Element) (h v' : string) :
  h ≠ "aria-expanded" →
  getAttribute t "aria-expanded" (setAttribute m h v' (setAttribute t "aria-expanded" v d)) = Some v.
Proof.
  intros Hne. unfold getAttribute, setAttribute. simpl.
  rewrite lookup_insert_ne by congruence. apply lookup_insert_eq.
Qed.

Lemma v6_closeMenu_keeps w :
  I w → ∃ w', closeMenu w = (Normal tt, w') ∧ I w' ∧ isOpen (nav w') = false.
Proof.
  intros HR. rewrite (v6_closeMenu_ready w HR). eexists. split; [reflexivity|].
  open_world w. use_ready HR. repeat split.
Qed.

Lemma v6_openMenu_keeps w :
  I w → ∃ w', openMenu w = (Normal tt, w') ∧ I w' ∧ isOpen (nav w') = true.
Proof.
  intros HR. rewrite (v6_openMenu_ready w HR). eexists. split; [reflexivity|].
  open_world w. use_ready HR. repeat split.
Qed.

Lemma v6_I_focus e w : I w → I (with_dom (focus e) w).
Proof. intros HR. exact HR. Qed.

Lemma v6_I_prevented b w : I w → I (set_defaultPrevented b w).
Proof. intros HR. exact HR. Qed.

Lemma v6_handleTabNavigation_keeps s w :
  I w → ∃ w', handleTabNavigation s w = (Normal tt, w') ∧ I w' ∧ isOpen (nav w') = isOpen (nav w).
Proof.
  intros HI. pose proof HI as HR.
  unfold handleTabNavigation, bind, gets.
  destruct HR as (_ & _ & Hff & Hlf & _).
  destruct s; cbn beta iota.
  - rewrite Hff. destruct (same_node _ _) eqn:E; [|eauto].
    cbn beta iota. rewrite Hlf.
    destruct (last fs) as [l|] eqn:El; simpl.
    + eexists. split; [reflexivity|]. split; [|reflexivity].
      apply v6_I_prevented, v6_I_focus, HI.
    + exfalso. unfold same_node in E.
      destruct (activeElement (dom w)); [|discriminate].
      destruct (head fs) eqn:Eh; [|discriminate].
      assert (is_Some (last fs)) as [? ?] by (apply head_last_some; eauto). congruence.
  - rewrite Hlf. destruct (same_node _ _) eqn:E; [|eauto].
    cbn beta iota. rewrite Hff.
    destruct (head fs) as [f|] eqn:Eh; simpl.
    + eexists. split; [reflexivity|]. split; [|reflexivity].
      apply v6_I_prevented, v6_I_focus, HI.
    + exfalso. unfold same_node in E.
      destruct (activeElement (dom w)); [|discriminate].
      destruct (last fs) eqn:El; [|discriminate].
      assert (is_Some (head fs)) as [? ?] by (apply head_last_some; eauto). congruence.
Qed.

Lemma v6_handleKeydown_keeps k s w :
  I w → ∃ w', handleKeydown k s w = (Normal tt, w') ∧ I w'.
Proof.
  intros HI. unfold handleKeydown, bind, gets.
  destruct (isOpen (nav w)); simpl; [|eauto].
  case_bool_decide.
  - destruct (v6_closeMenu_keeps w HI) as (w' & ? & ? & _); eauto.
  - case_bool_decide; [|eauto].
    destruct (v6_handleTabNavigation_keeps s w HI) as (w' & ? & ? & _); eauto.
Qed.

Lemma v6_outsideClick_keeps path w :
  I w → ∃ w', outsideClick path w = (Normal tt, w') ∧ I w'.
Proof.
  intros HI. unfold outsideClick, bind, gets.
  destruct (isOpen (nav w)); simpl; [|eauto].
  pose proof HI as (He & _).
  unfold elements_navContainer, elements_toggleButton, bind, gets. rewrite He. simpl.
  destruct (on_path n path); [by eauto|].
  rewrite He. simpl.
  destruct (on_path t path); [by eauto|].
  destruct (v6_closeMenu_keeps w HI) as (w' & ? & ? & _); by eauto.
Qed.

Lemma v6_invoke_keeps h ev w : I w → ∃ w', invoke h ev w = (Normal tt, w') ∧ I w'.
Proof.
  intros HI.
  assert (Hclose : ∃ w', closeMenu w = (Normal tt, w') ∧ I w')
    by (destruct (v6_closeMenu_keeps w HI) as (w' & ? & ? & _); eauto).
  assert (Hopen : ∃ w', openMenu w = (Normal tt, w') ∧ I w')
    by (destruct (v6_openMenu_keeps w HI) as (w' & ? & ? & _); eauto).
  destruct h; simpl.
  - unfold toggleMenu, bind, gets. destruct (isOpen (nav w)); assumption.
  - destruct ev; apply v6_handleKeydown_keeps, HI.
  - destruct ev; apply v6_outsideClick_keeps, HI.
  - unfold linkClick, bind, gets. destruct (isOpen (nav w)); [assumption|eauto].
  - unfold handleResize, bind, gets. destruct (_ && _); [assumption|eauto].
  - unfold focusFirst, bind, gets. destruct (firstFocusable (nav w)); [|eauto].
    eexists. split; [reflexivity|]. apply v6_I_focus, HI.
Qed.

Lemma v6_run_callback_ready h ev w : I w → run_callback invoke h ev w = invoke h ev w.
Proof.
  intros HI. destruct (v6_invoke_keeps h ev w HI) as (w' & E & _).
  unfold run_callback, try_catch. rewrite E. reflexivity.
Qed.

(** Which listeners a target has, as [bindEvents] registered them. *)
Lemma v6_listeners_on_element e w :
  Ready t n fs w →
  listeners_on (OnElement e) click w =
    (if decide (e = t) then [mkListener (OnElement t) click H_toggleMenu] else [])
    ++ ((λ link, mkListener (OnElement link) click H_linkClick) <$> filter (λ x, x = e) fs).
Proof. intros (_ & _ & _ & _ & Hl). exact (panel_listeners_on_element _ _ _ _ _ t fs w Hl e). Qed.

Lemma v6_listeners_on_document_click w :
  Ready t n fs w → listeners_on OnDocument click w = [mkListener OnDocument click H_outsideClick].
Proof. intros (_ & _ & _ & _ & Hl). exact (panel_listeners_on_document_click _ _ _ _ _ t fs w Hl). Qed.

Lemma v6_listeners_on_document_keydown w :
  Ready t n fs w →
  listeners_on OnDocument keydown w = [mkListener OnDocument keydown H_handleKeydown].
Proof. intros (_ & _ & _ & _ & Hl). exact (panel_listeners_on_document_keydown _ _ _ _ _ t fs w Hl). Qed.

Lemma v6_listeners_on_window ty w :
  Ready t n fs w →
  listeners_on OnWindow ty w =
    if decide (ty = resize) then [mkListener OnWindow resize H_handleResize] else [].
Proof. intros (_ & _ & _ & _ & Hl). exact (panel_listeners_on_window _ _ _ _ _ t fs w Hl ty). Qed.

End Ready.

Lemma v6_bind_links (ls : list Element) (w : World) :
  forEach ls (λ link, modify (addEventListener (OnElement link) click H_linkClick)) w =
    (Normal tt,
     mkWorld (dom w) (nav w)
             (listeners w ++ ((λ link, mkListener (OnElement link) click H_linkClick) <$> ls))
             (frameQueue w) (timers w) (defaultPrevented w) (console w)).
Proof.
  revert w. induction ls as [|x ls IH]; intros w; simpl.
  - rewrite app_nil_r. destruct w; reflexivity.
  - unfold bind, modify. rewrite IH. simpl. rewrite <- app_assoc. reflexivity.
Qed.

Lemma v6_boot_ready p d t n :
  q_toggle p = Some t → q_nav p = Some n →
  init p (world0 d) = (Normal tt, boot p d) ∧
  Inv t n (q_focusable p) (boot p d) ∧
  isOpen (nav (boot p d)) = false.
Proof.
  intros Ht Hn. unfold boot, exec, init. rewrite Ht, Hn.
  unfold bindEvents, setupAccessibility, elements_toggleButton, elements_navContainer.
  unfold bind, gets. simpl.
  rewrite v6_bind_links. simpl.
  rewrite item_head, item_last.
  split; [reflexivity|]. split; [|reflexivity].
  split; [repeat split|].
  unfold Synced, getAttribute. simpl.
  rewrite !lookup_insert_ne by congruence. apply lookup_insert_eq.
Qed.

(** The attribute follows the flag through every call. *)
Lemma v6_invoke_synced t n fs h ev w :
  Ready t n fs w → Synced t w → Synced t (exec (invoke h ev) w).
Proof.
  intros HR HS. open_world w. use_ready HR. unfold Synced, exec in *. simpl in HS.
  destruct (head fs) as [f|], (last fs) as [l|];
  (destruct h; [ | destruct ev | destruct ev | | | ]); simpl;
    unfold toggleMenu, handleKeydown, handleTabNavigation, outsideClick, linkClick,
           handleResize, focusFirst, closeMenu, openMenu, elements_body,
           elements_toggleButton, elements_navContainer, trapFocus, deref, bind, gets,
           modify, ret, throw;
    crunch; try exact HS;
    unfold getAttribute, setAttribute; simpl;
    (rewrite lookup_insert_ne by congruence); apply lookup_insert_eq.
Qed.

Lemma v6_Inv_exec t n fs h ev w : Inv t n fs w → Inv t n fs (exec (invoke h ev) w).
Proof.
  intros [HR HS]. split; [|apply (v6_invoke_synced t n fs), HS; exact HR].
  destruct (v6_invoke_keeps t n fs h ev w HR) as (w' & E & H').
  unfold exec. rewrite E. exact H'.
Qed.

Lemma v6_Inv_step t n fs ev w : Inv t n fs w → Inv t n fs (step ev w).
Proof.
  intros HI. unfold step. apply (step_keeps invoke (Inv t n fs)).
  - apply v6_Inv_exec.
  - intros msg w0 [HR HS]. split; [exact HR | exact HS].
  - intros b w0 [HR HS]. split; [exact HR | exact HS].
  - intros x w0 [HR HS]. split; [exact HR | exact HS].
  - intros w0 [HR HS]. split; [exact HR | exact HS].
  - intros i w0 [HR HS]. split; [exact HR | exact HS].
  - exact HI.
Qed.

Lemma v6_reachable p d t n evs :
  q_toggle p = Some t → q_nav p = Some n →
  Inv t n (q_focusable p) (run evs (boot p d)).
Proof.
  intros Ht Hn. destruct (v6_boot_ready p d t n Ht Hn) as (_ & HI & _).
  revert HI. generalize (boot p d). induction evs as [|ev evs IH]; intros w HI; [exact HI|].
  apply IH, v6_Inv_step, HI.
Qed.

Section Dispatch.
Variables (t n : Element) (fs : list Element).
Local Abbreviation I := (Ready t n fs).

Lemma v6_I_exec h ev w : I w → I (exec (invoke h ev) w).
Proof.
  intros HI. destruct (v6_invoke_keeps _ _ _ h ev w HI) as (w' & E & H').
  unfold exec. rewrite E. exact H'.
Qed.

Lemma v6_I_console msg w : I w → I (console_log msg w).
Proof. intros HR. exact HR. Qed.

Lemma v6_I_width x w : I w → I (with_dom (set_innerWidth x) w).
Proof. intros HR. exact HR. Qed.

Lemma v6_I_frames q w : I w → I (set_frameQueue q w).
Proof. intros HR. exact HR. Qed.

Lemma v6_I_timers ts w : I w → I (set_timers ts w).
Proof. intros HR. exact HR. Qed.

Lemma v6_I_step ev w : I w → I (step ev w).
Proof.
  intros HI. unfold step.
  apply (step_keeps invoke I); auto using v6_I_exec, v6_I_console, v6_I_width, v6_I_frames, v6_I_timers.
Qed.

Lemma v6_linkClick_closed w : isOpen (nav w) = false → linkClick w = (Normal tt, w).
Proof. intros Ho. unfold linkClick, bind, gets. rewrite Ho. reflexivity. Qed.

Lemma v6_linkClick_open w : isOpen (nav w) = true → linkClick w = closeMenu w.
Proof. intros Ho. unfold linkClick, bind, gets. rewrite Ho. reflexivity. Qed.

Lemma v6_links_closed (ev : Event) (ls : list Element) w :
  isOpen (nav w) = false →
  forEach ((λ link, mkListener (OnElement link) click H_linkClick) <$> ls)
          (λ l, run_callback invoke (l_handler l) ev) w = (Normal tt, w).
Proof.
  intros Ho. apply forEach_fixed. intros l Hl.
  apply list_elem_of_fmap in Hl as (x & -> & _). simpl.
  unfold run_callback, try_catch. simpl. rewrite (v6_linkClick_closed w Ho). reflexivity.
Qed.

(** A click passing through a node of the closed panel's page, other than
    the trigger, runs nothing that acts. *)
Lemma v6_fire_closed e ev w :
  I w → isOpen (nav w) = false → e ≠ t →
  fire invoke (OnElement e) click ev w = (Normal tt, w).
Proof.
  intros HR Ho Hne. unfold fire, bind, gets.
  rewrite (v6_listeners_on_element t n fs e w HR).
  destruct (decide (e = t)); [contradiction|]. simpl.
  apply v6_links_closed, Ho.
Qed.

Lemma v6_fire_no_listener e ev w :
  I w → e ≠ t → e ∉ fs →
  fire invoke (OnElement e) click ev w = (Normal tt, w).
Proof.
  intros HR Hne Hnl. unfold fire, bind, gets.
  rewrite (v6_listeners_on_element t n fs e w HR).
  destruct (decide (e = t)); [contradiction|]. simpl.
  rewrite filter_none; [reflexivity|]. intros x Hx ->. contradiction.
Qed.

Lemma v6_fire_trigger ev w :
  I w → t ∉ fs → fire invoke (OnElement t) click ev w = toggleMenu w.
Proof.
  intros HI Hnl. pose proof HI as HR. unfold fire, bind, gets.
  rewrite (v6_listeners_on_element t n fs t w HR).
  destruct (decide (t = t)); [|contradiction].
  rewrite filter_none by (intros x Hx ->; contradiction).
  simpl. unfold bind. rewrite (v6_run_callback_ready t n fs H_toggleMenu ev w HI). simpl.
  destruct (toggleMenu w) as [[[]|?] ?]; reflexivity.
Qed.

Lemma v6_fire_link_open e ev w :
  I w → isOpen (nav w) = true → e ≠ t → e ∈ fs →
  fire invoke (OnElement e) click ev w = closeMenu w.
Proof.
  intros HI Ho Hne Hin. pose proof HI as HR. unfold fire, bind, gets.
  rewrite (v6_listeners_on_element t n fs e w HR).
  destruct (decide (e = t)); [contradiction|]. simpl.
  destruct (filter (λ x, x = e) fs) as [|x ls] eqn:Ef.
  { exfalso. exact (filter_some _ fs e Hin eq_refl Ef). }
  rewrite fmap_cons. simpl. unfold bind.
  rewrite (v6_run_callback_ready t n fs H_linkClick ev w HI). simpl.
  rewrite (v6_linkClick_open w Ho).
  destruct (v6_closeMenu_keeps t n fs w HI) as (w1 & E1 & H1 & Ho1). rewrite E1.
  apply v6_links_closed, Ho1.
Qed.

Lemma v6_path_closed ev path w :
  I w → isOpen (nav w) = false → t ∉ path →
  forEach path (λ e, fire invoke (OnElement e) click ev) w = (Normal tt, w).
Proof.
  intros HI Ho Hnt. apply forEach_fixed. intros e He.
  apply v6_fire_closed; [assumption..|]. intros ->. contradiction.
Qed.

Lemma v6_path_no_listener ev path w :
  I w → t ∉ path → (∀ l, l ∈ fs → l ∉ path) →
  forEach path (λ e, fire invoke (OnElement e) click ev) w = (Normal tt, w).
Proof.
  intros HI Hnt Hnl. apply forEach_fixed. intros e He.
  apply v6_fire_no_listener; [assumption| |].
  - intros ->. contradiction.
  - intros Hin. exact (Hnl e Hin He).
Qed.

Lemma v6_path_trigger ev path w :
  I w → trigger_click t fs path →
  forEach path (λ e, fire invoke (OnElement e) click ev) w = toggleMenu w.
Proof.
  intros HI (Hnd & Hin & Hnl).
  apply list_elem_of_split in Hin as (l1 & l2 & ->).
  apply NoDup_app in Hnd as (_ & Hd1 & Hd2). apply NoDup_cons in Hd2 as (Ht2 & _).
  assert (Ht1 : t ∉ l1) by (intros Hc; apply (Hd1 t Hc); left).
  assert (Htfs : t ∉ fs) by (intros Hc; apply (Hnl t Hc), elem_of_app; right; left).
  rewrite forEach_app. unfold bind.
  rewrite v6_path_no_listener; [|assumption|assumption|].
  2:{ intros l Hl Hc. apply (Hnl l Hl), elem_of_app. left. exact Hc. }
  simpl. unfold bind. rewrite (v6_fire_trigger ev w HI Htfs).
  destruct (v6_invoke_keeps t n fs H_toggleMenu ev w HI) as (w1 & E1 & H1). simpl in E1.
  rewrite E1. apply v6_path_no_listener; [assumption|assumption|].
  intros l Hl Hc. apply (Hnl l Hl), elem_of_app. right. right. exact Hc.
Qed.

Lemma v6_path_link_open ev path w :
  I w → isOpen (nav w) = true → link_click t fs path →
  forEach path (λ e, fire invoke (OnElement e) click ev) w = closeMenu w.
Proof.
  intros HI Ho (Hnt & l & Hl & Hin).
  induction path as [|x path IH]; [inversion Hin|].
  assert (Hxt : x ≠ t) by (intros ->; apply Hnt; left).
  assert (Hnt' : t ∉ path) by (intros Hc; apply Hnt; right; exact Hc).
  simpl. unfold bind. destruct (decide (x ∈ fs)) as [Hx|Hx].
  - rewrite (v6_fire_link_open x ev w HI Ho Hxt Hx).
    destruct (v6_closeMenu_keeps t n fs w HI) as (w1 & E1 & H1 & Ho1). rewrite E1.
    apply v6_path_closed; assumption.
  - rewrite (v6_fire_no_listener x ev w HI Hxt Hx).
    apply IH; [exact Hnt'|].
    apply elem_of_cons in Hin as [->|Hin]; [contradiction|exact Hin].
Qed.

Lemma v6_outsideClick_closed path w :
  isOpen (nav w) = false → outsideClick path w = (Normal tt, w).
Proof. intros Ho. unfold outsideClick, bind, gets. rewrite Ho. reflexivity. Qed.

Lemma v6_outsideClick_inside path w :
  I w → t ∈ path ∨ n ∈ path → outsideClick path w = (Normal tt, w).
Proof.
  intros (He & _) Hin. unfold outsideClick, bind, gets.
  destruct (isOpen (nav w)); [|reflexivity]. simpl.
  unfold elements_navContainer, elements_toggleButton, bind, gets. rewrite He. simpl.
  unfold on_path. case_bool_decide; [reflexivity|].
  rewrite He. simpl. case_bool_decide; [reflexivity|]. tauto.
Qed.

Lemma v6_outsideClick_outside path w :
  I w → isOpen (nav w) = true → outside_click t n path → outsideClick path w = closeMenu w.
Proof.
  intros (He & _) Ho [Hnt Hnn]. unfold outsideClick, bind, gets. rewrite Ho. simpl.
  unfold elements_navContainer, elements_toggleButton, bind, gets. rewrite He. simpl.
  unfold on_path. rewrite bool_decide_eq_false_2 by assumption.
  rewrite He. simpl. rewrite bool_decide_eq_false_2 by assumption. reflexivity.
Qed.

Lemma v6_fire_document_click path w :
  I w → fire invoke OnDocument click (Click path) w = outsideClick path w.
Proof.
  intros HI. pose proof HI as HR. unfold fire, bind, gets.
  rewrite (v6_listeners_on_document_click t n fs w HR). simpl. unfold bind.
  rewrite (v6_run_callback_ready t n fs H_outsideClick (Click path) w HI). simpl.
  destruct (outsideClick path w) as [[[]|?] ?]; reflexivity.
Qed.

Lemma v6_fire_document_keydown k s w :
  I w → fire invoke OnDocument keydown (Keydown k s) w = handleKeydown k s w.
Proof.
  intros HI. pose proof HI as HR. unfold fire, bind, gets.
  rewrite (v6_listeners_on_document_keydown t n fs w HR). simpl. unfold bind.
  rewrite (v6_run_callback_ready t n fs H_handleKeydown (Keydown k s) w HI). simpl.
  destruct (handleKeydown k s w) as [[[]|?] ?]; reflexivity.
Qed.

Lemma v6_fire_window_resize x w :
  I w → fire invoke OnWindow resize (Resize x) w = handleResize w.
Proof.
  intros HI. pose proof HI as HR. unfold fire, bind, gets.
  rewrite (v6_listeners_on_window t n fs resize w HR).
  destruct (decide (resize = resize)); [|contradiction]. simpl. unfold bind.
  rewrite (v6_run_callback_ready t n fs H_handleResize (Resize x) w HI). simpl.
  destruct (handleResize w) as [[[]|?] ?]; reflexivity.
Qed.

Lemma v6_fire_window_other ty ev w :
  I w → ty ≠ resize → fire invoke OnWindow ty ev w = (Normal tt, w).
Proof.
  intros HR Hne. unfold fire, bind, gets.
  rewrite (v6_listeners_on_window t n fs ty w HR).
  destruct (decide (ty = resize)); [contradiction|reflexivity].
Qed.

(** The dispatch of a click, once the listeners on the path have run. *)
Lemma v6_dispatch_click path w w1 :
  I w →
  forEach path (λ e, fire invoke (OnElement e) click (Click path))
          (set_defaultPrevented false w) = (Normal tt, w1) →
  dispatch (Click path) w = outsideClick path w1.
Proof.
  intros HI E.
  assert (H1 : I w1).
  { destruct (forEach_preserves I path
                (λ e, fire invoke (OnElement e) click (Click path))) with
      (s := set_defaultPrevented false w) as (w1' & E' & H1').
    - intros e s Hs. apply (fire_keeps invoke I); auto using v6_I_exec, v6_I_console.
    - apply v6_I_prevented, HI.
    - congruence. }
  unfold dispatch. rewrite dispatch_Click.
  unfold bind at 1. rewrite E. unfold bind at 1.
  rewrite (v6_fire_document_click path w1 H1).
  destruct (v6_outsideClick_keeps t n fs path w1 H1) as (w2 & E2 & H2). rewrite E2.
  apply v6_fire_window_other; [exact H2 | discriminate].
Qed.

Lemma v6_dispatch_keydown k s w :
  I w → dispatch (Keydown k s) w = handleKeydown k s (set_defaultPrevented false w).
Proof.
  intros HI. pose proof (v6_I_prevented t n fs false w HI) as H0.
  unfold dispatch. rewrite dispatch_Keydown.
  unfold bind at 1. rewrite (v6_fire_document_keydown k s _ H0).
  destruct (v6_handleKeydown_keeps t n fs k s _ H0) as (w2 & E2 & H2). rewrite E2.
  apply v6_fire_window_other; [exact H2 | discriminate].
Qed.

Lemma v6_dispatch_resize x w :
  I w →
  dispatch (Resize x) w = handleResize (with_dom (set_innerWidth x) (set_defaultPrevented false w)).
Proof.
  intros HI.
  pose proof (v6_I_width x _ (v6_I_prevented t n fs false w HI)) as H0.
  unfold dispatch. rewrite dispatch_Resize. apply v6_fire_window_resize, H0.
Qed.

(** *** What each kind of event does to the initialised component *)

Lemma v6_step_exec ev w : step ev w = exec (dispatch ev) w.
Proof. reflexivity. Qed.

Lemma v6_toggleMenu_flips w :
  I w → ∃ w', toggleMenu w = (Normal tt, w') ∧ I w' ∧ isOpen (nav w') = negb (isOpen (nav w)).
Proof.
  intros HI. unfold toggleMenu, bind, gets. destruct (isOpen (nav w)) eqn:Ho.
  - destruct (v6_closeMenu_keeps t n fs w HI) as (w' & E & H' & Ho'). eauto.
  - destruct (v6_openMenu_keeps t n fs w HI) as (w' & E & H' & Ho'). eauto.
Qed.

Lemma v6_step_trigger path w :
  I w → trigger_click t fs path →
  step (Click path) w = exec toggleMenu (set_defaultPrevented false w).
Proof.
  intros HI Htc. pose proof (v6_I_prevented t n fs false w HI) as H0.
  destruct (v6_toggleMenu_flips _ H0) as (w1 & E1 & H1 & _).
  rewrite v6_step_exec. unfold exec.
  rewrite (v6_dispatch_click path w w1 HI) by (rewrite (v6_path_trigger _ path _ H0 Htc); exact E1).
  rewrite v6_outsideClick_inside; [|exact H1|left; apply Htc].
  rewrite E1. reflexivity.
Qed.

Lemma v6_step_link path w :
  I w → isOpen (nav w) = true → link_click t fs path →
  step (Click path) w = exec closeMenu (set_defaultPrevented false w).
Proof.
  intros HI Ho Hlc. pose proof (v6_I_prevented t n fs false w HI) as H0.
  destruct (v6_closeMenu_keeps t n fs _ H0) as (w1 & E1 & H1 & Ho1).
  rewrite v6_step_exec. unfold exec.
  rewrite (v6_dispatch_click path w w1 HI) by (rewrite (v6_path_link_open _ path _ H0 Ho Hlc); exact E1).
  rewrite v6_outsideClick_closed by exact Ho1.
  rewrite E1. reflexivity.
Qed.

Lemma v6_step_click_closed path w :
  I w → isOpen (nav w) = false → t ∉ path →
  step (Click path) w = set_defaultPrevented false w.
Proof.
  intros HI Ho Hnt. pose proof (v6_I_prevented t n fs false w HI) as H0.
  rewrite v6_step_exec. unfold exec.
  rewrite (v6_dispatch_click path w (set_defaultPrevented false w) HI)
    by (apply (v6_path_closed _ path _ H0 Ho Hnt)).
  rewrite v6_outsideClick_closed by exact Ho. reflexivity.
Qed.

Lemma v6_step_outside path w :
  I w → outside_click t n path → isOpen (nav (step (Click path) w)) = false.
Proof.
  intros HI Hout. pose proof (v6_I_prevented t n fs false w HI) as H0.
  destruct (forEach_preserves I path (λ e, fire invoke (OnElement e) click (Click path)))
    with (s := set_defaultPrevented false w) as (w1 & E1 & H1).
  { intros e s Hs. apply (fire_keeps invoke I); auto using v6_I_exec, v6_I_console. }
  { exact H0. }
  rewrite v6_step_exec. unfold exec. rewrite (v6_dispatch_click path w w1 HI E1).
  destruct (isOpen (nav w1)) eqn:Ho1.
  - rewrite (v6_outsideClick_outside path w1 H1 Ho1 Hout).
    destruct (v6_closeMenu_keeps t n fs w1 H1) as (w2 & E2 & _ & Ho2). rewrite E2. exact Ho2.
  - rewrite v6_outsideClick_closed by exact Ho1. exact Ho1.
Qed.

Lemma v6_step_keydown k s w :
  I w → step (Keydown k s) w = exec (handleKeydown k s) (set_defaultPrevented false w).
Proof. intros HI. rewrite v6_step_exec. unfold exec. rewrite v6_dispatch_keydown by exact HI. reflexivity. Qed.

Lemma v6_step_resize x w :
  I w →
  step (Resize x) w =
    exec handleResize (with_dom (set_innerWidth x) (set_defaultPrevented false w)).
Proof. intros HI. rewrite v6_step_exec. unfold exec. rewrite v6_dispatch_resize by exact HI. reflexivity. Qed.

Lemma v6_step_escape s w : I w → isOpen (nav (step (Keydown "Escape" s) w)) = false.
Proof.
  intros HI. rewrite v6_step_keydown by exact HI.
  pose proof (v6_I_prevented t n fs false w HI) as H0.
  unfold exec, handleKeydown, bind, gets.
  destruct (isOpen (nav (set_defaultPrevented false w))) eqn:Ho; simpl; [|exact Ho].
  destruct (v6_closeMenu_keeps t n fs _ H0) as (w2 & E2 & _ & Ho2). rewrite E2. exact Ho2.
Qed.

Lemma v6_activations_parity paths w :
  I w → Forall (trigger_click t fs) paths →
  isOpen (nav (run (Click <$> paths) w)) = xorb (isOpen (nav w)) (Nat.odd (length paths)).
Proof.
  revert w. induction paths as [|path paths IH]; intros w HI Hall.
  - simpl. destruct (isOpen (nav w)); reflexivity.
  - apply Forall_cons in Hall as [Hp Hall].
    change (run (Click <$> path :: paths) w) with (run (Click <$> paths) (step (Click path) w)).
    rewrite IH; [|apply v6_I_step, HI|exact Hall].
    rewrite (v6_step_trigger path w HI Hp).
    destruct (v6_toggleMenu_flips _ (v6_I_prevented t n fs false w HI)) as (w1 & E1 & _ & Ho1).
    unfold exec. rewrite E1. simpl fst. simpl snd. rewrite Ho1. simpl nav.
    change (length (path :: paths)) with (S (length paths)). rewrite Nat.odd_succ.
    rewrite <- Nat.negb_odd. destruct (isOpen (nav w)), (Nat.odd (length paths)); reflexivity.
Qed.

(** Closed, the component stays quiet under every close-triggering event. *)
Lemma v6_closed_quiet ev w :
  I w → isOpen (nav w) = false →
  match ev with
  | Keydown _ _ | Resize _ => True
  | Click path => t ∉ path
  | _ => False
  end →
  quiet w (step ev w).
Proof.
  intros HI Ho Hev. destruct ev as [path|k s|x| |i]; try contradiction.
  - rewrite v6_step_click_closed by assumption. repeat split.
  - rewrite v6_step_keydown by assumption. unfold exec, handleKeydown, bind, gets.
    simpl. rewrite Ho. simpl. repeat split.
  - rewrite v6_step_resize by assumption. unfold exec, handleResize, bind, gets.
    simpl. rewrite Ho, andb_false_r. simpl. repeat split.
Qed.

Lemma v6_tab_step s w :
  I w → isOpen (nav w) = true →
  step (Keydown "Tab" s) w = exec (handleTabNavigation s) (set_defaultPrevented false w).
Proof.
  intros HI Ho. rewrite v6_step_keydown by exact HI.
  unfold exec, handleKeydown, bind, gets. simpl. rewrite Ho. reflexivity.
Qed.

Lemma v6_tab_on_last w l f :
  I w → last fs = Some l → head fs = Some f → activeElement (dom w) = Some l →
  handleTabNavigation false w =
    (Normal tt, set_defaultPrevented true (with_dom (focus f) w)).
Proof.
  intros HR Hl Hf Ha. open_world w. use_ready HR. simpl in Ha. subst.
  unfold handleTabNavigation, bind, gets. simpl. rewrite Hl, Ha. unfold same_node.
  rewrite bool_decide_eq_true_2 by reflexivity. simpl. rewrite Hf. reflexivity.
Qed.

Lemma v6_shift_tab_on_first w l f :
  I w → last fs = Some l → head fs = Some f → activeElement (dom w) = Some f →
  handleTabNavigation true w =
    (Normal tt, set_defaultPrevented true (with_dom (focus l) w)).
Proof.
  intros HR Hl Hf Ha. open_world w. use_ready HR. simpl in Ha. subst.
  unfold handleTabNavigation, bind, gets. simpl. rewrite Hf, Ha. unfold same_node.
  rewrite bool_decide_eq_true_2 by reflexivity. simpl. rewrite Hl. reflexivity.
Qed.

Lemma v6_tab_elsewhere w (s : bool) :
  I w → same_node (activeElement (dom w)) (if s then head fs else last fs) = false →
  handleTabNavigation s w = (Normal tt, w).
Proof.
  intros HR Hs. open_world w. use_ready HR. simpl in Hs.
  unfold handleTabNavigation, bind, gets.
  destruct s; simpl in *; rewrite Hs; reflexivity.
Qed.

Lemma v6_traps w : I w → isOpen (nav w) = true → traps_focus step fs w.
Proof.
  intros HI Ho. pose proof (v6_I_prevented t n fs false w HI) as H0.
  split; [|split; [|split]].
  - intros l Hl Ha. rewrite v6_tab_step by assumption.
    assert (is_Some (head fs)) as [f Hf] by (apply head_last_some; eauto).
    exists f. split; [exact Hf|].
    unfold exec. rewrite (v6_tab_on_last _ l f H0 Hl Hf Ha). simpl.
    split; [reflexivity|]. split; intros Hc; rewrite Hc; [reflexivity|exact Ha].
  - intros f Hf Ha. rewrite v6_tab_step by assumption.
    assert (is_Some (last fs)) as [l Hl] by (apply head_last_some; eauto).
    exists l. split; [exact Hl|].
    unfold exec. rewrite (v6_shift_tab_on_first _ l f H0 Hl Hf Ha). simpl.
    split; [reflexivity|]. split; intros Hc; rewrite Hc; [reflexivity|exact Ha].
  - intros b s Ha Hnf Hnl. rewrite v6_tab_step by assumption.
    unfold exec. rewrite v6_tab_elsewhere; [repeat split|exact H0|].
    simpl. rewrite Ha. unfold same_node.
    destruct s; [destruct (head fs)|destruct (last fs)]; try reflexivity;
      apply bool_decide_eq_false_2; congruence.
  - intros s Hs. rewrite v6_tab_step by assumption.
    unfold exec. rewrite v6_tab_elsewhere; [repeat split|exact H0|exact Hs].
Qed.

(** Opening queues the focus move; the next frame performs it. *)
Lemma v6_open_defers path w :
  I w → isOpen (nav w) = false → trigger_click t fs path →
  isOpen (nav (step (Click path) w)) = true ∧
  activeElement (dom (step (Click path) w)) = activeElement (dom w) ∧
  frameQueue (step (Click path) w) = frameQueue w ++ [H_focusFirst].
Proof.
  intros HI Ho Htc. rewrite (v6_step_trigger path w HI Htc).
  pose proof (v6_I_prevented t n fs false w HI) as HR0.
  unfold exec, toggleMenu, bind, gets. simpl. rewrite Ho.
  rewrite (v6_openMenu_ready t n fs _ HR0). simpl. repeat split.
Qed.

Lemma v6_resize_closes x w :
  I w → isOpen (nav w) = true → 768 < x →
  step (Resize x) w =
    exec closeMenu (with_dom (set_innerWidth x) (set_defaultPrevented false w)).
Proof.
  intros HI Ho Hx. rewrite v6_step_resize by exact HI.
  unfold exec at 1. unfold handleResize, bind, gets. simpl. rewrite Ho.
  rewrite bool_decide_eq_true_2 by lia. reflexivity.
Qed.

(** *** The attribute store is written, never read *)




End Dispatch.

End V6Facts.

(** ** Professional Edition 1.0 *)

Module Pro1Facts.
Import Pro1.

Section Ready.
Variables (t n : Element) (fs : list Element).
Local Abbreviation I := (Ready t n fs).

Lemma pro1_step_exec ev w : step ev w = exec (dispatch ev) w.
Proof. reflexivity. Qed.

Ltac open_world w :=
  let d := fresh "d" in let tb := fresh "tb" in let nc := fresh "nc" in
  let fe := fresh "fe" in let ff := fresh "ff" in let lf := fresh "lf" in
  let ls := fresh "ls" in let fq := fresh "fq" in let ts := fresh "ts" in
  let dp := fresh "dp" in let cs := fresh "cs" in
  destruct w as [d [tb nc fe ff lf] ls fq ts dp cs].

Ltac use_ready HR :=
  let H1 := fresh in let H2 := fresh in let H3 := fresh in let H4 := fresh in
  let H5 := fresh in let H6 := fresh in let H7 := fresh in let H8 := fresh in
  destruct HR as (H1 & H2 & H3 & H4 & H5 & H6 & H7 & H8);
  simpl in H1, H2, H3, H4, H5, H6, H7, H8; subst.

Lemma pro1_invoke_keeps h ev w : I w → I (exec (invoke h ev) w).
Proof.
  intros HR. open_world w. use_ready HR. unfold exec, Ready.
  destruct (head fs) as [f|], (last fs) as [l|];
  (destruct h; [ | destruct ev]); simpl;
    unfold handleKeydown; unfold toggleMenu, deref, bind, gets, modify, ret, throw, classList_toggle;
    crunch; repeat split.
Qed.

Lemma pro1_I_prevented b w : I w → I (set_defaultPrevented b w).
Proof. intros HR. exact HR. Qed.

Lemma pro1_I_step ev w : I w → I (step ev w).
Proof.
  intros HI. unfold step. apply (step_keeps invoke I).
  - exact pro1_invoke_keeps.
  - intros msg w0 H0. exact H0.
  - intros b w0 H0. exact H0.
  - intros x w0 H0. exact H0.
  - intros w0 (? & ? & ? & ? & ? & ? & ? & ?). repeat split; assumption.
  - intros i w0 (? & ? & ? & ? & ? & ? & ? & Ht). unfold Ready. simpl. rewrite Ht.
    repeat split; assumption.
  - exact HI.
Qed.

Lemma pro1_fire_document_keydown k s w :
  I w →
  fire invoke OnDocument keydown (Keydown k s) w =
    run_callback invoke H_handleKeydown (Keydown k s) w.
Proof.
  intros (_ & _ & _ & _ & _ & Hl & _). unfold fire, bind, gets, listeners_on.
  rewrite Hl. simpl. unfold bind.
  destruct (run_callback invoke H_handleKeydown (Keydown k s) w) as [[[]|?] ?]; reflexivity.
Qed.

Lemma pro1_fire_window ty ev w : I w → fire invoke OnWindow ty ev w = (Normal tt, w).
Proof.
  intros (_ & _ & _ & _ & _ & Hl & _). unfold fire, bind, gets, listeners_on.
  rewrite Hl. reflexivity.
Qed.

Lemma pro1_fire_document_click ev w : I w → fire invoke OnDocument click ev w = (Normal tt, w).
Proof.
  intros (_ & _ & _ & _ & _ & Hl & _). unfold fire, bind, gets, listeners_on.
  rewrite Hl. reflexivity.
Qed.

Lemma pro1_fire_element e ev w :
  I w →
  fire invoke (OnElement e) click ev w =
    if decide (e = t) then run_callback invoke H_toggleMenu ev w else (Normal tt, w).
Proof.
  intros (_ & _ & _ & _ & _ & Hl & _). unfold fire, bind, gets, listeners_on.
  rewrite Hl. unfold bound_listeners.
  destruct (decide (e = t)) as [->|Hne].
  - rewrite filter_cons_True by (simpl; auto).
    rewrite filter_cons_False by (simpl; intros [? _]; discriminate).
    simpl. unfold bind.
    destruct (run_callback invoke H_toggleMenu ev w) as [[[]|?] ?]; reflexivity.
  - rewrite filter_cons_False by (simpl; intros [? _]; congruence).
    rewrite filter_cons_False by (simpl; intros [? _]; discriminate).
    reflexivity.
Qed.

(** The trap, as [handleKeydown] runs it on an open panel. *)
Lemma pro1_tab_on_last w l f :
  I w → isNavOpen w = true → last fs = Some l → head fs = Some f →
  activeElement (dom w) = Some l →
  handleKeydown "Tab" false w = (Normal tt, set_defaultPrevented true (with_dom (focus f) w)).
Proof.
  intros HR Ho Hl Hf Ha. open_world w. use_ready HR. unfold isNavOpen in Ho. simpl in Ha, Ho.
  unfold handleKeydown, bind, gets. simpl. rewrite Ho. simpl. rewrite Hl, Ha.
  unfold same_node. rewrite bool_decide_eq_true_2 by reflexivity. simpl.
  rewrite Hf. reflexivity.
Qed.

Lemma pro1_shift_tab_on_first w l f :
  I w → isNavOpen w = true → last fs = Some l → head fs = Some f →
  activeElement (dom w) = Some f →
  handleKeydown "Tab" true w = (Normal tt, set_defaultPrevented true (with_dom (focus l) w)).
Proof.
  intros HR Ho Hl Hf Ha. open_world w. use_ready HR. unfold isNavOpen in Ho. simpl in Ha, Ho.
  unfold handleKeydown, bind, gets. simpl. rewrite Ho. simpl. rewrite Hf, Ha.
  unfold same_node. rewrite bool_decide_eq_true_2 by reflexivity. simpl.
  rewrite Hl. reflexivity.
Qed.

Lemma pro1_tab_elsewhere w (s : bool) :
  I w → same_node (activeElement (dom w)) (if s then head fs else last fs) = false →
  handleKeydown "Tab" s w = (Normal tt, w).
Proof.
  intros HR Hs. open_world w. use_ready HR.
  unfold handleKeydown, bind, gets.
  destruct (classList_contains _ _); [|reflexivity].
  destruct s; simpl in *; rewrite Hs; reflexivity.
Qed.

Lemma pro1_step_keydown_normal k s w w' :
  I w → handleKeydown k s (set_defaultPrevented false w) = (Normal tt, w') →
  step (Keydown k s) w = w'.
Proof.
  intros HI E. pose proof (pro1_I_prevented false w HI) as H0.
  rewrite pro1_step_exec. unfold exec, dispatch. rewrite dispatch_Keydown. unfold bind.
  rewrite (pro1_fire_document_keydown k s _ H0). unfold run_callback, try_catch. simpl.
  rewrite E. rewrite pro1_fire_window; [reflexivity|].
  pose proof (pro1_invoke_keeps H_handleKeydown (Keydown k s) _ H0) as Hk.
  unfold exec in Hk. simpl in Hk. rewrite E in Hk. exact Hk.
Qed.

Lemma pro1_traps w : I w → isNavOpen w = true → traps_focus step fs w.
Proof.
  intros HI Ho. pose proof (pro1_I_prevented false w HI) as H0.
  split; [|split; [|split]].
  - intros l Hl Ha.
    assert (is_Some (head fs)) as [f Hf] by (apply head_last_some; eauto).
    exists f. split; [exact Hf|].
    rewrite (pro1_step_keydown_normal _ _ w _ HI (pro1_tab_on_last _ l f H0 Ho Hl Hf Ha)).
    simpl. split; [reflexivity|]. split; intros Hc; rewrite Hc; [reflexivity|exact Ha].
  - intros f Hf Ha.
    assert (is_Some (last fs)) as [l Hl] by (apply head_last_some; eauto).
    exists l. split; [exact Hl|].
    rewrite (pro1_step_keydown_normal _ _ w _ HI (pro1_shift_tab_on_first _ l f H0 Ho Hl Hf Ha)).
    simpl. split; [reflexivity|]. split; intros Hc; rewrite Hc; [reflexivity|exact Ha].
  - intros b s Ha Hnf Hnl.
    rewrite (pro1_step_keydown_normal "Tab" s w (set_defaultPrevented false w) HI).
    + repeat split.
    + apply pro1_tab_elsewhere; [exact H0|]. simpl. rewrite Ha. unfold same_node.
      destruct s; [destruct (head fs)|destruct (last fs)]; try reflexivity;
        apply bool_decide_eq_false_2; congruence.
  - intros s Hs.
    rewrite (pro1_step_keydown_normal "Tab" s w (set_defaultPrevented false w) HI).
    + repeat split.
    + apply pro1_tab_elsewhere; [exact H0|exact Hs].
Qed.

(** Opening moves the focus at once; nothing is left for the next frame. *)
Lemma pro1_toggleMenu_opens w f :
  I w → isNavOpen w = false → head fs = Some f →
  toggleMenu w =
    (Normal tt,
     with_dom (λ d, focus f (set_bodyOverflow "hidden"
                 (setAttribute t "aria-expanded" "true" (classList_add openBodyClass d)))) w).
Proof.
  intros HR Ho Hf. open_world w. use_ready HR. unfold isNavOpen in Ho. simpl in Ho.
  unfold toggleMenu, bind, gets, classList_toggle. simpl. rewrite Ho. simpl.
  rewrite Hf. reflexivity.
Qed.

Lemma pro1_path_without_trigger ev path w :
  I w → t ∉ path →
  forEach path (λ e, fire invoke (OnElement e) click ev) w = (Normal tt, w).
Proof.
  intros HI Hnt. apply forEach_fixed. intros e He.
  rewrite (pro1_fire_element e ev w HI). destruct (decide (e = t)) as [->|]; [contradiction|reflexivity].
Qed.

Lemma pro1_step_trigger_opens path w f :
  I w → isNavOpen w = false → head fs = Some f → trigger_click t fs path →
  step (Click path) w =
    with_dom (λ d, focus f (set_bodyOverflow "hidden"
                (setAttribute t "aria-expanded" "true" (classList_add openBodyClass d))))
             (set_defaultPrevented false w).
Proof.
  intros HI Ho Hf (Hnd & Hin & _). pose proof (pro1_I_prevented false w HI) as H0.
  apply list_elem_of_split in Hin as (l1 & l2 & ->).
  apply NoDup_app in Hnd as (_ & Hd1 & Hd2). apply NoDup_cons in Hd2 as (Ht2 & _).
  assert (Ht1 : t ∉ l1) by (intros Hc; apply (Hd1 t Hc); left).
  pose proof (pro1_toggleMenu_opens _ f H0 Ho Hf) as E.
  assert (H1 : I (exec toggleMenu (set_defaultPrevented false w)))
    by (apply (pro1_invoke_keeps H_toggleMenu (Click []) _ H0)).
  unfold exec in H1. rewrite E in H1. simpl in H1.
  rewrite pro1_step_exec. unfold exec, dispatch. rewrite dispatch_Click.
  unfold bind at 1. rewrite forEach_app.
  unfold bind at 1. rewrite (pro1_path_without_trigger _ l1 _ H0 Ht1).
  simpl forEach. unfold bind at 1. rewrite (pro1_fire_element t _ _ H0).
  destruct (decide (t = t)); [|contradiction].
  unfold run_callback, try_catch. simpl invoke. rewrite E.
  rewrite (pro1_path_without_trigger _ l2 _ H1 Ht2).
  unfold bind. rewrite (pro1_fire_document_click _ _ H1), (pro1_fire_window _ _ _ H1). reflexivity.
Qed.

Lemma pro1_open_is_immediate path w f :
  I w → isNavOpen w = false → head fs = Some f → trigger_click t fs path →
  isNavOpen (step (Click path) w) = true ∧
  activeElement (dom (step (Click path) w))
    = (if can_focus f (dom (step (Click path) w)) then Some f else activeElement (dom w)) ∧
  frameQueue (step (Click path) w) = [] ∧
  timers (step (Click path) w) = [].
Proof.
  intros HI Ho Hf Htc. rewrite (pro1_step_trigger_opens path w f HI Ho Hf Htc).
  destruct HI as (_ & _ & _ & _ & _ & _ & Hq & Htm).
  split; [|split; [reflexivity|split; assumption]].
  unfold isNavOpen, classList_contains, classList_add. simpl.
  apply bool_decide_eq_true_2. set_solver.
Qed.

End Ready.

Lemma pro1_boot_ready p d t n :
  q_toggle p = Some t → q_nav p = Some n →
  Ready t n (q_focusable p) (boot p d) ∧ dom (boot p d) = d.
Proof.
  intros Ht Hn. unfold boot, exec, init. rewrite Ht, Hn. simpl.
  rewrite item_head, item_last. repeat split.
Qed.

Lemma pro1_reachable p d t n evs :
  q_toggle p = Some t → q_nav p = Some n →
  Ready t n (q_focusable p) (run evs (boot p d)).
Proof.
  intros Ht Hn. destruct (pro1_boot_ready p d t n Ht Hn) as (HI & _).
  revert HI. generalize (boot p d). induction evs as [|ev evs IH]; intros w HI; [exact HI|].
  apply IH, pro1_I_step, HI.
Qed.

End Pro1Facts.

(** ** Version 8.0 *)

Module V8Facts.
Import V8.

Ltac open_world w :=
  let d := fresh "d" in let el := fresh "el" in let o := fresh "o" in
  let ls := fresh "ls" in let fq := fresh "fq" in let ts := fresh "ts" in
  let dp := fresh "dp" in let cs := fresh "cs" in
  destruct w as [d [el o] ls fq ts dp cs].

Ltac use_ready HR :=
  let He := fresh in let Hl := fresh in
  destruct HR as (He & Hl); simpl in He, Hl; subst.

Section Ready.
Variables (t n : Element) (fs : list Element).
Local Abbreviation I := (Inv t n fs).

Lemma v8_step_exec ev w : step ev w = exec (dispatch ev) w.
Proof. reflexivity. Qed.

Lemma v8_close_ready w :
  Ready t n fs w →
  close w =
    (Normal tt,
     mkWorld (focus t (setAttribute t "aria-expanded" "false"
                (classList_remove "mobile-nav-open" (dom w))))
             (set_isOpen false (nav w)) (listeners w) (frameQueue w) (timers w)
             (defaultPrevented w) (console w)).
Proof. intros HR. open_world w. use_ready HR. reflexivity. Qed.

Lemma v8_open_ready w :
  Ready t n fs w →
  open w =
    (Normal tt,
     mkWorld (setAttribute t "aria-expanded" "true" (classList_add "mobile-nav-open" (dom w)))
             (set_isOpen true (nav w)) (listeners w) (frameQueue w ++ [H_focusFirst])
             (timers w) (defaultPrevented w) (console w)).
Proof. intros HR. open_world w. use_ready HR. reflexivity. Qed.

Lemma v8_close_keeps w :
  I w → ∃ w', close w = (Normal tt, w') ∧ I w' ∧ isOpen (nav w') = false.
Proof.
  intros [HR HT]. rewrite (v8_close_ready w HR). eexists. split; [reflexivity|].
  open_world w. use_ready HR. repeat split. exact HT.
Qed.

Lemma v8_open_keeps w :
  I w → ∃ w', open w = (Normal tt, w') ∧ I w' ∧ isOpen (nav w') = true.
Proof.
  intros [HR HT]. rewrite (v8_open_ready w HR). eexists. split; [reflexivity|].
  open_world w. use_ready HR. repeat split. exact HT.
Qed.

Lemma v8_I_debounced h ev w :
  I w → h = H_handleOutsideClick ∨ h = H_resizeCheck → I (debounced h ev w).
Proof.
  intros [HR HT] Hh. split; [exact HR|]. unfold debounced. simpl.
  apply Forall_app. split.
  - apply Forall_forall. intros p Hp. apply list_elem_of_filter in Hp as [_ Hp].
    rewrite Forall_forall in HT. exact (HT p Hp).
  - apply Forall_cons. split; [exact Hh|constructor].
Qed.

Lemma v8_I_focus e w : I w → I (with_dom (focus e) w).
Proof. intros [HR HT]. split; [exact HR | exact HT]. Qed.

Lemma v8_I_prevented b w : I w → I (set_defaultPrevented b w).
Proof. intros [HR HT]. split; [exact HR | exact HT]. Qed.

Lemma v8_I_width x w : I w → I (with_dom (set_innerWidth x) w).
Proof. intros [HR HT]. split; [exact HR | exact HT]. Qed.

Lemma v8_I_console msg w : I w → I (console_log msg w).
Proof. intros [HR HT]. split; [exact HR | exact HT]. Qed.

Lemma v8_I_frames w : I w → I (set_frameQueue [] w).
Proof. intros [HR HT]. split; [exact HR | exact HT]. Qed.

Lemma v8_I_timers i w : I w → I (set_timers (delete i (timers w)) w).
Proof. intros [HR HT]. split; [exact HR|]. simpl. apply Forall_delete, HT. Qed.

Lemma v8_handleOutsideClick_keeps path w :
  I w → ∃ w', handleOutsideClick path w = (Normal tt, w') ∧ I w'.
Proof.
  intros HI. unfold handleOutsideClick, bind, gets.
  destruct (isOpen (nav w)); simpl; [|by eauto].
  pose proof HI as [(He & _) _].
  unfold elements_nav, elements_toggle, bind, gets. rewrite He. simpl.
  destruct (on_path n path); [by eauto|].
  rewrite He. simpl.
  destruct (on_path t path); [by eauto|].
  destruct (v8_close_keeps w HI) as (w' & ? & ? & _); by eauto.
Qed.

Lemma v8_invoke_keeps h ev w : I w → ∃ w', invoke h ev w = (Normal tt, w') ∧ I w'.
Proof.
  intros HI.
  assert (Hclose : ∃ w', close w = (Normal tt, w') ∧ I w')
    by (destruct (v8_close_keeps w HI) as (w' & ? & ? & _); eauto).
  assert (Hopen : ∃ w', open w = (Normal tt, w') ∧ I w')
    by (destruct (v8_open_keeps w HI) as (w' & ? & ? & _); eauto).
  destruct h; simpl.
  - unfold toggle, bind, gets. destruct (isOpen (nav w)); assumption.
  - destruct ev; unfold handleKeydown, bind, gets; destruct (_ || _); by eauto.
  - eexists. split; [reflexivity|]. apply v8_I_debounced; auto.
  - destruct ev; apply v8_handleOutsideClick_keeps, HI.
  - unfold linkClick, bind, gets. destruct (isOpen (nav w)); [assumption|by eauto].
  - eexists. split; [reflexivity|]. apply v8_I_debounced; auto.
  - unfold resizeCheck, bind, gets. destruct (_ && _); [assumption|by eauto].
  - unfold focusFirst, bind, gets. destruct (_ ≫= _); [|by eauto].
    eexists. split; [reflexivity|]. apply v8_I_focus, HI.
Qed.

Lemma v8_run_callback_ready h ev w : I w → run_callback invoke h ev w = invoke h ev w.
Proof.
  intros HI. destruct (v8_invoke_keeps h ev w HI) as (w' & E & _).
  unfold run_callback, try_catch. rewrite E. reflexivity.
Qed.

Lemma v8_I_exec h ev w : I w → I (exec (invoke h ev) w).
Proof.
  intros HI. destruct (v8_invoke_keeps h ev w HI) as (w' & E & H').
  unfold exec. rewrite E. exact H'.
Qed.

Lemma v8_I_step ev w : I w → I (step ev w).
Proof.
  intros HI. unfold step.
  apply (step_keeps invoke I);
    auto using v8_I_exec, v8_I_console, v8_I_prevented, v8_I_width, v8_I_frames, v8_I_timers.
Qed.

Lemma v8_listeners_on_element e w :
  Ready t n fs w →
  listeners_on (OnElement e) click w =
    (if decide (e = t) then [mkListener (OnElement t) click H_toggle] else [])
    ++ ((λ link, mkListener (OnElement link) click H_linkClick) <$> filter (λ x, x = e) fs).
Proof. intros (_ & Hl). exact (panel_listeners_on_element _ _ _ _ _ t fs w Hl e). Qed.

Lemma v8_links_closed (ev : Event) (ls : list Element) w :
  isOpen (nav w) = false →
  forEach ((λ link, mkListener (OnElement link) click H_linkClick) <$> ls)
          (λ l, run_callback invoke (l_handler l) ev) w = (Normal tt, w).
Proof.
  intros Ho. apply forEach_fixed. intros l Hl.
  apply list_elem_of_fmap in Hl as (x & -> & _). simpl.
  unfold run_callback, try_catch. simpl. unfold linkClick, bind, gets. rewrite Ho. reflexivity.
Qed.

Lemma v8_fire_closed e ev w :
  I w → isOpen (nav w) = false → e ≠ t →
  fire invoke (OnElement e) click ev w = (Normal tt, w).
Proof.
  intros [HR _] Ho Hne. unfold fire, bind, gets.
  rewrite (v8_listeners_on_element e w HR).
  destruct (decide (e = t)); [contradiction|]. simpl.
  apply v8_links_closed, Ho.
Qed.

Lemma v8_fire_no_listener e ev w :
  I w → e ≠ t → e ∉ fs →
  fire invoke (OnElement e) click ev w = (Normal tt, w).
Proof.
  intros [HR _] Hne Hnl. unfold fire, bind, gets.
  rewrite (v8_listeners_on_element e w HR).
  destruct (decide (e = t)); [contradiction|]. simpl.
  rewrite filter_none; [reflexivity|]. intros x Hx ->. contradiction.
Qed.

Lemma v8_fire_link_open e ev w :
  I w → isOpen (nav w) = true → e ≠ t → e ∈ fs →
  fire invoke (OnElement e) click ev w = close w.
Proof.
  intros HI Ho Hne Hin. pose proof HI as [HR _]. unfold fire, bind, gets.
  rewrite (v8_listeners_on_element e w HR).
  destruct (decide (e = t)); [contradiction|]. simpl.
  destruct (filter (λ x, x = e) fs) as [|x ls] eqn:Ef.
  { exfalso. exact (filter_some _ fs e Hin eq_refl Ef). }
  rewrite fmap_cons. simpl. unfold bind.
  rewrite (v8_run_callback_ready H_linkClick ev w HI). simpl.
  unfold linkClick at 1. unfold bind, gets. rewrite Ho.
  destruct (v8_close_keeps w HI) as (w1 & E1 & H1 & Ho1). rewrite E1.
  apply v8_links_closed, Ho1.
Qed.

Lemma v8_path_closed ev path w :
  I w → isOpen (nav w) = false → t ∉ path →
  forEach path (λ e, fire invoke (OnElement e) click ev) w = (Normal tt, w).
Proof.
  intros HI Ho Hnt. apply forEach_fixed. intros e He.
  apply v8_fire_closed; [assumption..|]. intros ->. contradiction.
Qed.

Lemma v8_path_link_open ev path w :
  I w → isOpen (nav w) = true → link_click t fs path →
  forEach path (λ e, fire invoke (OnElement e) click ev) w = close w.
Proof.
  intros HI Ho (Hnt & l & Hl & Hin).
  induction path as [|x path IH]; [inversion Hin|].
  assert (Hxt : x ≠ t) by (intros ->; apply Hnt; left).
  assert (Hnt' : t ∉ path) by (intros Hc; apply Hnt; right; exact Hc).
  simpl. unfold bind. destruct (decide (x ∈ fs)) as [Hx|Hx].
  - rewrite (v8_fire_link_open x ev w HI Ho Hxt Hx).
    destruct (v8_close_keeps w HI) as (w1 & E1 & H1 & Ho1). rewrite E1.
    apply v8_path_closed; assumption.
  - rewrite (v8_fire_no_listener x ev w HI Hxt Hx).
    apply IH; [exact Hnt'|].
    apply elem_of_cons in Hin as [->|Hin]; [contradiction|exact Hin].
Qed.

Lemma v8_fire_document_click ev w :
  I w →
  fire invoke OnDocument click ev w = (Normal tt, debounced H_handleOutsideClick ev w).
Proof.
  intros HI. pose proof HI as [(_ & Hl) _]. unfold fire, bind, gets.
  rewrite (panel_listeners_on_document_click _ _ _ _ _ t fs w Hl). reflexivity.
Qed.

Lemma v8_fire_document_keydown k s w :
  I w → fire invoke OnDocument keydown (Keydown k s) w = handleKeydown k w.
Proof.
  intros HI. pose proof HI as [(_ & Hl) _]. unfold fire, bind, gets.
  rewrite (panel_listeners_on_document_keydown _ _ _ _ _ t fs w Hl). simpl. unfold bind.
  rewrite (v8_run_callback_ready H_handleKeydown (Keydown k s) w HI). simpl.
  destruct (handleKeydown k w) as [[[]|?] ?]; reflexivity.
Qed.

Lemma v8_fire_window_resize ev w :
  I w → fire invoke OnWindow resize ev w = (Normal tt, debounced H_resizeCheck ev w).
Proof.
  intros HI. pose proof HI as [(_ & Hl) _]. unfold fire, bind, gets.
  rewrite (panel_listeners_on_window _ _ _ _ _ t fs w Hl resize).
  destruct (decide (resize = resize)); [reflexivity|contradiction].
Qed.

Lemma v8_fire_window_other ty ev w :
  I w → ty ≠ resize → fire invoke OnWindow ty ev w = (Normal tt, w).
Proof.
  intros [(_ & Hl) _] Hne. unfold fire, bind, gets.
  rewrite (panel_listeners_on_window _ _ _ _ _ t fs w Hl ty).
  destruct (decide (ty = resize)); [contradiction|reflexivity].
Qed.

(** *** What each kind of event does to the initialised component *)

Lemma v8_step_click path w w1 :
  I w →
  forEach path (λ e, fire invoke (OnElement e) click (Click path))
          (set_defaultPrevented false w) = (Normal tt, w1) →
  I w1 →
  step (Click path) w = debounced H_handleOutsideClick (Click path) w1.
Proof.
  intros HI E H1. rewrite v8_step_exec. unfold exec, dispatch. rewrite dispatch_Click.
  unfold bind. rewrite E, (v8_fire_document_click _ w1 H1).
  rewrite v8_fire_window_other; [reflexivity| |discriminate].
  apply v8_I_debounced; auto.
Qed.

Lemma v8_step_link path w :
  I w → isOpen (nav w) = true → link_click t fs path →
  step (Click path) w =
    debounced H_handleOutsideClick (Click path) (exec close (set_defaultPrevented false w)).
Proof.
  intros HI Ho Hlc. pose proof (v8_I_prevented false w HI) as H0.
  destruct (v8_close_keeps _ H0) as (w1 & E1 & H1 & Ho1).
  unfold exec. rewrite E1. apply v8_step_click; [exact HI| |exact H1].
  rewrite (v8_path_link_open _ path _ H0 Ho Hlc). exact E1.
Qed.

Lemma v8_step_click_closed path w :
  I w → isOpen (nav w) = false → t ∉ path →
  step (Click path) w =
    debounced H_handleOutsideClick (Click path) (set_defaultPrevented false w).
Proof.
  intros HI Ho Hnt. pose proof (v8_I_prevented false w HI) as H0.
  apply v8_step_click; [exact HI| |exact H0]. apply (v8_path_closed _ path _ H0 Ho Hnt).
Qed.

Lemma v8_step_keydown k s w :
  I w → step (Keydown k s) w = exec (handleKeydown k) (set_defaultPrevented false w).
Proof.
  intros HI. pose proof (v8_I_prevented false w HI) as H0.
  rewrite v8_step_exec. unfold exec, dispatch. rewrite dispatch_Keydown. unfold bind.
  rewrite (v8_fire_document_keydown k s _ H0).
  destruct (v8_invoke_keeps H_handleKeydown (Keydown k s) _ H0) as (w1 & E1 & H1). simpl in E1.
  rewrite E1. rewrite v8_fire_window_other; [reflexivity|exact H1|discriminate].
Qed.

(** A resize only arms the timer of the debounced check. *)
Lemma v8_step_resize x w :
  I w →
  step (Resize x) w =
    debounced H_resizeCheck (Resize x)
              (with_dom (set_innerWidth x) (set_defaultPrevented false w)).
Proof.
  intros HI. rewrite v8_step_exec. unfold exec, dispatch. rewrite dispatch_Resize.
  rewrite v8_fire_window_resize; [reflexivity|]. apply v8_I_width, v8_I_prevented, HI.
Qed.

Lemma v8_step_timer i h ev' w :
  I w → timers w !! i = Some (h, ev') →
  step (TimerFires i) w =
    exec (invoke h ev') (set_timers (delete i (timers w)) (set_defaultPrevented false w)).
Proof.
  intros HI Hi. rewrite v8_step_exec. unfold exec, dispatch. rewrite dispatch_TimerFires, Hi.
  rewrite v8_run_callback_ready; [reflexivity|].
  exact (v8_I_timers i _ (v8_I_prevented false w HI)).
Qed.

(** When the timer of the resize check runs out on an open panel in a wide
    viewport, the panel closes. *)
Lemma v8_resize_timer_closes i ev' w :
  I w → timers w !! i = Some (H_resizeCheck, ev') →
  isOpen (nav w) = true → 768 < innerWidth (dom w) →
  step (TimerFires i) w =
    exec close (set_timers (delete i (timers w)) (set_defaultPrevented false w)).
Proof.
  intros HI Hi Ho Hx. rewrite (v8_step_timer i _ _ w HI Hi).
  unfold exec at 1. simpl invoke. unfold resizeCheck, bind, gets. simpl.
  rewrite Ho, bool_decide_eq_true_2 by lia. reflexivity.
Qed.

(** ... and otherwise nothing happens. *)
Lemma v8_resize_timer_idle i ev' w :
  I w → timers w !! i = Some (H_resizeCheck, ev') →
  isOpen (nav w) = false ∨ innerWidth (dom w) ≤ 768 →
  step (TimerFires i) w = set_timers (delete i (timers w)) (set_defaultPrevented false w).
Proof.
  intros HI Hi Hor. rewrite (v8_step_timer i _ _ w HI Hi).
  unfold exec. simpl invoke. unfold resizeCheck, bind, gets. simpl.
  destruct Hor as [Ho|Hx].
  - rewrite Ho, andb_false_r. reflexivity.
  - rewrite bool_decide_eq_false_2 by lia. reflexivity.
Qed.

(** Closed, the component stays quiet under every close-triggering event,
    the timers of the debounced functions included. *)
Lemma v8_closed_quiet ev w :
  I w → isOpen (nav w) = false →
  match ev with
  | Keydown _ _ | Resize _ | TimerFires _ => True
  | Click path => t ∉ path
  | AnimationFrame => False
  end →
  quiet w (step ev w).
Proof.
  intros HI Ho Hev. destruct ev as [path|k s|x| |i]; try contradiction.
  - rewrite v8_step_click_closed by assumption. repeat split.
  - rewrite v8_step_keydown by assumption. unfold exec, handleKeydown, bind, gets.
    simpl. rewrite Ho. simpl. repeat split.
  - rewrite v8_step_resize by assumption. repeat split.
  - destruct (timers w !! i) as [[h ev']|] eqn:Hi.
    + rewrite (v8_step_timer i h ev' w HI Hi).
      destruct HI as [_ HT]. rewrite Forall_forall in HT.
      assert (Hh : h = H_handleOutsideClick ∨ h = H_resizeCheck)
        by (apply (HT (h, ev')); eapply list_elem_of_lookup_2, Hi).
      destruct Hh as [-> | ->]; simpl.
      * unfold exec. destruct ev'; unfold handleOutsideClick, bind, gets; simpl;
          rewrite Ho; simpl; repeat split.
      * unfold exec, resizeCheck, bind, gets. simpl. rewrite Ho, andb_false_r.
        simpl. repeat split.
    + rewrite v8_step_exec. unfold exec, dispatch. rewrite dispatch_TimerFires, Hi.
      repeat split.
Qed.

End Ready.

Lemma v8_bind_links (ls : list Element) (w : World) :
  forEach ls (λ link, modify (addEventListener (OnElement link) click H_linkClick)) w =
    (Normal tt,
     mkWorld (dom w) (nav w)
             (listeners w ++ ((λ link, mkListener (OnElement link) click H_linkClick) <$> ls))
             (frameQueue w) (timers w) (defaultPrevented w) (console w)).
Proof.
  revert w. induction ls as [|x ls IH]; intros w; simpl.
  - rewrite app_nil_r. destruct w; reflexivity.
  - unfold bind, modify. rewrite IH. simpl. rewrite <- app_assoc. reflexivity.
Qed.

Lemma v8_boot_ready p d t n :
  q_toggle p = Some t → q_nav p = Some n →
  Inv t n (q_focusable p) (boot p d) ∧ isOpen (nav (boot p d)) = false.
Proof.
  intros Ht Hn. unfold boot, exec, init, cacheElements. rewrite Ht, Hn.
  unfold bindEvents, setupAccessibility, elements_toggle.
  unfold bind, gets. simpl.
  rewrite v8_bind_links. simpl.
  split; [|reflexivity]. split; [split; reflexivity|constructor].
Qed.

Lemma v8_reachable p d t n evs :
  q_toggle p = Some t → q_nav p = Some n →
  Inv t n (q_focusable p) (run evs (boot p d)).
Proof.
  intros Ht Hn. destruct (v8_boot_ready p d t n Ht Hn) as (HI & _).
  revert HI. generalize (boot p d). induction evs as [|ev evs IH]; intros w HI; [exact HI|].
  apply IH, v8_I_step, HI.
Qed.

End V8Facts.
(** ** Missing elements: the component stays inert *)

Lemma V6_init_missing p d :
  q_toggle p = None ∨ q_nav p = None →
  V6.init p (V6.world0 d) = (Normal tt, V6.boot p d) ∧
  listeners (V6.boot p d) = [] ∧ frameQueue (V6.boot p d) = [] ∧ timers (V6.boot p d) = [] ∧
  dom (V6.boot p d) = d ∧ V6.isOpen (nav (V6.boot p d)) = false.
Proof.
  intros Hm. unfold V6.boot, exec, V6.init.
  destruct (q_toggle p) as [t|], (q_nav p) as [n|]; try (repeat split; fail).
  destruct Hm; discriminate.
Qed.

Lemma V2_init_missing p d :
  q_toggle p = None ∨ q_nav p = None →
  V2.init p (V2.world0 d) = (Normal tt, V2.boot p d) ∧
  listeners (V2.boot p d) = [] ∧ frameQueue (V2.boot p d) = [] ∧ timers (V2.boot p d) = [] ∧
  dom (V2.boot p d) = d.
Proof.
  intros Hm. unfold V2.boot, exec, V2.init.
  destruct (q_toggle p) as [t|], (q_nav p) as [n|]; try (repeat split; fail).
  destruct Hm; discriminate.
Qed.

(** Once [mobileNav.init()] has returned, the other modules' [init]s run. *)
Lemma V6_siblings_run p sibs w w' :
  V6.init p w = (Normal tt, w') →
  V6.initComponents true p sibs w = forEach sibs (λ sibling_init, sibling_init) w'.
Proof. intros E. unfold V6.initComponents, bind. simpl. rewrite E. reflexivity. Qed.

Lemma V2_siblings_run p sibs w w' :
  V2.init p w = (Normal tt, w') →
  V2.app_init true p sibs w = forEach sibs (λ sibling_init, sibling_init) w'.
Proof. intros E. unfold V2.app_init, bind. simpl. rewrite E. reflexivity. Qed.

(** ** Reveal on scroll under reduced motion *)

Lemma reveal_loop (xs : list Element) (w : RevealWorld) :
  ∃ w',
    forEach xs (λ el, bind (modify (el_style_set el "opacity" "1")) (λ _,
                      modify (el_style_set el "transform" "none"))) w = (Normal tt, w') ∧
    elClass w' = elClass w ∧ observers w' = observers w ∧ observed w' = observed w ∧
    pendingTimeouts w' = pendingTimeouts w ∧
    (∀ el, el ∈ xs → elStyle w' !! (el, "opacity") = Some "1" ∧
                     elStyle w' !! (el, "transform") = Some "none") ∧
    (∀ el prop, el ∉ xs ∨ (prop ≠ "opacity" ∧ prop ≠ "transform") →
                elStyle w' !! (el, prop) = elStyle w !! (el, prop)).
Proof.
  revert w. induction xs as [|x xs IH]; intros w.
  - exists w. do 5 (split; [reflexivity|]).
    split; [intros el Hel; inversion Hel | reflexivity].
  - destruct (IH (el_style_set x "transform" "none" (el_style_set x "opacity" "1" w)))
      as (w' & E & Hc & Ho & Hob & Hp & Hin & Hout).
    exists w'. split; [exact E|]. simpl in Hc, Ho, Hob, Hp.
    split; [exact Hc|]. split; [exact Ho|]. split; [exact Hob|]. split; [exact Hp|]. split.
    + intros el Hel. destruct (decide (el ∈ xs)) as [Hxs|Hxs]; [exact (Hin el Hxs)|].
      apply elem_of_cons in Hel as [->|Hel]; [|contradiction].
      rewrite !Hout by (left; exact Hxs). simpl. split.
      * rewrite lookup_insert_ne by congruence. apply lookup_insert_eq.
      * apply lookup_insert_eq.
    + intros el prop Hor. rewrite Hout.
      * simpl. rewrite !lookup_insert_ne; [reflexivity| |];
          intros Heq; injection Heq as <- <-;
          (destruct Hor as [Hn|[? ?]]; [apply Hn; left|congruence]).
      * destruct Hor as [Hn|Hp']; [left|right; exact Hp'].
        intros Hc'. apply Hn. right. exact Hc'.
Qed.

Lemma visible_loop (xs : list Element) (w : RevealWorld) :
  ∃ w',
    forEach xs (λ el, modify (el_classList_add el Pro1.visibleClass)) w = (Normal tt, w') ∧
    elStyle w' = elStyle w ∧ observers w' = observers w ∧ observed w' = observed w ∧
    pendingTimeouts w' = pendingTimeouts w ∧
    (∀ el, el ∈ xs → (el, Pro1.visibleClass) ∈ elClass w') ∧
    elClass w ⊆ elClass w'.
Proof.
  revert w. induction xs as [|x xs IH]; intros w.
  - exists w. do 5 (split; [reflexivity|]).
    split; [intros el Hel; inversion Hel | reflexivity].
  - destruct (IH (el_classList_add x Pro1.visibleClass w))
      as (w' & E & Hs & Ho & Hob & Hp & Hin & Hsub).
    exists w'. split; [exact E|]. simpl in Hs, Ho, Hob, Hp, Hsub.
    split; [exact Hs|]. split; [exact Ho|]. split; [exact Hob|]. split; [exact Hp|]. split.
    + intros el Hel. apply elem_of_cons in Hel as [->|Hel]; [|exact (Hin el Hel)].
      apply Hsub, elem_of_union_l, elem_of_singleton. reflexivity.
    + intros k Hk. apply Hsub, elem_of_union_r, Hk.
Qed.

(** ** The fragment loader *)

Lemma fetch_text_cases net url failure (w : LoaderWorld) :
  fetch_text net url failure w =
    match fetch_error (net url) failure with
    | Some error => (Thrown error, w)
    | None => (Normal (default [] (fetched (net url))), w)
    end.
Proof.
  unfold fetch_text, fetch_error, fetched.
  destruct (net url) as [reason|status statusText [html|reason]];
    try reflexivity; destruct (response_ok status); reflexivity.
Qed.

Lemma fetch_error_fetched o failure :
  fetch_error o failure = None ↔ is_Some (fetched o).
Proof.
  unfold fetch_error, fetched.
  destruct o as [reason|status statusText [html|reason]]; simpl;
    try destruct (response_ok status); simpl; split;
    try discriminate; try (intros [? ?]; discriminate); eauto.
Qed.

Lemma V5_1_outcome net url id w p :
  getElementById id (document w) = Some p →
  V5_1.fetchAndInject net url id w =
    (Normal tt,
     match fetch_error (net url) (V5_1.failure url) with
     | None => with_document (replace_at p (default [] (fetched (net url)))) w
     | Some error =>
         with_document (set_innerHTML p (V5_1.fallback url))
           (console_error [LogText ("Error loading component: " +:+ String_of_Exn error)] w)
     end).
Proof.
  intros Hp. unfold V5_1.fetchAndInject, bind, gets. rewrite Hp.
  unfold try_catch. rewrite fetch_text_cases.
  destruct (fetch_error (net url) (V5_1.failure url)); reflexivity.
Qed.

Lemma V5_1_absent net url id w :
  getElementById id (document w) = None →
  V5_1.fetchAndInject net url id w = (Normal tt, w).
Proof. intros Hp. unfold V5_1.fetchAndInject, bind, gets. rewrite Hp. reflexivity. Qed.

Lemma V6Loader_outcome net url id w p :
  getElementById id (document w) = Some p →
  V6Loader.fetchAndInject net url id w =
    (Normal tt,
     if V6Loader.falsy (cache w !! url) then
       match fetch_error (net url) V6Loader.failure with
       | None =>
           with_document (V6Loader.inject p (default [] (fetched (net url))))
             (cache_set url (default [] (fetched (net url))) w)
       | Some error =>
           with_document (set_innerHTML p V6Loader.fallback)
             (console_error [LogText ("Component loading failed for " +:+ url +:+ ":");
                             LogError error] w)
       end
     else with_document (V6Loader.inject p (default [] (cache w !! url))) w).
Proof.
  intros Hp. unfold V6Loader.fetchAndInject, bind, gets. rewrite Hp.
  unfold try_catch. destruct (V6Loader.falsy (cache w !! url)).
  - rewrite fetch_text_cases.
    destruct (fetch_error (net url) V6Loader.failure); [reflexivity|].
    unfold V6Loader.inject, modify, ret. simpl.
    destruct (firstElementChild _); reflexivity.
  - unfold V6Loader.inject, ret. destruct (firstElementChild _); reflexivity.
Qed.

Lemma V6Loader_absent net url id w :
  getElementById id (document w) = None →
  V6Loader.fetchAndInject net url id w = (Normal tt, w).
Proof. intros Hp. unfold V6Loader.fetchAndInject, bind, gets. rewrite Hp. reflexivity. Qed.

(** ** The sample page *)

Lemma V6_run_nil (w : V6.World) : V6.run [] w = w.
Proof. reflexivity. Qed.

Lemma sample_trigger_click :
  trigger_click Sample.toggle (q_focusable Sample.page) Sample.on_trigger.
Proof.
  split; [|split].
  - compute_done.
  - compute_done.
  - apply Forall_forall. compute_done.
Qed.

Lemma sample_link_click :
  link_click Sample.toggle (q_focusable Sample.page) Sample.on_link_b.
Proof. split; [compute_done|]. exists Sample.link_b. split; compute_done. Qed.

Lemma sample_outside_click : outside_click Sample.toggle Sample.panel Sample.on_content.
Proof. split; compute_done. Qed.

(** ** Further lemmas, one group per module of the scripts *)

(** ** Dispatch when no callback throws

    If every callback returns normally and keeps [I], nothing is ever
    reported on the console, and the dispatch of any event keeps [I]. *)
Section NoThrow.
Context {N H : Type} `{EqDecision H}.
Variable invoke : H → Event → JS (World N H) unit.
Variable I : World N H → Prop.

Hypothesis invoke_normal : ∀ h ev w, I w → ∃ w', invoke h ev w = (Normal tt, w') ∧ I w'.
Hypothesis prevented_keeps : ∀ w, I w → I (set_defaultPrevented false w).
Hypothesis width_keeps : ∀ x w, I w → I (with_dom (set_innerWidth x) w).
Hypothesis frames_keeps : ∀ w, I w → I (set_frameQueue [] w).
Hypothesis timers_keeps : ∀ i w, I w → I (set_timers (delete i (timers w)) w).

Lemma run_callback_normal h ev w :
  I w → ∃ w', run_callback invoke h ev w = (Normal tt, w') ∧ I w'.
Proof.
  intros Hw. destruct (invoke_normal h ev w Hw) as (w' & E & H').
  exists w'. unfold run_callback, try_catch. rewrite E. auto.
Qed.

Lemma fire_normal t ty ev w :
  I w → ∃ w', fire invoke t ty ev w = (Normal tt, w') ∧ I w'.
Proof.
  intros Hw. unfold fire, bind, gets.
  apply forEach_preserves; [|assumption].
  intros l s Hs. apply run_callback_normal, Hs.
Qed.

Lemma dispatch_normal ev w :
  I w → ∃ w', dispatch invoke ev w = (Normal tt, w') ∧ I w'.
Proof.
  intros Hw. pose proof (prevented_keeps w Hw) as H0.
  destruct ev as [path|k s|x| |i].
  - rewrite dispatch_Click.
    destruct (forEach_preserves I path (λ e, fire invoke (OnElement e) click (Click path))
                (λ e s, fire_normal _ _ _ s) _ H0) as (w1 & E1 & H1).
    unfold bind at 1. rewrite E1. unfold bind at 1.
    destruct (fire_normal OnDocument click (Click path) w1 H1) as (w2 & E2 & H2).
    rewrite E2. apply fire_normal, H2.
  - rewrite dispatch_Keydown. unfold bind at 1.
    destruct (fire_normal OnDocument keydown (Keydown k s) _ H0) as (w1 & E1 & H1).
    rewrite E1. apply fire_normal, H1.
  - rewrite dispatch_Resize. apply fire_normal, width_keeps, H0.
  - rewrite dispatch_AnimationFrame.
    apply forEach_preserves; [|apply frames_keeps, H0].
    intros h s Hs. apply run_callback_normal, Hs.
  - rewrite dispatch_TimerFires.
    destruct (timers w !! i) as [[h ev']|]; [|eexists; split; [reflexivity|exact H0]].
    apply run_callback_normal. exact (timers_keeps i (set_defaultPrevented false w) H0).
Qed.

Lemma step_normal ev w : I w → I (step invoke ev w).
Proof.
  intros Hw. destruct (dispatch_normal ev w Hw) as (w' & E & H').
  unfold step, exec. rewrite E. exact H'.
Qed.

Lemma run_normal evs w : I w → I (run invoke evs w).
Proof.
  revert w. induction evs as [|ev evs IH]; intros w Hw; simpl; [assumption|].
  apply IH, step_normal, Hw.
Qed.
End NoThrow.

(** The dispatch clears the event's flag before anything else. *)
Lemma step_from_cleared {N H : Type} `{EqDecision H}
    (invoke : H → Event → JS (World N H) unit) (ev : Event) (w : World N H) :
  step invoke ev w = step invoke ev (set_defaultPrevented false w).
Proof. reflexivity. Qed.

Lemma contains_removed c d : classList_contains c (classList_remove c d) = false.
Proof.
  unfold classList_contains, classList_remove. simpl.
  apply bool_decide_eq_false_2. intros [_ Hn]%elem_of_difference.
  apply Hn, elem_of_singleton. reflexivity.
Qed.

Lemma contains_added c d : classList_contains c (classList_add c d) = true.
Proof.
  unfold classList_contains, classList_add. simpl.
  apply bool_decide_eq_true_2, elem_of_union_l, elem_of_singleton. reflexivity.
Qed.

Lemma V8_run_nil (w : V8.World) : V8.run [] w = w.
Proof. reflexivity. Qed.

Lemma Pro1_run_nil (w : Pro1.World) : Pro1.run [] w = w.
Proof. reflexivity. Qed.

Lemma V5_1Nav_run_nil (w : V5_1Nav.World) : V5_1Nav.run [] w = w.
Proof. reflexivity. Qed.

Lemma toggle_force_keeps c b d :
  activeElement (classList_toggle_force c b d) = activeElement d ∧
  bodyOverflow (classList_toggle_force c b d) = bodyOverflow d ∧
  attrs (classList_toggle_force c b d) = attrs d.
Proof. destruct b; repeat split. Qed.

(** ** Version 6.0: the marker, the hidden attribute and the focus on closing *)

Module V6Further.
Import V6 V6Facts.

(** The events that close an open panel. *)
Section Ready.
Variables (t n : Element) (fs : list Element).

Lemma v6_closeMenu_mirrored w :
  Ready t n fs w →
  Mirrored n (exec closeMenu w) ∧
  activeElement (dom (exec closeMenu w))
    = (if can_focus t (dom (exec closeMenu w)) then Some t else activeElement (dom w)).
Proof.
  intros HR. unfold exec. rewrite (v6_closeMenu_ready t n fs w HR). simpl.
  split; [split|reflexivity]; simpl.
  - apply contains_removed.
  - unfold getAttribute. simpl. apply lookup_insert_eq.
Qed.

(** The marker and the hidden attribute follow the flag through every call. *)
Lemma v6_invoke_mirrored h ev w :
  Ready t n fs w → Mirrored n w → Mirrored n (exec (invoke h ev) w).
Proof.
  intros HR [HM1 HM2]. open_world w. use_ready HR. unfold Mirrored, exec in *.
  simpl in HM1, HM2.
  destruct o, (head fs) as [f|], (last fs) as [l|];
  (destruct h; [ | destruct ev | destruct ev | | | ]); simpl;
    unfold toggleMenu, handleKeydown, handleTabNavigation, outsideClick, linkClick,
           handleResize, focusFirst, closeMenu, openMenu, elements_body,
           elements_toggleButton, elements_navContainer, trapFocus, deref, bind, gets,
           modify, ret, throw;
    crunch;
    (split;
     [first [exact HM1 | apply contains_removed | apply contains_added]
     |first [exact HM2 | unfold getAttribute; simpl; apply lookup_insert_eq]]).
Qed.

(** What the calls leave alone: no timer is started, nothing is logged, and
    the only frame callback ever requested is the focus move. *)
Lemma v6_invoke_queues h ev w :
  Ready t n fs w →
  timers (exec (invoke h ev) w) = timers w ∧
  console (exec (invoke h ev) w) = console w ∧
  (frameQueue (exec (invoke h ev) w) = frameQueue w ∨
   frameQueue (exec (invoke h ev) w) = frameQueue w ++ [H_focusFirst]).
Proof.
  intros HR. open_world w. use_ready HR. unfold exec.
  destruct o, (head fs) as [f|], (last fs) as [l|];
  (destruct h; [ | destruct ev | destruct ev | | | ]); simpl;
    unfold toggleMenu, handleKeydown, handleTabNavigation, outsideClick, linkClick,
           handleResize, focusFirst, closeMenu, openMenu, elements_body,
           elements_toggleButton, elements_navContainer, trapFocus, deref, bind, gets,
           modify, ret, throw;
    crunch; auto.
Qed.

Local Abbreviation M := (λ w, Ready t n fs w ∧ Mirrored n w).
Local Abbreviation K := (λ w, Ready t n fs w ∧ Calm w).

Lemma v6_M_step ev w : M w → M (step ev w).
Proof.
  intros HM. unfold step. apply (step_keeps invoke M).
  - intros h ev0 w0 [HR0 HM0]. split; [apply v6_I_exec, HR0|apply v6_invoke_mirrored; assumption].
  - intros msg w0 [HR0 HM0]. split; assumption.
  - intros b w0 [HR0 HM0]. split; assumption.
  - intros x w0 [HR0 HM0]. split; assumption.
  - intros w0 [HR0 HM0]. split; assumption.
  - intros i w0 [HR0 HM0]. split; assumption.
  - exact HM.
Qed.

Lemma v6_M_run evs w : M w → M (run evs w).
Proof.
  revert w. induction evs as [|ev evs IH]; intros w HM; [exact HM|].
  apply IH, v6_M_step, HM.
Qed.

Lemma v6_invoke_K h ev w : K w → ∃ w', invoke h ev w = (Normal tt, w') ∧ K w'.
Proof.
  intros (HR & Hq & Ht & Hc).
  destruct (v6_invoke_keeps t n fs h ev w HR) as (w' & E & HR').
  destruct (v6_invoke_queues h ev w HR) as (Ht' & Hc' & Hq').
  unfold exec in Ht', Hc', Hq'. rewrite E in Ht', Hc', Hq'. simpl in Ht', Hc', Hq'.
  exists w'. split; [exact E|]. split; [exact HR'|].
  split; [|split; congruence].
  destruct Hq' as [-> | ->]; [exact Hq|].
  apply Forall_app. split; [exact Hq|]. apply Forall_cons. split; [reflexivity|constructor].
Qed.

Lemma v6_K_step ev w : K w → K (step ev w).
Proof.
  intros HK. unfold step. apply (step_normal invoke K).
  - exact v6_invoke_K.
  - intros w0 (? & ?). auto.
  - intros x w0 (? & ?). auto.
  - intros w0 (HR0 & _ & Ht0 & Hc0).
    split; [exact HR0|]. split; [constructor|]. split; assumption.
  - intros i w0 (HR0 & Hq0 & Ht0 & Hc0).
    split; [exact HR0|]. split; [exact Hq0|].
    split; [simpl; rewrite Ht0; reflexivity | exact Hc0].
  - exact HK.
Qed.

Lemma v6_K_run evs w : K w → K (run evs w).
Proof.
  revert w. induction evs as [|ev evs IH]; intros w HK; [exact HK|].
  apply IH, v6_K_step, HK.
Qed.

(** Each closing event leaves an open panel as [closeMenu] leaves it. *)
Lemma v6_closing_step ev w :
  Ready t n fs w → isOpen (nav w) = true → closes_panel t n fs ev →
  ∃ w0, Ready t n fs w0 ∧ frameQueue w0 = frameQueue w ∧ defaultPrevented w0 = false ∧
        activeElement (dom w0) = activeElement (dom w) ∧
        step ev w = exec closeMenu w0.
Proof.
  intros HR Ho Hev. pose proof (v6_I_prevented t n fs false w HR) as H0.
  destruct ev as [path|k s|x| |i]; simpl in Hev; try contradiction.
  - exists (set_defaultPrevented false w). split; [exact H0|]. do 3 (split; [reflexivity|]).
    destruct Hev as [Htc|[Hlc|Hout]].
    + rewrite (v6_step_trigger t n fs path w HR Htc).
      unfold exec, toggleMenu, bind, gets. simpl. rewrite Ho. reflexivity.
    + apply (v6_step_link t n fs path w HR Ho Hlc).
    + destruct (decide (Exists (λ l, l ∈ path) fs)) as [Hl|Hnl].
      * apply Exists_exists in Hl.
        apply (v6_step_link t n fs path w HR Ho). split; [apply Hout|exact Hl].
      * rewrite v6_step_exec. unfold exec.
        rewrite (v6_dispatch_click t n fs path w (set_defaultPrevented false w) HR).
        -- rewrite (v6_outsideClick_outside t n fs path _ H0 Ho Hout). reflexivity.
        -- apply (v6_path_no_listener t n fs); [exact H0|apply Hout|].
           intros l Hl Hp. apply Hnl, Exists_exists. eauto.
  - subst k. exists (set_defaultPrevented false w). split; [exact H0|].
    do 3 (split; [reflexivity|]).
    rewrite (v6_step_keydown t n fs) by exact HR.
    unfold exec, handleKeydown, bind, gets. simpl. rewrite Ho. reflexivity.
  - exists (with_dom (set_innerWidth x) (set_defaultPrevented false w)).
    split; [exact H0|]. do 3 (split; [reflexivity|]).
    apply (v6_resize_closes t n fs x w HR Ho Hev).
Qed.

(** A frame on a page whose queue holds focus moves only. *)
Lemma v6_frame_step w :
  Ready t n fs w → Forall (λ h, h = H_focusFirst) (frameQueue w) →
  step AnimationFrame w =
    match head fs with
    | Some f => if decide (frameQueue w = []) then set_frameQueue [] (set_defaultPrevented false w)
                else with_dom (focus f) (set_frameQueue [] (set_defaultPrevented false w))
    | None => set_frameQueue [] (set_defaultPrevented false w)
    end.
Proof.
  intros HR Hq. rewrite v6_step_exec. unfold exec, dispatch. rewrite dispatch_AnimationFrame.
  assert (HR0 : Ready t n fs (set_frameQueue [] (set_defaultPrevented false w))) by exact HR.
  revert HR0. generalize (set_frameQueue [] (set_defaultPrevented false w)). intros v HRv.
  assert (Hgen : ∀ q u, Forall (λ h, h = H_focusFirst) q → Ready t n fs u →
            snd (forEach q (λ h, run_callback invoke h AnimationFrame) u) =
              match head fs with
              | Some f => if decide (q = []) then u else with_dom (focus f) u
              | None => u
              end).
  { clear. induction q as [|h q IH]; intros u Hall HRu.
    - simpl. destruct (head fs); reflexivity.
    - apply Forall_cons in Hall as [-> Hall]. simpl forEach. unfold bind.
      rewrite (v6_run_callback_ready t n fs H_focusFirst AnimationFrame u HRu). simpl invoke.
      pose proof HRu as (_ & _ & Hff & _).
      unfold focusFirst at 1. unfold bind, gets. rewrite Hff.
      destruct (head fs) as [f|] eqn:Hf.
      + unfold modify. rewrite (IH _ Hall) by exact HRu.
        destruct (decide (q = [])); destruct (decide (_ :: q = [])); try discriminate;
          try reflexivity.
        unfold with_dom. simpl. rewrite focus_idem. reflexivity.
      + unfold ret. rewrite (IH _ Hall HRu). reflexivity. }
  rewrite (Hgen _ _ Hq HRv). destruct (head fs); [|reflexivity].
  destruct (decide (frameQueue w = [])); reflexivity.
Qed.

End Ready.

Lemma v6_boot_M p d t n :
  q_toggle p = Some t → q_nav p = Some n → classList_contains "mobile-nav-open" d = false →
  Ready t n (q_focusable p) (boot p d) ∧ Mirrored n (boot p d).
Proof.
  intros Ht Hn Hc. destruct (v6_boot_ready p d t n Ht Hn) as (_ & [HR _] & Ho).
  split; [exact HR|]. revert Ho. unfold Mirrored, boot, exec, init. rewrite Ht, Hn.
  unfold bindEvents, setupAccessibility, elements_toggleButton, elements_navContainer.
  unfold bind, gets. simpl. rewrite v6_bind_links. simpl. intros _.
  split.
  - exact Hc.
  - unfold getAttribute. simpl. apply lookup_insert_eq.
Qed.

Lemma v6_boot_K p d t n :
  q_toggle p = Some t → q_nav p = Some n →
  Ready t n (q_focusable p) (boot p d) ∧ Calm (boot p d).
Proof.
  intros Ht Hn. destruct (v6_boot_ready p d t n Ht Hn) as (_ & [HR _] & Ho).
  split; [exact HR|]. revert Ho. unfold Calm, boot, exec, init. rewrite Ht, Hn.
  unfold bindEvents, setupAccessibility, elements_toggleButton, elements_navContainer.
  unfold bind, gets. simpl. rewrite v6_bind_links. simpl. intros _.
  repeat split. constructor.
Qed.

End V6Further.

(** ** Version 8.0: mirrored state, keys, and the debounced handlers *)

Module V8Further.
Import V8 V8Facts.

Section Ready.
Variables (t n : Element) (fs : list Element).

(** The attribute and the marker follow the flag through every call. *)
Lemma v8_invoke_attr h ev w :
  Ready t n fs w →
  getAttribute t "aria-expanded" (dom w) = Some (String_of_bool (isOpen (nav w))) →
  getAttribute t "aria-expanded" (dom (exec (invoke h ev) w))
    = Some (String_of_bool (isOpen (nav (exec (invoke h ev) w)))).
Proof.
  intros HR HS1. open_world w. use_ready HR. unfold exec in *. simpl in HS1.
  destruct o; (destruct h; [ | destruct ev | | destruct ev | | | | ]); simpl;
    unfold toggle, handleKeydown, handleOutsideClick, linkClick, resizeCheck, focusFirst,
           close, open, elements_body, elements_toggle, elements_nav, deref, bind, gets,
           modify, ret, throw;
    crunch; try (destruct (item fs 0); simpl);
    first [exact HS1 | unfold getAttribute; simpl; apply lookup_insert_eq].
Qed.

Lemma v8_invoke_class h ev w :
  Ready t n fs w →
  classList_contains "mobile-nav-open" (dom w) = isOpen (nav w) →
  classList_contains "mobile-nav-open" (dom (exec (invoke h ev) w))
    = isOpen (nav (exec (invoke h ev) w)).
Proof.
  intros HR HS2. open_world w. use_ready HR. unfold exec in *. simpl in HS2.
  destruct o; (destruct h; [ | destruct ev | | destruct ev | | | | ]); simpl;
    unfold toggle, handleKeydown, handleOutsideClick, linkClick, resizeCheck, focusFirst,
           close, open, elements_body, elements_toggle, elements_nav, deref, bind, gets,
           modify, ret, throw;
    crunch; try (destruct (item fs 0); simpl);
    first [exact HS2 | apply contains_removed | apply contains_added].
Qed.

(** No call reports anything, suppresses a default action or requests a
    frame other than the focus move. *)
Lemma v8_invoke_calm h ev w :
  Ready t n fs w →
  console (exec (invoke h ev) w) = console w ∧
  defaultPrevented (exec (invoke h ev) w) = defaultPrevented w ∧
  (frameQueue (exec (invoke h ev) w) = frameQueue w ∨
   frameQueue (exec (invoke h ev) w) = frameQueue w ++ [H_focusFirst]).
Proof.
  intros HR. open_world w. use_ready HR. unfold exec.
  destruct o; (destruct h; [ | destruct ev | | destruct ev | | | | ]); simpl;
    unfold toggle, handleKeydown, handleOutsideClick, linkClick, resizeCheck, focusFirst,
           close, open, elements_body, elements_toggle, elements_nav, deref, bind, gets,
           modify, ret, throw;
    crunch; try (destruct (item fs 0); simpl); auto.
Qed.

(** The pending timers after a call: untouched, or re-armed for one of the
    two debounced functions. *)
Lemma v8_invoke_timers h ev w :
  Ready t n fs w →
  timers (exec (invoke h ev) w) = timers w ∨
  ∃ g, (g = H_handleOutsideClick ∨ g = H_resizeCheck) ∧
       timers (exec (invoke h ev) w) = filter (λ p, p.1 ≠ g) (timers w) ++ [(g, ev)].
Proof.
  intros HR. open_world w. use_ready HR. unfold exec.
  destruct o; (destruct h; [ | destruct ev | | destruct ev | | | | ]); simpl;
    unfold toggle, handleKeydown, handleOutsideClick, linkClick, resizeCheck, focusFirst,
           close, open, elements_body, elements_toggle, elements_nav, deref, bind, gets,
           modify, ret, throw;
    crunch; try (destruct (item fs 0); simpl); eauto.
Qed.

Lemma v8_NoDup_rearmed (g : Handler) (ev : Event) (ts : list (Handler * Event)) :
  NoDup (fst <$> ts) → NoDup (fst <$> (filter (λ p, p.1 ≠ g) ts ++ [(g, ev)])).
Proof.
  intros Hnd. rewrite fmap_app. apply NoDup_app. split; [|split].
  - induction ts as [|[h e] ts IH]; [constructor|].
    simpl in Hnd. apply NoDup_cons in Hnd as [Hh Hnd].
    destruct (decide (h ≠ g)).
    + rewrite filter_cons_True by assumption. simpl. apply NoDup_cons. split; [|auto].
      intros Hin. apply Hh. apply list_elem_of_fmap in Hin as ([h' e'] & -> & Hin).
      apply list_elem_of_filter in Hin as [_ Hin].
      apply list_elem_of_fmap. exists (h', e'). auto.
    + rewrite filter_cons_False by assumption. auto.
  - intros h Hin Hg. simpl in Hg. apply list_elem_of_singleton in Hg as ->.
    apply list_elem_of_fmap in Hin as ([h' e'] & Heq & Hin).
    apply list_elem_of_filter in Hin as [Hne _]. simpl in *. congruence.
  - simpl. apply NoDup_singleton.
Qed.

Lemma v8_NoDup_delete (i : nat) (ts : list (Handler * Event)) :
  NoDup (fst <$> ts) → NoDup (fst <$> delete i ts).
Proof.
  intros Hnd. apply (sublist_NoDup (fst <$> delete i ts) (fst <$> ts)); [exact Hnd|].
  apply fmap_sublist, sublist_delete.
Qed.

Local Abbreviation K :=
  (λ w, Inv t n fs w ∧
        getAttribute t "aria-expanded" (dom w) = Some (String_of_bool (isOpen (nav w))) ∧
        Debounced w ∧ Calm w ∧ defaultPrevented w = false).
Local Abbreviation M :=
  (λ w, Inv t n fs w ∧ classList_contains "mobile-nav-open" (dom w) = isOpen (nav w)).

Lemma v8_M_step ev w : M w → M (step ev w).
Proof.
  intros HM. unfold step. apply (step_keeps invoke M).
  - intros h ev0 w0 [HI0 HM0]. split; [apply v8_I_exec, HI0|].
    apply v8_invoke_class; [apply HI0|exact HM0].
  - intros msg w0 [HI0 HM0]. split; [apply v8_I_console, HI0|exact HM0].
  - intros b w0 [HI0 HM0]. split; [apply v8_I_prevented, HI0|exact HM0].
  - intros x w0 [HI0 HM0]. split; [apply v8_I_width, HI0|exact HM0].
  - intros w0 [HI0 HM0]. split; [apply v8_I_frames, HI0|exact HM0].
  - intros i w0 [HI0 HM0]. split; [apply v8_I_timers, HI0|exact HM0].
  - exact HM.
Qed.

Lemma v8_M_run evs w : M w → M (run evs w).
Proof.
  revert w. induction evs as [|ev evs IH]; intros w HM; [exact HM|].
  apply IH, v8_M_step, HM.
Qed.

Lemma v8_invoke_K h ev w : K w → ∃ w', invoke h ev w = (Normal tt, w') ∧ K w'.
Proof.
  intros (HI & HS & HD & (Hq & Hc) & Hp). pose proof HI as [HR _].
  destruct (v8_invoke_keeps t n fs h ev w HI) as (w' & E & HI').
  pose proof (v8_invoke_attr h ev w HR HS) as HS'.
  destruct (v8_invoke_calm h ev w HR) as (Hc' & Hp' & Hq').
  pose proof (v8_invoke_timers h ev w HR) as Ht'.
  unfold exec in HS', Hc', Hp', Hq', Ht'. rewrite E in HS', Hc', Hp', Hq', Ht'.
  simpl in Hc', Hp', Hq', Ht'.
  exists w'. split; [exact E|]. split; [exact HI'|]. split; [exact HS'|].
  split; [|split; [split|congruence]].
  - unfold Debounced in *. destruct Ht' as [-> | (g & _ & ->)]; [exact HD|].
    apply v8_NoDup_rearmed, HD.
  - destruct Hq' as [-> | ->]; [exact Hq|].
    apply Forall_app. split; [exact Hq|]. apply Forall_cons. split; [reflexivity|constructor].
  - congruence.
Qed.

Lemma v8_K_step ev w : K w → K (step ev w).
Proof.
  intros HK. unfold step. apply (step_normal invoke K).
  - exact v8_invoke_K.
  - intros w0 (HI0 & HS0 & HD0 & HC0 & _).
    split; [apply v8_I_prevented, HI0|]. auto.
  - intros x w0 (HI0 & HS0 & HD0 & HC0 & Hp0).
    split; [apply v8_I_width, HI0|]. auto.
  - intros w0 (HI0 & HS0 & HD0 & (_ & Hc0) & Hp0).
    split; [apply v8_I_frames, HI0|]. split; [exact HS0|]. split; [exact HD0|].
    split; [split; [constructor|exact Hc0]|exact Hp0].
  - intros i w0 (HI0 & HS0 & HD0 & HC0 & Hp0).
    split; [apply v8_I_timers, HI0|]. split; [exact HS0|].
    split; [apply v8_NoDup_delete, HD0|]. auto.
  - exact HK.
Qed.

Lemma v8_K_run evs w : K w → K (run evs w).
Proof.
  revert w. induction evs as [|ev evs IH]; intros w HK; [exact HK|].
  apply IH, v8_K_step, HK.
Qed.

Local Abbreviation I := (Inv t n fs).

Lemma v8_fire_trigger ev w :
  I w → t ∉ fs → fire invoke (OnElement t) click ev w = toggle w.
Proof.
  intros HI Hnl. pose proof HI as [HR _]. unfold fire, bind, gets.
  rewrite (v8_listeners_on_element t n fs t w HR).
  destruct (decide (t = t)); [|contradiction].
  rewrite filter_none by (intros x Hx ->; contradiction).
  simpl. unfold bind. rewrite (v8_run_callback_ready t n fs H_toggle ev w HI). simpl.
  destruct (toggle w) as [[[]|?] ?]; reflexivity.
Qed.

Lemma v8_path_no_listener ev path w :
  I w → t ∉ path → (∀ l, l ∈ fs → l ∉ path) →
  forEach path (λ e, fire invoke (OnElement e) click ev) w = (Normal tt, w).
Proof.
  intros HI Hnt Hnl. apply forEach_fixed. intros e He.
  apply (v8_fire_no_listener t n fs); [assumption| |].
  - intros ->. contradiction.
  - intros Hin. exact (Hnl e Hin He).
Qed.

Lemma v8_toggle_flips w :
  I w → ∃ w', toggle w = (Normal tt, w') ∧ I w' ∧ isOpen (nav w') = negb (isOpen (nav w)).
Proof.
  intros HI. unfold toggle, bind, gets. destruct (isOpen (nav w)) eqn:Ho.
  - destruct (v8_close_keeps t n fs w HI) as (w' & E & H' & Ho'). eauto.
  - destruct (v8_open_keeps t n fs w HI) as (w' & E & H' & Ho'). eauto.
Qed.

Lemma v8_path_trigger ev path w :
  I w → trigger_click t fs path →
  forEach path (λ e, fire invoke (OnElement e) click ev) w = toggle w.
Proof.
  intros HI (Hnd & Hin & Hnl).
  apply list_elem_of_split in Hin as (l1 & l2 & ->).
  apply NoDup_app in Hnd as (_ & Hd1 & Hd2). apply NoDup_cons in Hd2 as (Ht2 & _).
  assert (Ht1 : t ∉ l1) by (intros Hc; apply (Hd1 t Hc); left).
  assert (Htfs : t ∉ fs) by (intros Hc; apply (Hnl t Hc), elem_of_app; right; left).
  rewrite forEach_app. unfold bind.
  rewrite v8_path_no_listener; [|assumption|assumption|].
  2:{ intros l Hl Hc. apply (Hnl l Hl), elem_of_app. left. exact Hc. }
  simpl. unfold bind. rewrite (v8_fire_trigger ev w HI Htfs).
  destruct (v8_toggle_flips w HI) as (w1 & E1 & H1 & _).
  rewrite E1. apply v8_path_no_listener; [assumption|assumption|].
  intros l Hl Hc. apply (Hnl l Hl), elem_of_app. right. right. exact Hc.
Qed.

(** An activation toggles, and arms the outside-click timer with itself. *)
Lemma v8_step_trigger path w :
  I w → trigger_click t fs path →
  step (Click path) w =
    debounced H_handleOutsideClick (Click path) (exec toggle (set_defaultPrevented false w)).
Proof.
  intros HI Htc. pose proof (v8_I_prevented t n fs false w HI) as H0.
  destruct (v8_toggle_flips _ H0) as (w1 & E1 & H1 & _).
  unfold exec. rewrite E1. apply (v8_step_click t n fs); [exact HI| |exact H1].
  rewrite (v8_path_trigger _ path _ H0 Htc). exact E1.
Qed.

(** A click that meets no listener on its path only arms the timer. *)
Lemma v8_step_elsewhere path w :
  I w → t ∉ path → (∀ l, l ∈ fs → l ∉ path) →
  step (Click path) w =
    debounced H_handleOutsideClick (Click path) (set_defaultPrevented false w).
Proof.
  intros HI Hnt Hnl. pose proof (v8_I_prevented t n fs false w HI) as H0.
  apply (v8_step_click t n fs); [exact HI| |exact H0].
  apply v8_path_no_listener; assumption.
Qed.

(** The pending call of a debounced function is the one just made. *)
Lemma v8_debounced_lookup (g : Handler) (ev ev' : Event) (w : World) (i : nat) :
  timers (debounced g ev w) !! i = Some (g, ev') → ev' = ev.
Proof.
  unfold debounced. simpl. intros Hi.
  apply lookup_app_Some in Hi as [Hi|[_ Hi]].
  - apply list_elem_of_lookup_2, list_elem_of_filter in Hi as [Hne _]. simpl in Hne.
    contradiction.
  - apply list_lookup_singleton_Some in Hi as [_ Heq]. congruence.
Qed.

Lemma v8_debounced_pending (g : Handler) (ev : Event) (w : World) :
  filter (λ p, p.1 = g) (timers (debounced g ev w)) = [(g, ev)].
Proof.
  unfold debounced. simpl. rewrite filter_app.
  rewrite filter_cons_True by reflexivity. rewrite filter_nil.
  rewrite filter_none; [reflexivity|].
  intros p Hp. apply list_elem_of_filter in Hp as [Hne _]. exact Hne.
Qed.

(** When the timer of the outside-click check runs out. *)
Lemma v8_outside_timer i path w :
  I w → timers w !! i = Some (H_handleOutsideClick, Click path) →
  step (TimerFires i) w =
    if isOpen (nav w) && negb (on_path n path) && negb (on_path t path)
    then exec close (set_timers (delete i (timers w)) (set_defaultPrevented false w))
    else set_timers (delete i (timers w)) (set_defaultPrevented false w).
Proof.
  intros HI Hi. rewrite (v8_step_timer t n fs i _ _ w HI Hi).
  pose proof HI as [(He & _) _].
  unfold exec at 1. simpl invoke. unfold handleOutsideClick, bind, gets. simpl.
  destruct (isOpen (nav w)); simpl; [|reflexivity].
  unfold elements_nav, elements_toggle, bind, gets. simpl. rewrite He. simpl.
  destruct (on_path n path); simpl; [reflexivity|].
  rewrite He. simpl. destruct (on_path t path); reflexivity.
Qed.

End Ready.

Lemma v8_boot_K p d t n :
  q_toggle p = Some t → q_nav p = Some n →
  Inv t n (q_focusable p) (boot p d) ∧
  getAttribute t "aria-expanded" (dom (boot p d))
    = Some (String_of_bool (isOpen (nav (boot p d)))) ∧
  Debounced (boot p d) ∧ Calm (boot p d) ∧ defaultPrevented (boot p d) = false ∧
  bodyClass (dom (boot p d)) = bodyClass d.
Proof.
  intros Ht Hn. destruct (v8_boot_ready p d t n Ht Hn) as (HI & Ho).
  split; [exact HI|]. revert Ho.
  unfold Debounced, Calm, boot, exec, init, cacheElements. rewrite Ht, Hn.
  unfold bindEvents, setupAccessibility, elements_toggle.
  unfold bind, gets. simpl. rewrite v8_bind_links. simpl. intros _.
  split.
  - unfold getAttribute. simpl. rewrite lookup_insert_ne by congruence. apply lookup_insert_eq.
  - repeat split; constructor.
Qed.

End V8Further.

(** ** Professional Edition 1.0: closing, the scroll lock, and a panel without links *)

Module Pro1Further.
Import Pro1 Pro1Facts.

Section Ready.
Variables (t n : Element) (fs : list Element).
Local Abbreviation I := (Ready t n fs).

Lemma pro1_contains_focus c e d : classList_contains c (focus e d) = classList_contains c d.
Proof. reflexivity. Qed.

(** [toggleMenu] on an open panel. *)
Lemma pro1_toggleMenu_closes w :
  I w → isNavOpen w = true →
  toggleMenu w =
    (Normal tt,
     with_dom (λ d, set_bodyOverflow EmptyString
                 (setAttribute t "aria-expanded" "false" (classList_remove openBodyClass d))) w).
Proof.
  intros (Ht & _) Ho. unfold isNavOpen in Ho.
  unfold toggleMenu, bind, gets, classList_toggle. rewrite Ho. simpl.
  unfold bind, gets, modify. simpl. rewrite Ht. reflexivity.
Qed.

(** [toggleMenu] on a closed panel that holds no focusable element: the
    panel is opened, then [this.firstFocusable.focus()] throws. *)
Lemma pro1_toggleMenu_throws w :
  I w → isNavOpen w = false → head fs = None →
  toggleMenu w =
    (Thrown (TypeError "this.firstFocusable"),
     with_dom (λ d, set_bodyOverflow "hidden"
                 (setAttribute t "aria-expanded" "true" (classList_add openBodyClass d))) w).
Proof.
  intros (Ht & _ & _ & Hff & _) Ho Hf. unfold isNavOpen in Ho.
  unfold toggleMenu, bind, gets, classList_toggle. rewrite Ho. simpl.
  unfold bind, gets, modify. simpl. rewrite Ht. simpl. rewrite Hff, Hf. reflexivity.
Qed.

(** A click whose path goes through the trigger runs [toggleMenu], once. *)
Lemma pro1_step_trigger path w :
  I w → NoDup path → t ∈ path →
  step (Click path) w =
    exec (run_callback invoke H_toggleMenu (Click path)) (set_defaultPrevented false w).
Proof.
  intros HI Hnd Hin. pose proof (pro1_I_prevented t n fs false w HI) as H0.
  apply list_elem_of_split in Hin as (l1 & l2 & ->).
  apply NoDup_app in Hnd as (_ & Hd1 & Hd2). apply NoDup_cons in Hd2 as (Ht2 & _).
  assert (Ht1 : t ∉ l1) by (intros Hc; apply (Hd1 t Hc); left).
  destruct (run_callback_keeps invoke I (pro1_invoke_keeps t n fs) (λ _ _ H, H)
              H_toggleMenu (Click (l1 ++ t :: l2)) _ H0) as (w1 & E1 & H1).
  rewrite pro1_step_exec. unfold exec, dispatch. rewrite dispatch_Click.
  unfold bind at 1. rewrite forEach_app.
  unfold bind at 1. rewrite (pro1_path_without_trigger t n fs _ l1 _ H0 Ht1).
  simpl forEach. unfold bind at 1. rewrite (pro1_fire_element t n fs t _ _ H0).
  destruct (decide (t = t)); [|contradiction].
  rewrite E1. rewrite (pro1_path_without_trigger t n fs _ l2 _ H1 Ht2).
  unfold bind. rewrite (pro1_fire_document_click t n fs _ _ H1), (pro1_fire_window t n fs _ _ _ H1).
  reflexivity.
Qed.

(** Nothing but a click through the trigger and a key reaches a listener. *)
Lemma pro1_step_elsewhere ev w :
  I w →
  match ev with
  | Click path => t ∉ path
  | Keydown _ _ => False
  | _ => True
  end →
  step ev w =
    match ev with
    | Resize x => with_dom (set_innerWidth x) (set_defaultPrevented false w)
    | _ => set_defaultPrevented false w
    end.
Proof.
  intros HI Hev. pose proof (pro1_I_prevented t n fs false w HI) as H0.
  rewrite pro1_step_exec. unfold exec, dispatch.
  destruct ev as [path|k s|x| |i]; try contradiction.
  - rewrite dispatch_Click. unfold bind.
    rewrite (pro1_path_without_trigger t n fs _ path _ H0 Hev).
    rewrite (pro1_fire_document_click t n fs _ _ H0), (pro1_fire_window t n fs _ _ _ H0).
    reflexivity.
  - rewrite dispatch_Resize. rewrite (pro1_fire_window t n fs); [reflexivity|exact H0].
  - rewrite dispatch_AnimationFrame.
    destruct HI as (_ & _ & _ & _ & _ & _ & Hq & _). rewrite Hq. simpl.
    destruct w; simpl in *; subst; reflexivity.
  - rewrite dispatch_TimerFires.
    destruct HI as (_ & _ & _ & _ & _ & _ & _ & Htm). rewrite Htm. reflexivity.
Qed.

(** What a key does: Escape on an open panel toggles; anything else leaves
    the body's classes and its scroll lock alone. *)
Lemma pro1_handleKeydown_cases k s w :
  I w →
  exec (handleKeydown k s) w = exec toggleMenu w ∨
  (bodyClass (dom (exec (handleKeydown k s) w)) = bodyClass (dom w) ∧
   bodyOverflow (dom (exec (handleKeydown k s) w)) = bodyOverflow (dom w)).
Proof.
  intros HR. destruct w as [d [tb nc fe ff lf] ls fq ts dp cs].
  destruct HR as (H1 & H2 & H3 & H4 & H5 & H6 & H7 & H8).
  simpl in H1, H2, H3, H4, H5, H6, H7, H8. subst. unfold exec.
  destruct (head fs) as [f|], (last fs) as [l|];
    unfold handleKeydown; unfold toggleMenu, deref, bind, gets, modify, ret, throw,
      classList_toggle;
    crunch; auto;
    exfalso;
    repeat match goal with H : bool_decide _ = true |- _ => apply bool_decide_eq_true in H end;
    subst; discriminate.
Qed.

Lemma pro1_toggleMenu_locked w :
  I w →
  bodyOverflow (dom (exec toggleMenu w)) =
    if classList_contains openBodyClass (dom (exec toggleMenu w)) then "hidden" else EmptyString.
Proof.
  intros HR. destruct (isNavOpen w) eqn:Ho.
  - unfold exec. rewrite (pro1_toggleMenu_closes w HR Ho). simpl.
    change (classList_contains openBodyClass
              (set_bodyOverflow EmptyString
                 (setAttribute t "aria-expanded" "false"
                    (classList_remove openBodyClass (dom w)))))
      with (classList_contains openBodyClass (classList_remove openBodyClass (dom w))).
    rewrite contains_removed. reflexivity.
  - destruct (head fs) as [f|] eqn:Hf; unfold exec.
    + rewrite (pro1_toggleMenu_opens t n fs w f HR Ho Hf). simpl.
      change (classList_contains openBodyClass
                (focus f (set_bodyOverflow "hidden"
                   (setAttribute t "aria-expanded" "true"
                      (classList_add openBodyClass (dom w))))))
        with (classList_contains openBodyClass (classList_add openBodyClass (dom w))).
      rewrite contains_added. reflexivity.
    + rewrite (pro1_toggleMenu_throws w HR Ho Hf). simpl.
      change (classList_contains openBodyClass
                (set_bodyOverflow "hidden"
                   (setAttribute t "aria-expanded" "true"
                      (classList_add openBodyClass (dom w)))))
        with (classList_contains openBodyClass (classList_add openBodyClass (dom w))).
      rewrite contains_added. reflexivity.
Qed.

(** The scroll lock follows the marker through every call. *)
Lemma pro1_invoke_locked h ev w :
  I w → ScrollLocked w → ScrollLocked (exec (invoke h ev) w).
Proof.
  intros HR HL. unfold ScrollLocked, isNavOpen in *.
  destruct h; simpl; [apply pro1_toggleMenu_locked, HR|].
  assert (Hkey : ∀ k s, bodyOverflow (dom (exec (handleKeydown k s) w)) =
                   if classList_contains openBodyClass (dom (exec (handleKeydown k s) w))
                   then "hidden" else EmptyString).
  { intros k s. destruct (pro1_handleKeydown_cases k s w HR) as [-> | [Hc Ho]].
    - apply pro1_toggleMenu_locked, HR.
    - unfold classList_contains in *. rewrite Hc, Ho. exact HL. }
  destruct ev; apply Hkey.
Qed.

Lemma pro1_escape s w :
  I w → isNavOpen w = true →
  handleKeydown "Escape" s w =
    (Normal tt,
     with_dom (λ d, set_bodyOverflow EmptyString
                 (setAttribute t "aria-expanded" "false" (classList_remove openBodyClass d))) w).
Proof.
  intros HR Ho. pose proof (pro1_toggleMenu_closes w HR Ho) as E.
  unfold isNavOpen in Ho. unfold handleKeydown, bind, gets. rewrite Ho.
  change (negb true) with false. cbn beta iota.
  rewrite bool_decide_eq_true_2 by reflexivity. rewrite E.
  rewrite bool_decide_eq_false_2 by discriminate. reflexivity.
Qed.

(** With a focusable element in the panel no call throws or logs. *)
Lemma pro1_invoke_normal h ev w :
  I w → is_Some (head fs) →
  ∃ w', invoke h ev w = (Normal tt, w') ∧ I w' ∧ console w' = console w.
Proof.
  intros HR [f Hf]. assert (is_Some (last fs)) as [l Hl] by (apply head_last_some; eauto).
  destruct w as [d [tb nc fe ff lf] ls fq ts dp cs].
  destruct HR as (H1 & H2 & H3 & H4 & H5 & H6 & H7 & H8).
  simpl in H1, H2, H3, H4, H5, H6, H7, H8. subst. rewrite Hf, Hl. unfold Ready. simpl.
  rewrite Hf, Hl.
  (destruct h; [ | destruct ev]); simpl;
    unfold handleKeydown; unfold toggleMenu, deref, bind, gets, modify, ret, throw,
      classList_toggle;
    crunch; eexists; (split; [reflexivity|]); simpl; repeat split.
Qed.

Local Abbreviation L := (λ w, Ready t n fs w ∧ ScrollLocked w).

Lemma pro1_L_step ev w : L w → L (step ev w).
Proof.
  intros HL. unfold step. apply (step_keeps invoke L).
  - intros h ev0 w0 [HR0 HL0]. split; [apply pro1_invoke_keeps, HR0|].
    apply pro1_invoke_locked; assumption.
  - intros msg w0 [HR0 HL0]. split; assumption.
  - intros b w0 [HR0 HL0]. split; assumption.
  - intros x w0 [HR0 HL0]. split; assumption.
  - intros w0 [HR0 HL0]. split; [|exact HL0].
    destruct HR0 as (? & ? & ? & ? & ? & ? & ? & ?). repeat split; assumption.
  - intros i w0 [HR0 HL0]. split; [|exact HL0].
    destruct HR0 as (? & ? & ? & ? & ? & ? & ? & Htm). unfold Ready. simpl. rewrite Htm.
    repeat split; assumption.
  - exact HL.
Qed.

Lemma pro1_L_run evs w : L w → L (run evs w).
Proof.
  revert w. induction evs as [|ev evs IH]; intros w HL; [exact HL|].
  apply IH, pro1_L_step, HL.
Qed.

Local Abbreviation Q := (λ w, Ready t n fs w ∧ console w = []).

Lemma pro1_Q_run evs w : is_Some (head fs) → Q w → Q (run evs w).
Proof.
  intros Hf. revert w. induction evs as [|ev evs IH]; intros w HQ; [exact HQ|].
  apply IH. unfold step. apply (step_normal invoke Q).
  - intros h ev0 w0 [HR0 Hc0].
    destruct (pro1_invoke_normal h ev0 w0 HR0 Hf) as (w' & E & HR' & Hc').
    exists w'. split; [exact E|]. split; [exact HR'|congruence].
  - intros w0 [HR0 Hc0]. split; assumption.
  - intros x w0 [HR0 Hc0]. split; assumption.
  - intros w0 [HR0 Hc0]. split; [|exact Hc0].
    destruct HR0 as (? & ? & ? & ? & ? & ? & ? & ?). repeat split; assumption.
  - intros i w0 [HR0 Hc0]. split; [|exact Hc0].
    destruct HR0 as (? & ? & ? & ? & ? & ? & ? & Htm). unfold Ready. simpl. rewrite Htm.
    repeat split; assumption.
  - exact HQ.
Qed.

End Ready.
End Pro1Further.

(** ** Version 2.0: the trigger is all there is *)

Module V2Facts.
Import V2.

Section Ready.
Variables (t n : Element) (fs : list Element).
Local Abbreviation I := (Ready t n fs).

Lemma v2_step_exec ev w : step ev w = exec (dispatch ev) w.
Proof. reflexivity. Qed.

Lemma v2_toggleMenu_ready w :
  I w →
  toggleMenu w =
    (Normal tt,
     with_dom (λ d, setAttribute t "aria-expanded" (String_of_bool (negb (isNavOpen w)))
                      (classList_toggle_force "mobile-nav-open" (negb (isNavOpen w)) d)) w).
Proof.
  intros (Ht & _). unfold toggleMenu, bind, gets, classList_toggle, isNavOpen.
  destruct (classList_contains "mobile-nav-open" (dom w)); simpl;
    unfold bind, gets, modify; simpl; rewrite Ht; reflexivity.
Qed.

Lemma v2_invoke_keeps h ev w : I w → ∃ w', invoke h ev w = (Normal tt, w') ∧ I w'.
Proof.
  intros HI. destruct h. simpl. rewrite (v2_toggleMenu_ready w HI).
  eexists. split; [reflexivity|]. exact HI.
Qed.

Lemma v2_I_prevented b w : I w → I (set_defaultPrevented b w).
Proof. intros HR. exact HR. Qed.

Lemma v2_I_step ev w : I w → I (step ev w).
Proof.
  intros HI. unfold step. apply (step_normal invoke I).
  - exact v2_invoke_keeps.
  - intros w0 H0. exact H0.
  - intros x w0 H0. exact H0.
  - intros w0 (? & ? & ? & ? & ? & ? & ? & ?). repeat split; assumption.
  - intros i w0 (? & ? & ? & ? & ? & ? & ? & Ht). unfold Ready. simpl. rewrite Ht.
    repeat split; assumption.
  - exact HI.
Qed.

Lemma v2_fire_other tgt ty ev w :
  I w → (∀ e, tgt ≠ OnElement e) → fire invoke tgt ty ev w = (Normal tt, w).
Proof.
  intros (_ & _ & _ & _ & _ & Hl & _) Hne. unfold fire, bind, gets, listeners_on.
  rewrite Hl. unfold bound_listeners.
  rewrite filter_cons_False; [reflexivity|].
  simpl. intros [E _]. exact (Hne t (eq_sym E)).
Qed.

Lemma v2_fire_element e ev w :
  I w →
  fire invoke (OnElement e) click ev w =
    if decide (e = t) then toggleMenu w else (Normal tt, w).
Proof.
  intros HI. pose proof HI as (_ & _ & _ & _ & _ & Hl & _).
  unfold fire, bind, gets, listeners_on. rewrite Hl. unfold bound_listeners.
  destruct (decide (e = t)) as [->|Hne].
  - rewrite filter_cons_True by (simpl; auto). simpl. unfold bind, run_callback, try_catch.
    simpl. rewrite (v2_toggleMenu_ready w HI). reflexivity.
  - rewrite filter_cons_False by (simpl; intros [? _]; congruence). reflexivity.
Qed.

Lemma v2_path_without_trigger ev path w :
  I w → t ∉ path →
  forEach path (λ e, fire invoke (OnElement e) click ev) w = (Normal tt, w).
Proof.
  intros HI Hnt. apply forEach_fixed. intros e He.
  rewrite (v2_fire_element e ev w HI).
  destruct (decide (e = t)) as [->|]; [contradiction|reflexivity].
Qed.

Lemma v2_step_trigger path w :
  I w → NoDup path → t ∈ path →
  step (Click path) w = exec toggleMenu (set_defaultPrevented false w).
Proof.
  intros HI Hnd Hin. pose proof (v2_I_prevented false w HI) as H0.
  apply list_elem_of_split in Hin as (l1 & l2 & ->).
  apply NoDup_app in Hnd as (_ & Hd1 & Hd2). apply NoDup_cons in Hd2 as (Ht2 & _).
  assert (Ht1 : t ∉ l1) by (intros Hc; apply (Hd1 t Hc); left).
  pose proof (v2_toggleMenu_ready _ H0) as E.
  rewrite v2_step_exec. unfold exec, dispatch. rewrite dispatch_Click.
  unfold bind at 1. rewrite forEach_app.
  unfold bind at 1. rewrite (v2_path_without_trigger _ l1 _ H0 Ht1).
  simpl forEach. unfold bind at 1. rewrite (v2_fire_element t _ _ H0).
  destruct (decide (t = t)); [|contradiction].
  rewrite E.
  rewrite (v2_path_without_trigger _ l2); [|exact HI|exact Ht2].
  unfold bind. rewrite !v2_fire_other by (exact HI || discriminate). reflexivity.
Qed.

Lemma v2_step_elsewhere ev w :
  I w →
  match ev with
  | Click path => t ∉ path
  | _ => True
  end →
  step ev w =
    match ev with
    | Resize x => with_dom (set_innerWidth x) (set_defaultPrevented false w)
    | _ => set_defaultPrevented false w
    end.
Proof.
  intros HI Hev. pose proof (v2_I_prevented false w HI) as H0.
  rewrite v2_step_exec. unfold exec, dispatch.
  destruct ev as [path|k s|x| |i].
  - rewrite dispatch_Click. unfold bind.
    rewrite (v2_path_without_trigger _ path _ H0 Hev).
    rewrite !v2_fire_other by (exact H0 || discriminate). reflexivity.
  - rewrite dispatch_Keydown. unfold bind.
    rewrite !v2_fire_other by (exact H0 || discriminate). reflexivity.
  - rewrite dispatch_Resize. rewrite v2_fire_other; [reflexivity|exact H0|discriminate].
  - rewrite dispatch_AnimationFrame.
    destruct HI as (_ & _ & _ & _ & _ & _ & Hq & _). rewrite Hq. simpl.
    destruct w; simpl in *; subst; reflexivity.
  - rewrite dispatch_TimerFires.
    destruct HI as (_ & _ & _ & _ & _ & _ & _ & Htm). rewrite Htm. reflexivity.
Qed.

End Ready.

Lemma v2_boot_ready p d t n :
  q_toggle p = Some t → q_nav p = Some n →
  Ready t n (q_focusable p) (boot p d) ∧ dom (boot p d) = d.
Proof.
  intros Ht Hn. unfold boot, exec, init. rewrite Ht, Hn. simpl.
  rewrite item_head, item_last. repeat split.
Qed.

Lemma v2_reachable p d t n evs :
  q_toggle p = Some t → q_nav p = Some n →
  Ready t n (q_focusable p) (run evs (boot p d)).
Proof.
  intros Ht Hn. destruct (v2_boot_ready p d t n Ht Hn) as (HI & _).
  revert HI. generalize (boot p d). induction evs as [|ev evs IH]; intros w HI; [exact HI|].
  apply IH, v2_I_step, HI.
Qed.

End V2Facts.

(** ** Version 5.1: the trap without the focus move *)

Module V51Facts.
Import V5_1Nav.

Section Ready.
Variables (t n : Element) (fs : list Element).
Local Abbreviation I := (Ready t n fs).

Lemma v51_step_exec ev w : step ev w = exec (dispatch ev) w.
Proof. reflexivity. Qed.

Lemma v51_toggleMenu_ready w :
  I w →
  toggleMenu w =
    (Normal tt,
     with_dom (λ d, setAttribute t "aria-expanded" (String_of_bool (negb (isNavOpen w)))
                      (classList_toggle_force "mobile-nav-open" (negb (isNavOpen w)) d)) w).
Proof.
  intros (Ht & _). unfold toggleMenu, bind, gets, classList_toggle, isNavOpen.
  destruct (classList_contains "mobile-nav-open" (dom w)); simpl;
    unfold bind, gets, modify; simpl; rewrite Ht; reflexivity.
Qed.

(** No call of this revision throws or logs. *)
Lemma v51_invoke_keeps h ev w :
  I w → ∃ w', invoke h ev w = (Normal tt, w') ∧ I w' ∧ console w' = console w.
Proof.
  intros HR. destruct w as [d [tb nc fe ff lf] ls fq ts dp cs].
  destruct HR as (H1 & H2 & H3 & H4 & H5 & H6 & H7 & H8).
  simpl in H1, H2, H3, H4, H5, H6, H7, H8. subst. unfold Ready. simpl.
  assert (Hcase : (∃ f l, head fs = Some f ∧ last fs = Some l)
                  ∨ (head fs = None ∧ last fs = None)).
  { destruct fs as [|x fs']; [right; split; reflexivity|left]. exists x.
    destruct (head_last_some (x :: fs')) as [Hhl _].
    destruct Hhl as [l Hl]; [simpl; eauto|]. eauto. }
  destruct Hcase as [(f & l & Hf & Hl) | [Hf Hl]]; rewrite Hf, Hl;
  (destruct h; [ | destruct ev]); simpl;
    unfold handleKeydown; unfold toggleMenu, deref, bind, gets, modify, ret, throw,
      classList_toggle;
    crunch;
    first [ solve [eexists; (split; [reflexivity|]); simpl; repeat split]
          | exfalso;
            repeat match goal with
                   | H : bool_decide _ = true |- _ => apply bool_decide_eq_true in H
                   | H : same_node ?a None = true |- _ => destruct a; discriminate H
                   end;
            subst; discriminate ].
Qed.

Lemma v51_I_prevented b w : I w → I (set_defaultPrevented b w).
Proof. intros HR. exact HR. Qed.

Local Abbreviation Q := (λ w, Ready t n fs w ∧ console w = []).

Lemma v51_Q_step ev w : Q w → Q (step ev w).
Proof.
  intros HQ. unfold step. apply (step_normal invoke Q).
  - intros h ev0 w0 [HR0 Hc0].
    destruct (v51_invoke_keeps h ev0 w0 HR0) as (w' & E & HR' & Hc').
    exists w'. split; [exact E|]. split; [exact HR'|congruence].
  - intros w0 [HR0 Hc0]. split; assumption.
  - intros x w0 [HR0 Hc0]. split; assumption.
  - intros w0 [HR0 Hc0]. split; [|exact Hc0].
    destruct HR0 as (? & ? & ? & ? & ? & ? & ? & ?). repeat split; assumption.
  - intros i w0 [HR0 Hc0]. split; [|exact Hc0].
    destruct HR0 as (? & ? & ? & ? & ? & ? & ? & Htm). unfold Ready. simpl. rewrite Htm.
    repeat split; assumption.
  - exact HQ.
Qed.

Lemma v51_Q_run evs w : Q w → Q (run evs w).
Proof.
  revert w. induction evs as [|ev evs IH]; intros w HQ; [exact HQ|].
  apply IH, v51_Q_step, HQ.
Qed.

Lemma v51_fire_window ty ev w : I w → fire invoke OnWindow ty ev w = (Normal tt, w).
Proof.
  intros (_ & _ & _ & _ & _ & Hl & _). unfold fire, bind, gets, listeners_on.
  rewrite Hl. reflexivity.
Qed.

Lemma v51_fire_document_click ev w : I w → fire invoke OnDocument click ev w = (Normal tt, w).
Proof.
  intros (_ & _ & _ & _ & _ & Hl & _). unfold fire, bind, gets, listeners_on.
  rewrite Hl. reflexivity.
Qed.

Lemma v51_fire_document_keydown k s w :
  I w → fire invoke OnDocument keydown (Keydown k s) w = handleKeydown k s w.
Proof.
  intros HI. pose proof HI as (_ & _ & _ & _ & _ & Hl & _).
  unfold fire, bind, gets, listeners_on. rewrite Hl. simpl. unfold bind.
  destruct (v51_invoke_keeps H_handleKeydown (Keydown k s) w HI) as (w' & E & _).
  unfold run_callback, try_catch. simpl in E |- *. rewrite E. reflexivity.
Qed.

Lemma v51_fire_element e ev w :
  I w →
  fire invoke (OnElement e) click ev w =
    if decide (e = t) then toggleMenu w else (Normal tt, w).
Proof.
  intros HI. pose proof HI as (_ & _ & _ & _ & _ & Hl & _).
  unfold fire, bind, gets, listeners_on. rewrite Hl. unfold bound_listeners.
  destruct (decide (e = t)) as [->|Hne].
  - rewrite filter_cons_True by (simpl; auto).
    rewrite filter_cons_False by (simpl; intros [? _]; discriminate).
    simpl. unfold bind, run_callback, try_catch.
    simpl. rewrite (v51_toggleMenu_ready w HI). reflexivity.
  - rewrite filter_cons_False by (simpl; intros [? _]; congruence).
    rewrite filter_cons_False by (simpl; intros [? _]; discriminate).
    reflexivity.
Qed.

Lemma v51_path_without_trigger ev path w :
  I w → t ∉ path →
  forEach path (λ e, fire invoke (OnElement e) click ev) w = (Normal tt, w).
Proof.
  intros HI Hnt. apply forEach_fixed. intros e He.
  rewrite (v51_fire_element e ev w HI).
  destruct (decide (e = t)) as [->|]; [contradiction|reflexivity].
Qed.

Lemma v51_step_trigger path w :
  I w → NoDup path → t ∈ path →
  step (Click path) w = exec toggleMenu (set_defaultPrevented false w).
Proof.
  intros HI Hnd Hin. pose proof (v51_I_prevented false w HI) as H0.
  apply list_elem_of_split in Hin as (l1 & l2 & ->).
  apply NoDup_app in Hnd as (_ & Hd1 & Hd2). apply NoDup_cons in Hd2 as (Ht2 & _).
  assert (Ht1 : t ∉ l1) by (intros Hc; apply (Hd1 t Hc); left).
  pose proof (v51_toggleMenu_ready _ H0) as E.
  rewrite v51_step_exec. unfold exec, dispatch. rewrite dispatch_Click.
  unfold bind at 1. rewrite forEach_app.
  unfold bind at 1. rewrite (v51_path_without_trigger _ l1 _ H0 Ht1).
  simpl forEach. unfold bind at 1. rewrite (v51_fire_element t _ _ H0).
  destruct (decide (t = t)); [|contradiction].
  rewrite E.
  rewrite (v51_path_without_trigger _ l2); [|exact HI|exact Ht2].
  unfold bind. rewrite v51_fire_document_click, v51_fire_window by exact HI. reflexivity.
Qed.

Lemma v51_step_keydown k s w :
  I w → step (Keydown k s) w = exec (handleKeydown k s) (set_defaultPrevented false w).
Proof.
  intros HI. pose proof (v51_I_prevented false w HI) as H0.
  rewrite v51_step_exec. unfold exec, dispatch. rewrite dispatch_Keydown. unfold bind.
  rewrite (v51_fire_document_keydown k s _ H0).
  destruct (v51_invoke_keeps H_handleKeydown (Keydown k s) _ H0) as (w1 & E1 & H1 & _).
  simpl in E1. rewrite E1. rewrite v51_fire_window; [reflexivity|exact H1].
Qed.

Lemma v51_escape s w :
  I w → isNavOpen w = true → handleKeydown "Escape" s w = toggleMenu w.
Proof.
  intros HR Ho. pose proof (v51_toggleMenu_ready w HR) as E.
  unfold isNavOpen in Ho. unfold handleKeydown, bind, gets. rewrite Ho.
  change (negb true) with false. cbn beta iota.
  rewrite bool_decide_eq_true_2 by reflexivity. rewrite E.
  rewrite bool_decide_eq_false_2 by discriminate. reflexivity.
Qed.

Lemma v51_tab_on_last w l f :
  I w → isNavOpen w = true → last fs = Some l → head fs = Some f →
  activeElement (dom w) = Some l →
  handleKeydown "Tab" false w = (Normal tt, set_defaultPrevented true (with_dom (focus f) w)).
Proof.
  intros HR Ho Hl Hf Ha. destruct w as [d [tb nc fe ff lf] ls fq ts dp cs].
  destruct HR as (H1 & H2 & H3 & H4 & H5 & H6 & H7 & H8).
  simpl in H1, H2, H3, H4, H5, H6, H7, H8. subst.
  unfold isNavOpen in Ho. simpl in Ha, Ho.
  unfold handleKeydown, bind, gets. simpl. rewrite Ho. simpl. rewrite Hl, Ha.
  unfold same_node. rewrite bool_decide_eq_true_2 by reflexivity. simpl.
  rewrite Hf. reflexivity.
Qed.

Lemma v51_shift_tab_on_first w l f :
  I w → isNavOpen w = true → last fs = Some l → head fs = Some f →
  activeElement (dom w) = Some f →
  handleKeydown "Tab" true w = (Normal tt, set_defaultPrevented true (with_dom (focus l) w)).
Proof.
  intros HR Ho Hl Hf Ha. destruct w as [d [tb nc fe ff lf] ls fq ts dp cs].
  destruct HR as (H1 & H2 & H3 & H4 & H5 & H6 & H7 & H8).
  simpl in H1, H2, H3, H4, H5, H6, H7, H8. subst.
  unfold isNavOpen in Ho. simpl in Ha, Ho.
  unfold handleKeydown, bind, gets. simpl. rewrite Ho. simpl. rewrite Hf, Ha.
  unfold same_node. rewrite bool_decide_eq_true_2 by reflexivity. simpl.
  rewrite Hl. reflexivity.
Qed.

Lemma v51_tab_elsewhere w (s : bool) :
  I w → same_node (activeElement (dom w)) (if s then head fs else last fs) = false →
  handleKeydown "Tab" s w = (Normal tt, w).
Proof.
  intros HR Hs. destruct w as [d [tb nc fe ff lf] ls fq ts dp cs].
  destruct HR as (H1 & H2 & H3 & H4 & H5 & H6 & H7 & H8).
  simpl in H1, H2, H3, H4, H5, H6, H7, H8. subst.
  unfold handleKeydown, bind, gets.
  destruct (classList_contains _ _); [|reflexivity].
  destruct s; simpl in *; rewrite Hs; reflexivity.
Qed.

Lemma v51_traps w : I w → isNavOpen w = true → traps_focus step fs w.
Proof.
  intros HI Ho. pose proof (v51_I_prevented false w HI) as H0.
  split; [|split; [|split]].
  - intros l Hl Ha.
    assert (is_Some (head fs)) as [f Hf] by (apply head_last_some; eauto).
    exists f. split; [exact Hf|].
    rewrite (v51_step_keydown _ _ w HI). unfold exec.
    rewrite (v51_tab_on_last _ l f H0 Ho Hl Hf Ha). simpl.
    split; [reflexivity|]. split; intros Hc; rewrite Hc; [reflexivity|exact Ha].
  - intros f Hf Ha.
    assert (is_Some (last fs)) as [l Hl] by (apply head_last_some; eauto).
    exists l. split; [exact Hl|].
    rewrite (v51_step_keydown _ _ w HI). unfold exec.
    rewrite (v51_shift_tab_on_first _ l f H0 Ho Hl Hf Ha). simpl.
    split; [reflexivity|]. split; intros Hc; rewrite Hc; [reflexivity|exact Ha].
  - intros b s Ha Hnf Hnl.
    rewrite (v51_step_keydown _ _ w HI). unfold exec.
    rewrite v51_tab_elsewhere; [repeat split|exact H0|].
    simpl. rewrite Ha. unfold same_node.
    destruct s; [destruct (head fs)|destruct (last fs)]; try reflexivity;
      apply bool_decide_eq_false_2; congruence.
  - intros s Hs.
    rewrite (v51_step_keydown _ _ w HI). unfold exec.
    rewrite v51_tab_elsewhere; [repeat split|exact H0|exact Hs].
Qed.

End Ready.

Lemma v51_boot_ready p d t n :
  q_toggle p = Some t → q_nav p = Some n →
  Ready t n (q_focusable p) (boot p d) ∧ dom (boot p d) = d ∧ console (boot p d) = [].
Proof.
  intros Ht Hn. unfold boot, exec, init. rewrite Ht, Hn. simpl.
  rewrite item_head, item_last. repeat split.
Qed.

Lemma v51_reachable p d t n evs :
  q_toggle p = Some t → q_nav p = Some n →
  Ready t n (q_focusable p) (run evs (boot p d)) ∧ console (run evs (boot p d)) = [].
Proof.
  intros Ht Hn. destruct (v51_boot_ready p d t n Ht Hn) as (HI & _ & Hc).
  apply v51_Q_run. split; assumption.
Qed.

End V51Facts.

(** ** Version 9.1: the toggle forces marker and attribute *)

Module V91Facts.
Import V9_1.

Section Ready.
Variables (t n : Element).
Local Abbreviation I := (Ready t n).

Lemma v91_step_exec ev w : step ev w = exec (dispatch ev) w.
Proof. reflexivity. Qed.

Lemma v91_toggle_ready w : I w → toggle w = (Normal tt, toggled t w).
Proof.
  intros (He & _). destruct w as [d [els o] ls fq tm dp cs]. simpl in He. subst els.
  reflexivity.
Qed.




Lemma v91_I_prevented b w : I w → I (set_defaultPrevented b w).
Proof. intros HR. exact HR. Qed.

Lemma v91_fire_other tgt ty ev w :
  I w → (∀ e, tgt ≠ OnElement e) → fire invoke tgt ty ev w = (Normal tt, w).
Proof.
  intros (_ & Hl) Hne. unfold fire, bind, gets, listeners_on.
  rewrite Hl. unfold bound_listeners.
  rewrite !filter_cons_False; [reflexivity| |];
    simpl; intros [E _]; exact (Hne t (eq_sym E)).
Qed.

Lemma v91_fire_click e ev w :
  I w →
  fire invoke (OnElement e) click ev w =
    if decide (e = t) then (Normal tt, toggled t w) else (Normal tt, w).
Proof.
  intros HI. pose proof HI as (_ & Hl).
  unfold fire, bind, gets, listeners_on. rewrite Hl. unfold bound_listeners.
  destruct (decide (e = t)) as [->|Hne].
  - rewrite filter_cons_True by (simpl; auto).
    rewrite filter_cons_False by (simpl; intros [_ ?]; discriminate).
    simpl. unfold bind, run_callback, try_catch.
    simpl. rewrite (v91_toggle_ready w HI). reflexivity.
  - rewrite !filter_cons_False by (simpl; intros [? _]; congruence). reflexivity.
Qed.



Lemma v91_path_without_toggle ev path w :
  I w → t ∉ path →
  forEach path (λ e, fire invoke (OnElement e) click ev) w = (Normal tt, w).
Proof.
  intros HI Hnt. apply forEach_fixed. intros e He.
  rewrite (v91_fire_click e ev w HI).
  destruct (decide (e = t)) as [->|]; [contradiction|reflexivity].
Qed.


Lemma v91_step_click_elsewhere path w :
  I w → t ∉ path → step (Click path) w = set_defaultPrevented false w.
Proof.
  intros HI Hnt. pose proof (v91_I_prevented false w HI) as H0.
  rewrite v91_step_exec. unfold exec, dispatch. rewrite dispatch_Click. unfold bind.
  rewrite (v91_path_without_toggle _ path _ H0 Hnt).
  rewrite !v91_fire_other by (exact H0 || discriminate). reflexivity.
Qed.





End Ready.


End V91Facts.

(** ** The fragment loader: positions in the tree *)

Section LoaderFacts.
Local Open Scope nat_scope.

Lemma find_id_element (i : string) tag j children :
  find_id i (ElementNode tag j children) =
    if bool_decide (j = Some i) then Some [] else getElementById i children.
Proof.
  simpl. destruct (bool_decide (j = Some i)); [reflexivity|].
  induction children as [|c l IH]; [reflexivity|].
  simpl. rewrite IH. reflexivity.
Qed.

Lemma shift_None p : shift p = None ↔ p = None.
Proof. destruct p as [[|k q]|]; simpl; split; congruence. Qed.

Lemma getElementById_nonempty (i : string) (l : list Node) : getElementById i l ≠ Some [].
Proof.
  induction l as [|c l IH]; [discriminate|].
  simpl. destruct (find_id i c); [discriminate|].
  destruct (getElementById i l) as [[|k q]|]; simpl; congruence.
Qed.

(** What a found position says: the node is there, the id is found in it,
    and no node before it holds the id. *)
Lemma getElementById_Some (i : string) (l : list Node) (k : nat) (q : Path) :
  getElementById i l = Some (k :: q) ↔
  ∃ c, l !! k = Some c ∧ find_id i c = Some q ∧ getElementById i (take k l) = None.
Proof.
  revert k. induction l as [|c l IH]; intros k.
  - simpl. split; [discriminate|]. intros (c & Hc & _). discriminate Hc.
  - simpl. destruct (find_id i c) as [p|] eqn:Hc.
    + split.
      * intros [= <- <-]. exists c. auto.
      * intros (c' & Hl & Hq & Hpre). destruct k as [|k].
        -- injection Hl as <-. congruence.
        -- simpl in Hpre. rewrite Hc in Hpre. discriminate.
    + destruct k as [|k].
      * split.
        -- destruct (getElementById i l) as [[|k' q']|]; simpl; discriminate.
        -- intros (c' & Hl & Hq & _). injection Hl as <-. congruence.
      * simpl. rewrite Hc. split.
        -- intros Hs. destruct (getElementById i l) as [[|k' q']|] eqn:E; simpl in Hs;
             [exfalso; exact (getElementById_nonempty i l E)| |discriminate Hs].
           injection Hs as -> ->. destruct (proj1 (IH k) eq_refl) as (c' & Hl & Hq & Hpre).
           exists c'. rewrite Hpre. auto.
        -- intros (c' & Hl & Hq & Hpre). simpl in Hl. apply (proj1 (shift_None _)) in Hpre.
           assert (E : getElementById i l = Some (k :: q)) by (apply IH; eauto).
           rewrite E. reflexivity.
Qed.

Lemma getElementById_app_None (i : string) (a b : list Node) :
  getElementById i (a ++ b) = None ↔ getElementById i a = None ∧ getElementById i b = None.
Proof.
  induction a as [|c a IH]; simpl.
  - split; [auto|intros [_ H]; exact H].
  - destruct (find_id i c); [split; [discriminate|intros [H _]; discriminate H]|].
    rewrite !shift_None. exact IH.
Qed.

Lemma getElementById_cons_None (i : string) c (l : list Node) :
  getElementById i (c :: l) = None ↔ find_id i c = None ∧ getElementById i l = None.
Proof.
  simpl. destruct (find_id i c); [split; [discriminate|intros [H _]; discriminate H]|].
  rewrite shift_None. split; [auto|intros [_ H]; exact H].
Qed.

(** A node put in the place of the k-th is found there when nothing before
    it holds the id. *)
Lemma getElementById_at (i : string) (l : list Node) (k : nat) (c : Node) (q : Path) :
  k < length l → getElementById i (take k l) = None → find_id i c = Some q →
  getElementById i (<[k := c]> l) = Some (k :: q).
Proof.
  intros Hk Hpre Hq. apply getElementById_Some. exists c.
  split; [apply list_lookup_insert_eq, Hk|]. split; [exact Hq|].
  rewrite take_insert_ge by lia. exact Hpre.
Qed.

(** Writing inside the placeholder leaves it where it is. *)
Lemma getElementById_set_innerHTML (i : string) (p : Path) (new doc : list Node) :
  getElementById i doc = Some p → getElementById i (set_innerHTML p new doc) = Some p.
Proof.
  unfold set_innerHTML. revert doc. induction p as [|k q IH]; intros doc Hp.
  - exfalso. exact (getElementById_nonempty i doc Hp).
  - apply getElementById_Some in Hp as (c & Hc & Hq & Hpre).
    assert (Hk : k < length doc) by (apply lookup_lt_is_Some; eauto).
    simpl. rewrite Hc. destruct q as [|k' q'].
    + destruct c as [tag j children|txt]; [|discriminate Hq].
      rewrite find_id_element in Hq.
      destruct (bool_decide (j = Some i)) eqn:Hj;
        [|exfalso; exact (getElementById_nonempty i children Hq)].
      change (take k doc ++ [ElementNode tag j new] ++ drop (S k) doc)
        with (take k doc ++ ElementNode tag j new :: drop (S k) doc).
      rewrite <- insert_take_drop by exact Hk.
      apply getElementById_at; [exact Hk|exact Hpre|].
      rewrite find_id_element, Hj. reflexivity.
    + destruct c as [tag j children|txt]; [|discriminate Hq].
      rewrite find_id_element in Hq.
      destruct (bool_decide (j = Some i)) eqn:Hj; [discriminate Hq|].
      apply getElementById_at; [exact Hk|exact Hpre|].
      rewrite find_id_element, Hj. apply IH, Hq.
Qed.

(** Replacing a node forgets what was written inside it. *)
Lemma replace_at_set_innerHTML (p : Path) (new inner doc : list Node) :
  replace_at p new (set_innerHTML p inner doc) = replace_at p new doc.
Proof.
  unfold replace_at, set_innerHTML. revert doc. induction p as [|k q IH]; intros doc.
  - reflexivity.
  - simpl. destruct (doc !! k) as [c|] eqn:Hc.
    + assert (Hk : k < length doc) by (apply lookup_lt_is_Some; eauto).
      destruct q as [|k' q'].
      * assert (E : ∀ c', take k doc ++ [c'] ++ drop (S k) doc = <[k := c']> doc)
          by (intros c'; symmetry; apply insert_take_drop, Hk).
        destruct c as [tag j children|txt]; rewrite E;
          rewrite list_lookup_insert_eq by exact Hk;
          rewrite take_insert_ge by lia; rewrite drop_insert_lt by lia; reflexivity.
      * destruct c as [tag j children|txt].
        -- rewrite list_lookup_insert_eq by exact Hk. rewrite list_insert_insert_eq.
           rewrite IH. reflexivity.
        -- rewrite Hc. reflexivity.
    + destruct q; rewrite Hc; reflexivity.
Qed.

(** Once the placeholder is replaced by markup without the id, the id is
    found nowhere, provided the rest of the document does not hold it. *)
Lemma getElementById_replaced (i : string) (p : Path) (new doc : list Node) :
  getElementById i doc = Some p →
  getElementById i new = None →
  getElementById i (replace_at p [] doc) = None →
  getElementById i (replace_at p new doc) = None.
Proof.
  unfold replace_at. revert doc. induction p as [|k q IH]; intros doc Hp Hnew Hrest.
  - exfalso. exact (getElementById_nonempty i doc Hp).
  - apply getElementById_Some in Hp as (c & Hc & Hq & Hpre).
    assert (Hk : k < length doc) by (apply lookup_lt_is_Some; eauto).
    simpl in *. rewrite Hc in *. destruct q as [|k' q'].
    + apply getElementById_app_None in Hrest as [_ Hpost]. simpl in Hpost.
      apply getElementById_app_None. split; [exact Hpre|].
      apply getElementById_app_None. split; assumption.
    + destruct c as [tag j children|txt]; [|discriminate Hq].
      rewrite find_id_element in Hq.
      destruct (bool_decide (j = Some i)) eqn:Hj; [discriminate Hq|].
      rewrite insert_take_drop in Hrest |- * by exact Hk.
      apply getElementById_app_None in Hrest as [_ Hrest].
      apply getElementById_cons_None in Hrest as [Hnode Hpost].
      rewrite find_id_element, Hj in Hnode.
      apply getElementById_app_None. split; [exact Hpre|].
      apply getElementById_cons_None. split; [|exact Hpost].
      rewrite find_id_element, Hj. apply IH; assumption.
Qed.

(** Writing inside a node forgets what was written inside it before. *)
Lemma set_innerHTML_set_innerHTML (p : Path) (new inner doc : list Node) :
  set_innerHTML p new (set_innerHTML p inner doc) = set_innerHTML p new doc.
Proof.
  unfold set_innerHTML. revert doc. induction p as [|k q IH]; intros doc.
  - reflexivity.
  - simpl. destruct (doc !! k) as [c|] eqn:Hc.
    + assert (Hk : k < length doc) by (apply lookup_lt_is_Some; eauto).
      destruct q as [|k' q'].
      * assert (E : ∀ c', take k doc ++ [c'] ++ drop (S k) doc = <[k := c']> doc)
          by (intros c'; symmetry; apply insert_take_drop, Hk).
        destruct c as [tag j children|txt]; rewrite E;
          rewrite list_lookup_insert_eq by exact Hk;
          rewrite take_insert_ge by lia; rewrite drop_insert_lt by lia; rewrite ?E;
          reflexivity.
      * destruct c as [tag j children|txt].
        -- rewrite list_lookup_insert_eq by exact Hk. rewrite list_insert_insert_eq.
           rewrite IH. reflexivity.
        -- rewrite Hc. reflexivity.
    + destruct q; rewrite Hc; reflexivity.
Qed.

Lemma inject_set_innerHTML (p : Path) (html inner doc : list Node) :
  V6Loader.inject p html (set_innerHTML p inner doc) = V6Loader.inject p html doc.
Proof.
  unfold V6Loader.inject. destruct (firstElementChild html).
  - apply replace_at_set_innerHTML.
  - apply set_innerHTML_set_innerHTML.
Qed.

Lemma getElementById_None_elem (i : string) (l : list Node) (c : Node) :
  getElementById i l = None → c ∈ l → find_id i c = None.
Proof.
  induction l as [|d l IH]; intros Hl Hin; [inversion Hin|].
  apply getElementById_cons_None in Hl as [Hd Hl].
  apply elem_of_cons in Hin as [->|Hin]; [exact Hd|exact (IH Hl Hin)].
Qed.

Lemma firstElementChild_elem (html : Markup) (e : Node) :
  firstElementChild html = Some e → e ∈ html ∧ is_element e = true.
Proof.
  unfold firstElementChild. intros He. apply head_Some_elem_of in He.
  apply list_elem_of_filter in He as [He Hin]. split; assumption.
Qed.

Lemma falsy_nonempty (html : Markup) : html ≠ [] → V6Loader.falsy (Some html) = false.
Proof. destruct html; [contradiction|reflexivity]. Qed.

End LoaderFacts.

(** ** Reveal on scroll: the observer's callback *)

Lemma pro1_intersection_loop (css : CssParser) (p : RevealPage)
    (entries : list (Element * bool)) (w : RevealWorld) :
  ∃ w',
    Pro1.on_intersection css p entries w = (Normal tt, w') ∧
    observers w' = observers w ∧ pendingTimeouts w' = pendingTimeouts w ∧
    elClass w ⊆ elClass w' ∧
    (∀ el, (el, true) ∈ entries →
       (el, Pro1.visibleClass) ∈ elClass w' ∧ (el ∉ observed w') ∧
       elStyle w' !! (el, "transitionDelay")
         = match css "transitionDelay" (or_default (dataset_delay p el) "0" +:+ "ms") with
           | Some value => Some value
           | None => elStyle w !! (el, "transitionDelay")
           end) ∧
    (∀ el, ((el, true) ∉ entries) →
       (el ∈ observed w' ↔ el ∈ observed w) ∧
       (∀ c, (el, c) ∈ elClass w' ↔ (el, c) ∈ elClass w) ∧
       (∀ prop, elStyle w' !! (el, prop) = elStyle w !! (el, prop))) ∧
    (∀ el c, c ≠ Pro1.visibleClass → ((el, c) ∈ elClass w' ↔ (el, c) ∈ elClass w)) ∧
    (∀ el prop, prop ≠ "transitionDelay" → elStyle w' !! (el, prop) = elStyle w !! (el, prop)) ∧
    (∀ el, el ∈ observed w' → el ∈ observed w).
Proof.
  revert w. induction entries as [|[e b] entries IH]; intros w.
  - exists w. split; [reflexivity|]. do 3 (split; [reflexivity|]).
    split; [intros el Hel; inversion Hel|]. split; [|split; [|split]]; auto.
  - unfold Pro1.on_intersection. simpl forEach. fold (Pro1.on_intersection css p entries).
    destruct b; cbn [snd fst].
    + unfold bind at 1 2 3. unfold modify at 1 2 3.
      set (w1 := unobserve e (el_classList_add e Pro1.visibleClass
                   (el_style_assign css e "transitionDelay"
                      (or_default (dataset_delay p e) "0" +:+ "ms") w))).
      destruct (IH w1) as (w' & E & Ho & Hp & Hsub & Hin & Hout & Hcls & Hsty & Hobs).
      exists w'. split; [exact E|].
      assert (Hkeep : observers w1 = observers w ∧ pendingTimeouts w1 = pendingTimeouts w ∧
                      observed w1 = filter (λ x, x ≠ e) (observed w) ∧
                      elClass w1 = {[(e, Pro1.visibleClass)]} ∪ elClass w).
      { unfold w1, el_style_assign. destruct (css _ _); repeat split. }
      destruct Hkeep as (Ho1 & Hp1 & Hobsd1 & Hclss1).
      split; [rewrite Ho; exact Ho1|]. split; [rewrite Hp; exact Hp1|].
      assert (Hobs1 : ∀ x, x ∈ observed w1 ↔ x ∈ observed w ∧ x ≠ e).
      { intros x. rewrite Hobsd1, list_elem_of_filter. tauto. }
      assert (Hcls1 : ∀ x c, (x, c) ∈ elClass w1
                              ↔ (x = e ∧ c = Pro1.visibleClass) ∨ (x, c) ∈ elClass w).
      { intros x c. rewrite Hclss1, elem_of_union, elem_of_singleton.
        split; (intros [Heq|Hx]; [left|right; exact Hx]).
        - injection Heq as -> ->. auto.
        - destruct Heq as [-> ->]. reflexivity. }
      assert (Hsty1 : ∀ x prop, elStyle w1 !! (x, prop)
                = if decide ((e, "transitionDelay") = (x, prop))
                  then match css "transitionDelay"
                               (or_default (dataset_delay p e) "0" +:+ "ms") with
                       | Some value => Some value
                       | None => elStyle w !! (x, prop)
                       end
                  else elStyle w !! (x, prop)).
      { intros x prop. unfold w1, el_style_assign.
        destruct (css _ _) as [value|]; simpl.
        - destruct (decide _) as [<-|Hne].
          + apply lookup_insert_eq.
          + apply lookup_insert_ne, Hne.
        - destruct (decide _); reflexivity. }
      split; [|split; [|split; [|split; [|split]]]].
      * intros x Hx. apply Hsub, Hcls1. right. exact Hx.
      * intros el Hel. destruct (decide ((el, true) ∈ entries)) as [Hr|Hr].
        -- destruct (Hin el Hr) as (Hc1 & Ho2 & Hs1). split; [exact Hc1|]. split; [exact Ho2|].
           rewrite Hs1, Hsty1. destruct (decide _) as [Heq|_]; [|reflexivity].
           injection Heq as ->.
           destruct (css _ _); reflexivity.
        -- apply elem_of_cons in Hel as [Heq|Hel]; [|contradiction]. injection Heq as ->.
           destruct (Hout e Hr) as (Ho2 & Hc1 & Hs1). split; [|split].
           ++ apply Hc1, Hcls1. left. auto.
           ++ rewrite Ho2, Hobs1. intros [_ Hne]. contradiction.
           ++ rewrite Hs1, Hsty1. destruct (decide _); [reflexivity|contradiction].
      * intros el Hel.
        assert (Hne : el ≠ e) by (intros ->; apply Hel; left).
        assert (Hr : (el, true) ∉ entries) by (intros Hc; apply Hel; right; exact Hc).
        destruct (Hout el Hr) as (Ho2 & Hc1 & Hs1). split; [|split].
        -- rewrite Ho2, Hobs1. tauto.
        -- intros c. rewrite Hc1, Hcls1. split; [intros [[? _]|?]; [contradiction|assumption]|auto].
        -- intros prop. rewrite Hs1, Hsty1.
           destruct (decide _) as [Heq|_]; [injection Heq as -> _; contradiction|reflexivity].
      * intros el c Hc. rewrite (Hcls el c Hc), Hcls1.
        split; [intros [[_ ?]|?]; [contradiction|assumption]|auto].
      * intros el prop Hprop. rewrite (Hsty el prop Hprop), Hsty1.
        destruct (decide _) as [Heq|_]; [injection Heq as _ <-; contradiction|reflexivity].
      * intros el Hel. apply Hobs, Hobs1 in Hel. apply Hel.
    + unfold bind at 1. unfold ret at 1.
      destruct (IH w) as (w' & E & Ho & Hp & Hsub & Hin & Hout & Hcls & Hsty & Hobs).
      exists w'. split; [exact E|]. split; [exact Ho|]. split; [exact Hp|].
      split; [exact Hsub|]. split; [|split; [|auto]].
      * intros el Hel. apply elem_of_cons in Hel as [Heq|Hel]; [discriminate|auto].
      * intros el Hel. apply Hout. intros Hc. apply Hel. right. exact Hc.
Qed.

Lemma reveal_intersection_loop (p : RevealPage) (entries : list (Element * bool))
    (w : RevealWorld) :
  Reveal.on_intersection p entries w =
    (Normal tt,
     set_pendingTimeouts
       (pendingTimeouts w ++
          ((λ entry : Element * bool, (entry.1, or_default (dataset_delay p entry.1) "0")) <$>
             filter (λ entry : Element * bool, entry.2 = true) entries)) w).
Proof.
  revert w. induction entries as [|[e b] entries IH]; intros w.
  - simpl. rewrite app_nil_r. destruct w; reflexivity.
  - unfold Reveal.on_intersection. simpl forEach. fold (Reveal.on_intersection p entries).
    destruct b; cbn [snd fst].
    + unfold bind, modify. rewrite IH. rewrite filter_cons_True by reflexivity.
      simpl. rewrite <- app_assoc. reflexivity.
    + unfold bind, ret. rewrite IH. rewrite filter_cons_False by (simpl; discriminate).
      reflexivity.
Qed.

Lemma observe_loop (xs : list Element) (w : RevealWorld) :
  forEach xs (λ el, modify (observe el)) w =
    (Normal tt,
     mkRevealWorld (elClass w) (elStyle w) (observers w) (observed w ++ xs) (pendingTimeouts w)).
Proof.
  revert w. induction xs as [|x xs IH]; intros w; simpl.
  - rewrite app_nil_r. destruct w; reflexivity.
  - unfold bind, modify. rewrite IH. simpl. rewrite <- app_assoc. reflexivity.
Qed.

(** ** Sticky headers *)

Lemma header_toggle_force_member c force w :
  bool_decide (c ∈ headerClass (header_toggle_force c force w)) = force.
Proof.
  unfold header_toggle_force. simpl. destruct force.
  - apply bool_decide_eq_true. apply elem_of_union_l, elem_of_singleton. reflexivity.
  - apply bool_decide_eq_false. intros Hc. apply elem_of_difference in Hc as (_ & Hc).
    apply Hc, elem_of_singleton. reflexivity.
Qed.

Lemma header_toggle_force_others c force c' w :
  c' ≠ c → c' ∈ headerClass (header_toggle_force c force w) ↔ c' ∈ headerClass w.
Proof.
  intros Hne. unfold header_toggle_force. simpl. destruct force.
  - rewrite elem_of_union, elem_of_singleton. tauto.
  - rewrite elem_of_difference, elem_of_singleton. tauto.
Qed.

Lemma set_pendingFrames_same w : set_pendingFrames (pendingFrames w) w = w.
Proof. destruct w; reflexivity. Qed.

Lemma run_frame_idle callback w : pendingFrames w = 0%nat → run_frame callback w = w.
Proof.
  intros H. unfold run_frame. rewrite H. simpl. rewrite <- H. apply set_pendingFrames_same.
Qed.

Lemma run_frame_one callback w :
  pendingFrames w = 1%nat → run_frame callback w = callback (set_pendingFrames 0 w).
Proof. intros H. unfold run_frame. rewrite H. reflexivity. Qed.

Module Pro1HeaderFacts.
Import Pro1Header.

Section Reachable.
Variables (classes : gset string) (tr : string).

(** What holds of the header once [init] found it. *)
Local Abbreviation J := (λ w : HeaderWorld,
  listening w = true ∧ Throttled w ∧
  (ticking w = false →
   bool_decide (scrolledClass ∈ headerClass w) = js_gt (scrollY w) scrollThreshold) ∧
  headerTransform w = tr ∧
  (∀ c, c ≠ scrolledClass → c ∈ headerClass w ↔ c ∈ classes)).

Lemma pro1h_init y : J (init true (header_world0 y classes tr)).
Proof.
  unfold init. simpl negb. cbv iota. split; [reflexivity|]. split; [reflexivity|].
  split; [|split].
  - intros _. unfold updateHeaderState. apply header_toggle_force_member.
  - reflexivity.
  - intros c Hc. unfold updateHeaderState. apply header_toggle_force_others. exact Hc.
Qed.

Lemma pro1h_frame_callback w :
  listening w = true → headerTransform w = tr →
  (∀ c, c ≠ scrolledClass → c ∈ headerClass w ↔ c ∈ classes) →
  pendingFrames w = 0%nat →
  J (frame_callback w).
Proof.
  intros Hl Ht Hc Hp. unfold frame_callback. split; [exact Hl|]. split.
  - unfold Throttled. simpl. exact Hp.
  - split; [|split].
    + intros _. unfold updateHeaderState. apply header_toggle_force_member.
    + exact Ht.
    + intros c Hne. unfold updateHeaderState. simpl headerClass.
      etransitivity; [apply (header_toggle_force_others _ _ _ w Hne)|]. apply Hc, Hne.
Qed.

Lemma pro1h_step ev w : J w → J (step ev w).
Proof.
  intros (Hl & Hth & Hs & Ht & Hc). destruct ev as [y| |p]; simpl.
  - rewrite Hl. unfold onScroll. simpl. unfold Throttled in Hth.
    destruct (ticking w) eqn:Htk.
    + split; [exact Hl|]. split; [unfold Throttled; simpl; rewrite Htk; exact Hth|].
      split; [simpl; rewrite Htk; discriminate|]. split; [exact Ht|exact Hc].
    + split; [exact Hl|]. split; [unfold Throttled; simpl; rewrite Hth; reflexivity|].
      split; [simpl; discriminate|]. split; [exact Ht|exact Hc].
  - unfold Throttled in Hth. destruct (ticking w) eqn:Htk.
    + rewrite (run_frame_one _ _ Hth). apply pro1h_frame_callback; try assumption. reflexivity.
    + rewrite (run_frame_idle _ _ Hth). split; [exact Hl|]. split.
      * unfold Throttled. rewrite Htk. exact Hth.
      * split; [intros _; apply Hs; reflexivity|]. split; [exact Ht|exact Hc].
  - split; [exact Hl|]. split; [exact Hth|]. split; [exact Hs|]. split; [exact Ht|exact Hc].
Qed.

Lemma pro1h_run evs w : J w → J (run evs w).
Proof.
  revert w. induction evs as [|ev evs IH]; intros w HJ; [exact HJ|].
  apply IH, pro1h_step, HJ.
Qed.

Lemma pro1h_frame_settles w : J w → ticking (step Frame w) = false.
Proof.
  intros (_ & Hth & _). simpl. unfold Throttled in Hth. destruct (ticking w) eqn:Htk.
  - rewrite (run_frame_one _ _ Hth). reflexivity.
  - rewrite (run_frame_idle _ _ Hth). exact Htk.
Qed.

End Reachable.

(** Without a header nothing listens: events only move the page. *)
Lemma pro1h_absent_step ev w :
  listening w = false → pendingFrames w = 0%nat →
  listening (step ev w) = false ∧ pendingFrames (step ev w) = 0%nat ∧
  headerClass (step ev w) = headerClass w ∧ headerTransform (step ev w) = headerTransform w.
Proof.
  intros Hl Hp. destruct ev as [y| |p]; simpl.
  - rewrite Hl. repeat split; assumption.
  - rewrite (run_frame_idle _ _ Hp). repeat split; assumption.
  - repeat split; assumption.
Qed.

Lemma pro1h_absent_run evs w :
  listening w = false → pendingFrames w = 0%nat →
  headerClass (run evs w) = headerClass w ∧ headerTransform (run evs w) = headerTransform w.
Proof.
  revert w. induction evs as [|ev evs IH]; intros w Hl Hp; [split; reflexivity|].
  destruct (pro1h_absent_step ev w Hl Hp) as (Hl' & Hp' & Hc & Ht).
  destruct (IH _ Hl' Hp') as (Hc' & Ht'). simpl. unfold run in *.
  split; [rewrite Hc', Hc|rewrite Ht', Ht]; reflexivity.
Qed.

End Pro1HeaderFacts.

Module V8HeaderFacts.
Import V8Header.

(** What holds of the header once [init] found it. *)
Local Abbreviation J := (λ w : HeaderWorld, listening w = true ∧ Throttled w).

Lemma v8h_init y classes tr : J (init true (header_world0 y classes tr)).
Proof. split; reflexivity. Qed.

Lemma v8h_onUpdate_keeps p w :
  ticking (onUpdate p w) = ticking w ∧ listening (onUpdate p w) = listening w ∧
  pendingFrames (onUpdate p w) = pendingFrames w ∧
  headerTransform (onUpdate p w) = headerTransform w ∧
  lastScrollY (onUpdate p w) = lastScrollY w ∧ scrollY (onUpdate p w) = scrollY w.
Proof.
  unfold onUpdate. destruct (negb (eqb (js_gt p 0) (isScrolled w))); repeat split.
Qed.

Lemma v8h_frame_callback_shape w :
  listening (frame_callback w) = listening w ∧ ticking (frame_callback w) = false ∧
  pendingFrames (frame_callback w) = pendingFrames w ∧
  lastScrollY (frame_callback w) = scrollY w ∧ scrollY (frame_callback w) = scrollY w ∧
  headerClass (frame_callback w) = headerClass w ∧
  isScrolled (frame_callback w) = isScrolled w ∧
  headerTransform (frame_callback w) =
    (if js_gt (scrollY w) 200 && js_gt (scrollY w) (lastScrollY w)
     then "translateY(-100%)" else "translateY(0)").
Proof.
  unfold frame_callback.
  destruct (js_gt (scrollY w) 200 && js_gt (scrollY w) (lastScrollY w)); repeat split.
Qed.

Lemma v8h_step ev w : J w → J (step ev w).
Proof.
  intros (Hl & Hth). unfold Throttled in *. destruct ev as [y| |p]; simpl.
  - rewrite Hl. unfold onScroll. simpl. destruct (ticking w) eqn:Htk.
    + split; [exact Hl|]. simpl. rewrite Htk. exact Hth.
    + split; [exact Hl|]. simpl. rewrite Hth. reflexivity.
  - destruct (ticking w) eqn:Htk.
    + rewrite (run_frame_one _ _ Hth).
      destruct (v8h_frame_callback_shape (set_pendingFrames 0 w)) as (E1 & E2 & E3 & _).
      rewrite E1, E2, E3. split; [exact Hl|reflexivity].
    + rewrite (run_frame_idle _ _ Hth). rewrite Htk. split; assumption.
  - rewrite Hl. destruct (v8h_onUpdate_keeps p w) as (E1 & E2 & E3 & _).
    rewrite E1, E2, E3. split; assumption.
Qed.

Lemma v8h_run evs w : J w → J (run evs w).
Proof.
  revert w. induction evs as [|ev evs IH]; intros w HJ; [exact HJ|].
  apply IH, v8h_step, HJ.
Qed.

Lemma v8h_run_app evs evs' w : run (evs ++ evs') w = run evs' (run evs w).
Proof. unfold run. apply foldl_app. Qed.

Lemma v8h_frame_settles w : J w → J (step Frame w) ∧ ticking (step Frame w) = false.
Proof.
  intros HJ. split; [apply v8h_step, HJ|]. destruct HJ as (_ & Hth). unfold Throttled in Hth.
  simpl. destruct (ticking w) eqn:Htk.
  - rewrite (run_frame_one _ _ Hth). reflexivity.
  - rewrite (run_frame_idle _ _ Hth). exact Htk.
Qed.

(** Scroll events while a callback is pending only move the page. *)
Lemma v8h_scrolls_pending ys w :
  J w → ticking w = true →
  ∃ w', run (Scroll <$> ys) w = w' ∧ J w' ∧ ticking w' = true ∧
        lastScrollY w' = lastScrollY w ∧ headerClass w' = headerClass w ∧
        isScrolled w' = isScrolled w ∧ (ys = [] → scrollY w' = scrollY w) ∧
        (∀ y, last ys = Some y → scrollY w' = y).
Proof.
  revert w. induction ys as [|y ys IH]; intros w HJ Htk.
  - exists w. repeat split; try assumption; try apply HJ. intros y Hy. discriminate Hy.
  - assert (E : step (Scroll y) w = set_scrollY y w).
    { simpl. destruct HJ as (Hl & _). rewrite Hl. unfold onScroll. simpl. rewrite Htk.
      reflexivity. }
    assert (HJ' : J (set_scrollY y w)) by (rewrite <- E; apply v8h_step, HJ).
    destruct (IH (set_scrollY y w) HJ' Htk) as (w' & Er & HJw & Ht' & El & Ec & Ei & Hn & Hy).
    exists w'. cbn [fmap list_fmap run foldl]. fold (step (Scroll y) w). rewrite E.
    split; [exact Er|]. split; [exact HJw|]. split; [exact Ht'|]. split; [exact El|].
    split; [exact Ec|]. split; [exact Ei|]. split; [discriminate|].
    intros y' Hl. destruct ys as [|y2 ys'].
    + simpl in Hl. injection Hl as <-. rewrite (Hn eq_refl). reflexivity.
    + apply Hy. exact Hl.
Qed.

Lemma v8h_scroll_step y w :
  J w →
  J (step (Scroll y) w) ∧ ticking (step (Scroll y) w) = true ∧
  lastScrollY (step (Scroll y) w) = lastScrollY w ∧ scrollY (step (Scroll y) w) = y.
Proof.
  intros HJ. split; [apply v8h_step, HJ|]. destruct HJ as (Hl & _).
  simpl. rewrite Hl. unfold onScroll. simpl.
  destruct (ticking w) eqn:Htk; simpl; [rewrite Htk|]; repeat split.
Qed.

(** A burst of scroll events leaves one callback pending and the page at
    the last position. *)
Lemma v8h_burst ys y w :
  J w →
  ∃ w', run (Scroll <$> (ys ++ [y])) w = w' ∧ J w' ∧ ticking w' = true ∧
        lastScrollY w' = lastScrollY w ∧ scrollY w' = y.
Proof.
  intros HJ. destruct (ys ++ [y]) as [|y1 zs] eqn:Ez.
  { destruct ys; discriminate Ez. }
  assert (Hlast : last (y1 :: zs) = Some y) by (rewrite <- Ez; apply last_snoc).
  destruct (v8h_scroll_step y1 w HJ) as (HJ1 & Htk1 & El1 & Es1).
  destruct (v8h_scrolls_pending zs _ HJ1 Htk1) as (w' & Er & HJ' & Htk' & El & _ & _ & Hn & Hy).
  exists w'. cbn [fmap list_fmap run foldl]. split; [exact Er|]. split; [exact HJ'|].
  split; [exact Htk'|]. split; [rewrite El; exact El1|].
  destruct zs as [|z zs'].
  - simpl in Hlast. injection Hlast as <-. rewrite (Hn eq_refl). exact Es1.
  - apply Hy. exact Hlast.
Qed.

Lemma v8h_burst_then_frame ys y w :
  J w →
  headerTransform (run ((Scroll <$> ys) ++ [Scroll y; Frame]) w)
    = (if js_gt y 200 && js_gt y (lastScrollY w)
       then "translateY(-100%)" else "translateY(0)") ∧
  lastScrollY (run ((Scroll <$> ys) ++ [Scroll y; Frame]) w) = y ∧
  pendingFrames (run ((Scroll <$> ys) ++ [Scroll y; Frame]) w) = 0%nat ∧
  ticking (run ((Scroll <$> ys) ++ [Scroll y; Frame]) w) = false.
Proof.
  intros HJ.
  assert (E : (Scroll <$> ys) ++ [Scroll y; Frame] = (Scroll <$> (ys ++ [y])) ++ [Frame]).
  { rewrite fmap_app, <- app_assoc. reflexivity. }
  rewrite E, v8h_run_app.
  destruct (v8h_burst ys y w HJ) as (w' & -> & (Hl & Hth) & Htk & El & Es).
  unfold Throttled in Hth. rewrite Htk in Hth.
  change (run [Frame] w') with (run_frame frame_callback w').
  rewrite (run_frame_one _ _ Hth).
  destruct (v8h_frame_callback_shape (set_pendingFrames 0 w'))
    as (_ & E2 & E3 & E4 & _ & _ & _ & E5).
  rewrite E2, E3, E4, E5. simpl. rewrite Es, El. repeat split.
Qed.

Lemma v8h_frame_twice w : J w → step Frame (step Frame w) = step Frame w.
Proof.
  intros HJ. destruct (v8h_frame_settles w HJ) as ((_ & Hth) & Htk).
  unfold Throttled in Hth. rewrite Htk in Hth.
  change (step Frame (step Frame w)) with (run_frame frame_callback (step Frame w)).
  apply run_frame_idle, Hth.
Qed.

(** The cached flag and the class move together. *)
Lemma v8h_onUpdate_cached p w :
  ClassCached w → ClassCached (onUpdate p w) ∧ isScrolled (onUpdate p w) = js_gt p 0.
Proof.
  unfold ClassCached, onUpdate. intros Hc.
  destruct (js_gt p 0) eqn:Hp, (isScrolled w) eqn:Hi; simpl.
  - split; [rewrite Hi; exact Hc|exact Hi].
  - split; [|reflexivity]. apply (header_toggle_force_member "is-scrolled" true).
  - split; [|reflexivity]. apply (header_toggle_force_member "is-scrolled" false).
  - split; [rewrite Hi; exact Hc|exact Hi].
Qed.

Lemma v8h_step_cached ev w : J w → ClassCached w → ClassCached (step ev w).
Proof.
  intros (Hl & Hth) Hc. unfold Throttled in Hth. destruct ev as [y| |p]; simpl.
  - rewrite Hl. unfold onScroll. simpl. destruct (ticking w); exact Hc.
  - destruct (ticking w) eqn:Htk.
    + rewrite (run_frame_one _ _ Hth). unfold ClassCached.
      destruct (v8h_frame_callback_shape (set_pendingFrames 0 w))
        as (_ & _ & _ & _ & _ & E1 & E2 & _).
      rewrite E1, E2. exact Hc.
    + rewrite (run_frame_idle _ _ Hth). exact Hc.
  - rewrite Hl. apply v8h_onUpdate_cached, Hc.
Qed.

Lemma v8h_run_cached evs w : J w → ClassCached w → ClassCached (run evs w).
Proof.
  revert w. induction evs as [|ev evs IH]; intros w HJ Hc; [exact Hc|].
  apply IH; [apply v8h_step, HJ|apply v8h_step_cached; assumption].
Qed.

End V8HeaderFacts.

(** * The claims *)

(** C1.  Focus containment.  While the panel is open, Tab on the last
    focusable element suppresses the default and moves the focus to the
    first, Shift+Tab on the first suppresses the default and moves the focus
    to the last, and on an element that is neither, Tab and Shift+Tab leave
    the component quiet and the default in place.  The move is a call of
    focus() on the first, respectively last, element the selector matched:
    it lands when that element can take focus, as a focusable element does;
    on a matched element that cannot (a disabled button) the focus stays
    where it is, the default still suppressed.  This holds in every state
    the page can reach after a successful init, both for the 6.0 script
    (handleKeydown, handleTabNavigation) and for the Professional Edition
    script (handleKeydown). *)
Theorem C1_focus_containment (p : Page) (d : Dom) (t n : Element) (evs : list Event) :
  q_toggle p = Some t → q_nav p = Some n →
  (V6.isOpen (nav (V6.run evs (V6.boot p d))) = true →
   traps_focus V6.step (q_focusable p) (V6.run evs (V6.boot p d))) ∧
  (Pro1.isNavOpen (Pro1.run evs (Pro1.boot p d)) = true →
   traps_focus Pro1.step (q_focusable p) (Pro1.run evs (Pro1.boot p d))).
Proof.
  intros Ht Hn. split; intros Ho.
  - apply (V6Facts.v6_traps t n); [|exact Ho].
    apply (V6Facts.v6_reachable p d t n evs Ht Hn).
  - apply (Pro1Facts.pro1_traps t n); [|exact Ho].
    apply (Pro1Facts.pro1_reachable p d t n evs Ht Hn).
Qed.

Lemma C1_witness :
  let w := V6.run [Click Sample.on_trigger; AnimationFrame] (V6.boot Sample.page Sample.dom0) in
  let v := Pro1.run [Click Sample.on_trigger]
             (Pro1.boot Sample.page Sample.dom_first_disabled) in
  (activeElement (dom w) = Some Sample.link_a ∧
   activeElement (dom (V6.step (Keydown "Tab" true) w)) = Some Sample.link_c ∧
   defaultPrevented (V6.step (Keydown "Tab" true) w) = true) ∧
  (activeElement (dom v) = None ∧
   defaultPrevented (Pro1.step (Keydown "Tab" true) v) = false).
Proof.
  intros w v. split.
  - destruct (C1_focus_containment Sample.page Sample.dom0 Sample.toggle Sample.panel
                [Click Sample.on_trigger; AnimationFrame] eq_refl eq_refl) as [H6 _].
    assert (Ho : V6.isOpen (nav w) = true) by (vm_compute; reflexivity).
    assert (Ha : activeElement (dom w) = Some Sample.link_a) by (vm_compute; reflexivity).
    destruct (H6 Ho) as (_ & Hshift & _).
    destruct (Hshift Sample.link_a eq_refl Ha) as (l & Hl & Hp & Hmove & _).
    injection Hl as <-.
    split; [exact Ha|]. split; [|exact Hp].
    apply Hmove. vm_compute. reflexivity.
  - destruct (C1_focus_containment Sample.page Sample.dom_first_disabled Sample.toggle
                Sample.panel [Click Sample.on_trigger] eq_refl eq_refl) as [_ HP].
    assert (Ho : Pro1.isNavOpen v = true) by (vm_compute; reflexivity).
    destruct (HP Ho) as (_ & _ & _ & Hrest).
    split; [vm_compute; reflexivity|].
    apply (Hrest true). vm_compute. reflexivity.
Defined.

(** C2.  Pure toggle with forced close (6.0 script).  From a closed panel,
    after any sequence of activations of the trigger the panel is open
    exactly when their number is odd; the panel is closed after init; and in
    whatever state the page is, an Escape keydown and a click outside the
    panel and the trigger leave the panel closed. *)
Theorem C2_toggle_parity_and_forced_close (p : Page) (d : Dom) (t n : Element)
    (evs : list Event) :
  q_toggle p = Some t → q_nav p = Some n →
  V6.isOpen (nav (V6.boot p d)) = false ∧
  (V6.isOpen (nav (V6.run evs (V6.boot p d))) = false →
   ∀ paths, Forall (trigger_click t (q_focusable p)) paths →
     V6.isOpen (nav (V6.run (Click <$> paths) (V6.run evs (V6.boot p d))))
     = Nat.odd (length paths)) ∧
  (∀ shift,
     V6.isOpen (nav (V6.step (Keydown "Escape" shift) (V6.run evs (V6.boot p d)))) = false) ∧
  (∀ path, outside_click t n path →
     V6.isOpen (nav (V6.step (Click path) (V6.run evs (V6.boot p d)))) = false).
Proof.
  intros Ht Hn. pose proof (V6Facts.v6_reachable p d t n evs Ht Hn) as [HR _].
  split; [apply (V6Facts.v6_boot_ready p d t n Ht Hn)|]. split; [|split].
  - intros Ho paths Hall.
    rewrite (V6Facts.v6_activations_parity t n _ paths _ HR Hall), Ho. reflexivity.
  - intros shift. apply (V6Facts.v6_step_escape t n _ shift _ HR).
  - intros path Hout. apply (V6Facts.v6_step_outside t n _ path _ HR Hout).
Qed.

Lemma C2_witness :
  V6.isOpen (nav (V6.run (Click <$> [Sample.on_trigger; Sample.on_trigger; Sample.on_trigger])
                         (V6.boot Sample.page Sample.dom0))) = true ∧
  V6.isOpen (nav (V6.step (Click Sample.on_content)
                          (V6.run [Click Sample.on_trigger] (V6.boot Sample.page Sample.dom0))))
  = false.
Proof.
  destruct (C2_toggle_parity_and_forced_close Sample.page Sample.dom0 Sample.toggle
              Sample.panel [] eq_refl eq_refl) as (_ & Hpar & _).
  destruct (C2_toggle_parity_and_forced_close Sample.page Sample.dom0 Sample.toggle
              Sample.panel [Click Sample.on_trigger] eq_refl eq_refl) as (_ & _ & _ & Hout).
  assert (Hall : Forall (trigger_click Sample.toggle (q_focusable Sample.page))
                        [Sample.on_trigger; Sample.on_trigger; Sample.on_trigger])
    by (repeat (apply Forall_cons; split; [exact sample_trigger_click|]); apply Forall_nil; exact I).
  pose proof (Hpar ltac:(vm_compute; reflexivity) _ Hall) as H1.
  pose proof (Hout _ sample_outside_click) as H2.
  vm_compute in H1, H2 |- *. split; [exact H1 | exact H2].
Defined.



(** C4.  Missing elements.  If the trigger or the panel is not found, init
    returns normally, registers nothing, and whatever events follow the
    component shows no trace of having acted (its fields, the body's
    classes, the attributes and the focus are as init left them, and init
    left the DOM as it found it); the inits of the sibling components run
    right after it.  This holds for the 6.0 and the 2.0 script. *)
Theorem C4_missing_elements (p : Page) (d : Dom) (evs : list Event) :
  q_toggle p = None ∨ q_nav p = None →
  (completion (V6.init p) (V6.world0 d) = Normal tt ∧
   dom (V6.boot p d) = d ∧
   V6.isOpen (nav (V6.boot p d)) = false ∧
   listeners (V6.run evs (V6.boot p d)) = [] ∧
   quiet (V6.boot p d) (V6.run evs (V6.boot p d)) ∧
   ∀ siblings,
     V6.initComponents true p siblings (V6.world0 d)
     = forEach siblings (λ sibling_init, sibling_init) (V6.boot p d)) ∧
  (completion (V2.init p) (V2.world0 d) = Normal tt ∧
   dom (V2.boot p d) = d ∧
   listeners (V2.run evs (V2.boot p d)) = [] ∧
   quiet (V2.boot p d) (V2.run evs (V2.boot p d)) ∧
   ∀ siblings,
     V2.app_init true p siblings (V2.world0 d)
     = forEach siblings (λ sibling_init, sibling_init) (V2.boot p d)).
Proof.
  intros Hm. split.
  - destruct (V6_init_missing p d Hm) as (E & Hl & Hf & Htm & Hd & Ho).
    destruct (inert_run V6.invoke evs (V6.boot p d) Hl Hf Htm) as (Hq & Hl' & _).
    unfold completion. rewrite E.
    repeat split; try assumption; try apply Hq.
    intros siblings. apply V6_siblings_run, E.
  - destruct (V2_init_missing p d Hm) as (E & Hl & Hf & Htm & Hd).
    destruct (inert_run V2.invoke evs (V2.boot p d) Hl Hf Htm) as (Hq & Hl' & _).
    unfold completion. rewrite E.
    repeat split; try assumption; try apply Hq.
    intros siblings. apply V2_siblings_run, E.
Qed.

Lemma C4_witness :
  quiet (V6.boot Sample.page_without_panel Sample.dom0)
        (V6.run [Click Sample.on_trigger; Keydown "Escape" false; Resize 1024]
                (V6.boot Sample.page_without_panel Sample.dom0)) ∧
  bodyClass (dom (V2.run [Click Sample.on_trigger]
                         (V2.boot Sample.page_without_panel Sample.dom0))) = ∅.
Proof.
  destruct (C4_missing_elements Sample.page_without_panel Sample.dom0
              [Click Sample.on_trigger; Keydown "Escape" false; Resize 1024]
              (or_intror eq_refl)) as ((_ & _ & _ & _ & Hq & _) & _).
  destruct (C4_missing_elements Sample.page_without_panel Sample.dom0
              [Click Sample.on_trigger] (or_intror eq_refl))
    as (_ & (_ & Hd & _ & (_ & Hc & _) & _)).
  split; [exact Hq|]. rewrite Hc, Hd. reflexivity.
Defined.

(** C5.  Closing a closed panel changes nothing.  The component is private
    to its script, so a close can only be asked for through the events it
    listens to: an Escape or any other keydown, a click that does not go
    through the trigger (outside, or on a link of the panel), a resize, and
    in the 8.0 script the expiry of the timers of its debounced handlers.
    While the panel is closed each of them leaves the component's fields,
    the body's classes, the attributes and the focused element as they
    were.  This holds for the 6.0 and the 8.0 script, in every state the
    page can reach after a successful init. *)
Theorem C5_close_requests_idle_when_closed (p : Page) (d : Dom) (t n : Element)
    (evs : list Event) (ev : Event) :
  q_toggle p = Some t → q_nav p = Some n → close_request t ev →
  (V6.isOpen (nav (V6.run evs (V6.boot p d))) = false →
   quiet (V6.run evs (V6.boot p d)) (V6.step ev (V6.run evs (V6.boot p d)))) ∧
  (V8.isOpen (nav (V8.run evs (V8.boot p d))) = false →
   quiet (V8.run evs (V8.boot p d)) (V8.step ev (V8.run evs (V8.boot p d))) ∧
   ∀ i, quiet (V8.run evs (V8.boot p d)) (V8.step (TimerFires i) (V8.run evs (V8.boot p d)))).
Proof.
  intros Ht Hn Hev. split; intros Ho.
  - pose proof (V6Facts.v6_reachable p d t n evs Ht Hn) as [HR _].
    apply (V6Facts.v6_closed_quiet t n _ ev _ HR Ho).
    destruct ev; try exact Hev; exact I.
  - pose proof (V8Facts.v8_reachable p d t n evs Ht Hn) as HI. split.
    + apply (V8Facts.v8_closed_quiet t n _ ev _ HI Ho).
      destruct ev; try exact Hev; exact I.
    + intros i. apply (V8Facts.v8_closed_quiet t n _ (TimerFires i) _ HI Ho). exact I.
Qed.

Lemma C5_witness :
  let w := V6.boot Sample.page (focus Sample.link_b Sample.dom0) in
  activeElement (dom (V6.step (Keydown "Escape" false) w)) = Some Sample.link_b.
Proof.
  intros w. subst w.
  destruct (C5_close_requests_idle_when_closed Sample.page (focus Sample.link_b Sample.dom0)
              Sample.toggle Sample.panel [] (Keydown "Escape" false) eq_refl eq_refl I)
    as (H6 & _).
  rewrite V6_run_nil in H6.
  destruct (H6 ltac:(vm_compute; reflexivity)) as (_ & _ & _ & Ha).
  rewrite Ha. vm_compute. reflexivity.
Defined.

(** C6 (as amended).  On the transition from closed to open the script asks
    the first focusable element of the panel to take the focus, and the
    focus goes there when that element can take it on the opened page.  In
    the 6.0 script the activation handler leaves the focus where it is and
    queues the move with requestAnimationFrame; the next frame performs it.
    In the Professional Edition script the handler moves the focus itself,
    before it returns, and queues nothing.  When the first element the
    selector matched cannot take focus, the focus stays where it was. *)
Theorem C6_focus_on_open (p : Page) (d : Dom) (t n f : Element) (evs : list Event)
    (path : list Element) :
  q_toggle p = Some t → q_nav p = Some n →
  trigger_click t (q_focusable p) path → head (q_focusable p) = Some f →
  (V6.isOpen (nav (V6.run evs (V6.boot p d))) = false →
   V6.isOpen (nav (V6.step (Click path) (V6.run evs (V6.boot p d)))) = true ∧
   activeElement (dom (V6.step (Click path) (V6.run evs (V6.boot p d))))
     = activeElement (dom (V6.run evs (V6.boot p d))) ∧
   frameQueue (V6.step (Click path) (V6.run evs (V6.boot p d)))
     = frameQueue (V6.run evs (V6.boot p d)) ++ [V6.H_focusFirst] ∧
   (can_focus f (dom (V6.step (Click path) (V6.run evs (V6.boot p d)))) = true →
    activeElement (dom (V6.step AnimationFrame
                          (V6.step (Click path) (V6.run evs (V6.boot p d))))) = Some f) ∧
   (can_focus f (dom (V6.step (Click path) (V6.run evs (V6.boot p d)))) = false →
    activeElement (dom (V6.step AnimationFrame
                          (V6.step (Click path) (V6.run evs (V6.boot p d)))))
      = activeElement (dom (V6.run evs (V6.boot p d))))) ∧
  (Pro1.isNavOpen (Pro1.run evs (Pro1.boot p d)) = false →
   Pro1.isNavOpen (Pro1.step (Click path) (Pro1.run evs (Pro1.boot p d))) = true ∧
   (can_focus f (dom (Pro1.step (Click path) (Pro1.run evs (Pro1.boot p d)))) = true →
    activeElement (dom (Pro1.step (Click path) (Pro1.run evs (Pro1.boot p d)))) = Some f) ∧
   (can_focus f (dom (Pro1.step (Click path) (Pro1.run evs (Pro1.boot p d)))) = false →
    activeElement (dom (Pro1.step (Click path) (Pro1.run evs (Pro1.boot p d))))
      = activeElement (dom (Pro1.run evs (Pro1.boot p d)))) ∧
   frameQueue (Pro1.step (Click path) (Pro1.run evs (Pro1.boot p d))) = []).
Proof.
  intros Ht Hn Htc Hf. split; intros Ho.
  - destruct (V6Further.v6_boot_K p d t n Ht Hn) as [HR0 HC0].
    pose proof (V6Further.v6_K_run t n _ evs _ (conj HR0 HC0)) as HK.
    pose proof (V6Further.v6_K_step t n _ (Click path) _ HK) as [HR1 (HQ1 & _)].
    destruct HK as [HR _].
    destruct (V6Facts.v6_open_defers t n _ path _ HR Ho Htc) as (Ho' & Ha & Hq).
    split; [exact Ho'|]. split; [exact Ha|]. split; [exact Hq|].
    rewrite (V6Further.v6_frame_step t n _ _ HR1 HQ1), Hf.
    destruct (decide _) as [Hnil|_].
    { rewrite Hq in Hnil. destruct (frameQueue (V6.run evs (V6.boot p d))); discriminate. }
    simpl. split; intros Hc; rewrite Hc; [reflexivity|exact Ha].
  - pose proof (Pro1Facts.pro1_reachable p d t n evs Ht Hn) as HR.
    destruct (Pro1Facts.pro1_open_is_immediate t n _ path _ f HR Ho Hf Htc) as (Ho' & Ha & Hq & _).
    split; [exact Ho'|]. split; [|split; [|exact Hq]].
    + intros Hc. rewrite Ha, Hc. reflexivity.
    + intros Hc. rewrite Ha, Hc. reflexivity.
Qed.

Lemma C6_witness :
  let w := V6.step (Click Sample.on_trigger) (V6.boot Sample.page Sample.dom0) in
  activeElement (dom w) = None ∧
  frameQueue w = [V6.H_focusFirst] ∧
  activeElement (dom (V6.step AnimationFrame w)) = Some Sample.link_a.
Proof.
  intros w. subst w.
  destruct (C6_focus_on_open Sample.page Sample.dom0 Sample.toggle Sample.panel Sample.link_a
              [] Sample.on_trigger eq_refl eq_refl sample_trigger_click eq_refl) as (H6 & _).
  rewrite V6_run_nil in H6.
  destruct (H6 ltac:(vm_compute; reflexivity)) as (_ & Ha & Hq & Hf & _).
  rewrite Ha, Hq, (Hf ltac:(vm_compute; reflexivity)). vm_compute. repeat split.
Defined.

(** In the Professional Edition script, when the activation handler has
    returned the focus already is on the first link and no frame callback
    is pending: the move is not deferred. *)
Lemma C6_counterexample :
  let w := Pro1.step (Click Sample.on_trigger) (Pro1.boot Sample.page Sample.dom0) in
  Pro1.isNavOpen w = true ∧
  activeElement (dom w) = Some Sample.link_a ∧
  frameQueue w = [].
Proof. vm_compute. repeat split. Qed.

(** C7 (as amended).  In the 6.0 script a resize event that finds the
    viewport wider than 768 closes an open panel within the event, with
    exactly the effects of closeMenu, and leaves a closed one closed.  In
    the 8.0 script a resize event only (re)arms the timer of the debounced
    check; when that timer runs out the panel closes, with exactly the
    effects of close, if it is open and the viewport is then wider than 768,
    and otherwise nothing happens. *)
Theorem C7_resize_to_desktop (p : Page) (d : Dom) (t n : Element) (evs : list Event)
    (x : Z) :
  q_toggle p = Some t → q_nav p = Some n → 768 < x →
  ((V6.isOpen (nav (V6.run evs (V6.boot p d))) = true →
    V6.step (Resize x) (V6.run evs (V6.boot p d))
    = exec V6.closeMenu
        (with_dom (set_innerWidth x) (set_defaultPrevented false (V6.run evs (V6.boot p d))))) ∧
   V6.isOpen (nav (V6.step (Resize x) (V6.run evs (V6.boot p d)))) = false) ∧
  (V8.step (Resize x) (V8.run evs (V8.boot p d))
   = debounced V8.H_resizeCheck (Resize x)
       (with_dom (set_innerWidth x) (set_defaultPrevented false (V8.run evs (V8.boot p d)))) ∧
   ∀ i ev',
     timers (V8.run evs (V8.boot p d)) !! i = Some (V8.H_resizeCheck, ev') →
     V8.step (TimerFires i) (V8.run evs (V8.boot p d))
     = if V8.isOpen (nav (V8.run evs (V8.boot p d)))
          && bool_decide (768 < innerWidth (dom (V8.run evs (V8.boot p d))))
       then exec V8.close
              (set_timers (delete i (timers (V8.run evs (V8.boot p d))))
                 (set_defaultPrevented false (V8.run evs (V8.boot p d))))
       else set_timers (delete i (timers (V8.run evs (V8.boot p d))))
              (set_defaultPrevented false (V8.run evs (V8.boot p d)))).
Proof.
  intros Ht Hn Hx. split.
  - pose proof (V6Facts.v6_reachable p d t n evs Ht Hn) as [HR _].
    split; [intros Ho; apply (V6Facts.v6_resize_closes t n _ x _ HR Ho Hx)|].
    destruct (V6.isOpen (nav (V6.run evs (V6.boot p d)))) eqn:Ho.
    + rewrite (V6Facts.v6_resize_closes t n _ x _ HR Ho Hx).
      destruct (V6Facts.v6_closeMenu_keeps t n (q_focusable p)
                  (with_dom (set_innerWidth x)
                     (set_defaultPrevented false (V6.run evs (V6.boot p d)))))
        as (w' & E & _ & Ho'); [exact HR|].
      unfold exec. rewrite E. exact Ho'.
    + assert (Hq : quiet (V6.run evs (V6.boot p d))
                         (V6.step (Resize x) (V6.run evs (V6.boot p d))))
        by (apply (V6Facts.v6_closed_quiet t n _ (Resize x) _ HR Ho); exact I).
      destruct Hq as (Hnav & _). rewrite Hnav. exact Ho.
  - pose proof (V8Facts.v8_reachable p d t n evs Ht Hn) as HI.
    split; [apply (V8Facts.v8_step_resize t n _ x _ HI)|].
    intros i ev' Hi.
    destruct (V8.isOpen (nav (V8.run evs (V8.boot p d)))) eqn:Ho; simpl.
    + case_bool_decide as Hw.
      * apply (V8Facts.v8_resize_timer_closes t n _ i ev' _ HI Hi Ho Hw).
      * apply (V8Facts.v8_resize_timer_idle t n _ i ev' _ HI Hi). right. lia.
    + apply (V8Facts.v8_resize_timer_idle t n _ i ev' _ HI Hi). left. exact Ho.
Qed.

Lemma C7_witness :
  V6.isOpen (nav (V6.step (Resize 1024)
                    (V6.run [Click Sample.on_trigger] (V6.boot Sample.page Sample.dom0))))
  = false.
Proof.
  destruct (C7_resize_to_desktop Sample.page Sample.dom0 Sample.toggle Sample.panel
              [Click Sample.on_trigger] 1024 eq_refl eq_refl ltac:(lia)) as ((_ & Hc) & _).
  exact Hc.
Defined.

(** In the 8.0 script the panel is open in a 1024 wide viewport after the
    resize event, and when the viewport narrows again before the debounce
    timer runs out it is never closed: both pending timers expire, nothing
    is left pending, the panel is still open.  In the 6.0 script the panel
    opens in a 1024 wide viewport when the trigger is activated there. *)
Lemma C7_counterexample :
  let w1 := V8.run [Click Sample.on_trigger; Resize 1024] (V8.boot Sample.page Sample.dom0) in
  let w2 := V8.run [Resize 600; TimerFires 0; TimerFires 0] w1 in
  let w6 := V6.run [Resize 1024; Click Sample.on_trigger] (V6.boot Sample.page Sample.dom0) in
  V8.isOpen (nav w1) = true ∧ innerWidth (dom w1) = 1024 ∧
  V8.isOpen (nav w2) = true ∧ timers w2 = [] ∧
  V6.isOpen (nav w6) = true ∧ innerWidth (dom w6) = 1024.
Proof. vm_compute. repeat split. Qed.

(** C8 (as amended).  The fragment loader never throws to its caller, in
    version 5.1 and in version 6.0, whatever the network answers.  When no
    element of the document carries the placeholder's id it does nothing.
    Otherwise the placeholder is the first element with that id, wherever it
    sits in the tree.  Version 5.1 puts the whole retrieved markup in its
    place, and on a failed retrieval (rejected fetch, status outside
    200-299, unreadable body) writes a message naming the URL inside it.
    Version 6.0 takes the markup from its cache when it has a non-empty
    entry for the URL and from the network otherwise; the first top-level
    element of the markup, alone, takes the placeholder's place, whatever
    else the markup holds being dropped; markup without any element is
    written inside the placeholder; and on a failed retrieval a fixed
    message is written inside the placeholder. *)
Theorem C8_fragment_loader (network : string → FetchOutcome) (url id : string)
    (w : LoaderWorld) :
  completion (V5_1.fetchAndInject network url id) w = Normal tt ∧
  completion (V6Loader.fetchAndInject network url id) w = Normal tt ∧
  (getElementById id (document w) = None →
   exec (V5_1.fetchAndInject network url id) w = w ∧
   exec (V6Loader.fetchAndInject network url id) w = w) ∧
  (∀ p, getElementById id (document w) = Some p →
   document (exec (V5_1.fetchAndInject network url id) w)
   = match fetched (network url) with
     | Some html => replace_at p html (document w)
     | None => set_innerHTML p (V5_1.fallback url) (document w)
     end ∧
   document (exec (V6Loader.fetchAndInject network url id) w)
   = match (if V6Loader.falsy (cache w !! url) then fetched (network url)
            else cache w !! url) with
     | Some html =>
         match firstElementChild html with
         | Some newElement => replace_at p [newElement] (document w)
         | None => set_innerHTML p html (document w)
         end
     | None => set_innerHTML p V6Loader.fallback (document w)
     end).
Proof.
  destruct (getElementById id (document w)) as [p|] eqn:Hp.
  - pose proof (V5_1_outcome network url id w p Hp) as E5.
    pose proof (V6Loader_outcome network url id w p Hp) as E6.
    unfold completion, exec. rewrite E5, E6.
    split; [reflexivity|]. split; [reflexivity|]. split; [discriminate|].
    intros p' [= <-]. simpl. split.
    + destruct (fetch_error (network url) (V5_1.failure url)) as [error|] eqn:Herr.
      * destruct (fetched (network url)) as [html|] eqn:Hf; [|reflexivity].
        assert (Hn : fetch_error (network url) (V5_1.failure url) = None)
          by (apply fetch_error_fetched; eauto).
        congruence.
      * apply fetch_error_fetched in Herr as [html Hf]. rewrite Hf. reflexivity.
    + destruct (V6Loader.falsy (cache w !! url)) eqn:Hfalsy.
      * destruct (fetch_error (network url) V6Loader.failure) as [error|] eqn:Herr.
        -- destruct (fetched (network url)) as [html|] eqn:Hf; [|reflexivity].
           assert (Hn : fetch_error (network url) V6Loader.failure = None)
             by (apply fetch_error_fetched; eauto).
           congruence.
        -- apply fetch_error_fetched in Herr as [html Hf]. rewrite Hf. reflexivity.
      * destruct (cache w !! url) as [html|]; [reflexivity|discriminate Hfalsy].
  - pose proof (V5_1_absent network url id w Hp) as E5.
    pose proof (V6Loader_absent network url id w Hp) as E6.
    unfold completion, exec. rewrite E5, E6.
    split; [reflexivity|]. split; [reflexivity|]. split; [auto|]. discriminate.
Qed.

Lemma C8_witness :
  document (exec (V5_1.fetchAndInject (Sample.serves Sample.two_roots)
                    "header.html" "header-placeholder") Sample.nested_page)
  = [ElementNode "section" None [TextNode "intro"];
     ElementNode "header" None (TextNode "top" :: Sample.two_roots);
     ElementNode "main" None []] ∧
  document (exec (V6Loader.fetchAndInject Sample.offline
                    "header.html" "header-placeholder") Sample.placeholder_page)
  = [ElementNode "div" (Some "header-placeholder") V6Loader.fallback;
     ElementNode "main" None []] ∧
  document (exec (V6Loader.fetchAndInject
                    (Sample.serves [TextNode "Elite"; ElementNode "header" None []])
                    "header.html" "header-placeholder") Sample.placeholder_page)
  = [ElementNode "header" None []; ElementNode "main" None []].
Proof.
  destruct (C8_fragment_loader (Sample.serves Sample.two_roots) "header.html"
              "header-placeholder" Sample.nested_page) as (_ & _ & _ & H5).
  destruct (C8_fragment_loader Sample.offline "header.html"
              "header-placeholder" Sample.placeholder_page) as (_ & _ & _ & H6).
  destruct (C8_fragment_loader
              (Sample.serves [TextNode "Elite"; ElementNode "header" None []]) "header.html"
              "header-placeholder" Sample.placeholder_page) as (_ & _ & _ & H7).
  destruct (H5 [1; 1]%nat eq_refl) as (E5 & _).
  destruct (H6 [0]%nat eq_refl) as (_ & E6).
  destruct (H7 [0]%nat eq_refl) as (_ & E7).
  split; [rewrite E5; reflexivity|]. split; [rewrite E6 | rewrite E7]; reflexivity.
Defined.

(** Version 6.0, given a component file with two top-level elements,
    returns normally and leaves only the first of them in the document:
    the retrieved text is not what stands in the placeholder's place. *)
Lemma C8_counterexample :
  let w := exec (V6Loader.fetchAndInject (Sample.serves Sample.two_roots)
                   "header.html" "header-placeholder") Sample.placeholder_page in
  completion (V6Loader.fetchAndInject (Sample.serves Sample.two_roots)
                "header.html" "header-placeholder") Sample.placeholder_page = Normal tt ∧
  document w = [ElementNode "header" None [TextNode "Elite Install"];
                ElementNode "main" None []] ∧
  document w ≠ replace_at [0%nat] Sample.two_roots (document Sample.placeholder_page).
Proof. vm_compute. split; [reflexivity|]. split; [reflexivity | discriminate]. Qed.

(** C9.  Reduced motion.  When the reduced-motion signal is true, the
    reveal script returns normally with every target element visible
    (opacity 1 and no transform set inline by createScrollReveal; the
    visible class added by the Professional Edition's scrollAnimator.init),
    no style property of any element touched besides (no transition or
    transition delay set), no intersection observer constructed, no element
    observed and no timer started. *)
Theorem C9_reduced_motion (p : RevealPage) (w : RevealWorld) :
  reduced_motion p = true →
  (completion (Reveal.createScrollReveal p) w = Normal tt ∧
   (∀ el, el ∈ targets p →
      elStyle (exec (Reveal.createScrollReveal p) w) !! (el, "opacity") = Some "1" ∧
      elStyle (exec (Reveal.createScrollReveal p) w) !! (el, "transform") = Some "none") ∧
   (∀ el prop, prop ≠ "opacity" → prop ≠ "transform" →
      elStyle (exec (Reveal.createScrollReveal p) w) !! (el, prop) = elStyle w !! (el, prop)) ∧
   observers (exec (Reveal.createScrollReveal p) w) = observers w ∧
   observed (exec (Reveal.createScrollReveal p) w) = observed w ∧
   pendingTimeouts (exec (Reveal.createScrollReveal p) w) = pendingTimeouts w) ∧
  (completion (Pro1.scrollAnimator_init p) w = Normal tt ∧
   (∀ el, el ∈ targets p →
      (el, Pro1.visibleClass) ∈ elClass (exec (Pro1.scrollAnimator_init p) w)) ∧
   elStyle (exec (Pro1.scrollAnimator_init p) w) = elStyle w ∧
   observers (exec (Pro1.scrollAnimator_init p) w) = observers w ∧
   observed (exec (Pro1.scrollAnimator_init p) w) = observed w ∧
   pendingTimeouts (exec (Pro1.scrollAnimator_init p) w) = pendingTimeouts w).
Proof.
  intros Hr. split.
  - unfold Reveal.createScrollReveal. rewrite Hr.
    destruct (reveal_loop (targets p) w) as (w' & E & _ & Ho & Hob & Hp & Hin & Hout).
    unfold completion, exec. rewrite E. simpl.
    split; [reflexivity|]. split; [exact Hin|]. split; [|auto].
    intros el prop H1 H2. apply Hout. right. split; assumption.
  - unfold Pro1.scrollAnimator_init. case_bool_decide as Hlen.
    + apply length_zero_iff_nil in Hlen. rewrite Hlen.
      repeat split; try reflexivity. intros el Hel. inversion Hel.
    + rewrite Hr.
      destruct (visible_loop (targets p) w) as (w' & E & Hs & Ho & Hob & Hp & Hin & _).
      unfold completion, exec. rewrite E. simpl. auto 10.
Qed.

Lemma C9_witness :
  let w := exec (Reveal.createScrollReveal Sample.reveal_page) Sample.reveal_world0 in
  elStyle w !! (21%nat, "opacity") = Some "1" ∧ observers w = 0%nat ∧ observed w = [] ∧
  pendingTimeouts w = [] ∧
  (20%nat, Pro1.visibleClass)
    ∈ elClass (exec (Pro1.scrollAnimator_init Sample.reveal_page) Sample.reveal_world0).
Proof.
  intros w.
  destruct (C9_reduced_motion Sample.reveal_page Sample.reveal_world0 eq_refl)
    as ((_ & Hv & _ & Ho & Hob & Hp) & (_ & Hc & _)).
  destruct (Hv 21%nat ltac:(compute_done)) as (H1 & _).
  pose proof (Hc 20%nat ltac:(compute_done)) as H2.
  split; [exact H1|]. split; [exact Ho|]. split; [exact Hob|]. split; [exact Hp | exact H2].
Defined.

(** C10.  A click on a link of the panel closes the open panel.  A click
    whose path goes through a focusable element of the panel and not through
    the trigger, on an open panel, leaves the page exactly as closeMenu
    (6.0) or close (8.0) would, the panel closed; in the 8.0 script the
    click also arms the timer of the debounced outside-click check, which
    finds the panel closed. *)
Theorem C10_link_click_closes (p : Page) (d : Dom) (t n : Element) (evs : list Event)
    (path : list Element) :
  q_toggle p = Some t → q_nav p = Some n → link_click t (q_focusable p) path →
  (V6.isOpen (nav (V6.run evs (V6.boot p d))) = true →
   V6.step (Click path) (V6.run evs (V6.boot p d))
   = exec V6.closeMenu (set_defaultPrevented false (V6.run evs (V6.boot p d))) ∧
   V6.isOpen (nav (V6.step (Click path) (V6.run evs (V6.boot p d)))) = false) ∧
  (V8.isOpen (nav (V8.run evs (V8.boot p d))) = true →
   V8.step (Click path) (V8.run evs (V8.boot p d))
   = debounced V8.H_handleOutsideClick (Click path)
       (exec V8.close (set_defaultPrevented false (V8.run evs (V8.boot p d)))) ∧
   V8.isOpen (nav (V8.step (Click path) (V8.run evs (V8.boot p d)))) = false).
Proof.
  intros Ht Hn Hlc. split; intros Ho.
  - pose proof (V6Facts.v6_reachable p d t n evs Ht Hn) as [HR _].
    rewrite (V6Facts.v6_step_link t n _ path _ HR Ho Hlc). split; [reflexivity|].
    destruct (V6Facts.v6_closeMenu_keeps t n (q_focusable p)
                (set_defaultPrevented false (V6.run evs (V6.boot p d))))
      as (w' & E & _ & Ho'); [exact HR|].
    unfold exec. rewrite E. exact Ho'.
  - pose proof (V8Facts.v8_reachable p d t n evs Ht Hn) as HI.
    rewrite (V8Facts.v8_step_link t n _ path _ HI Ho Hlc). split; [reflexivity|].
    destruct (V8Facts.v8_close_keeps t n (q_focusable p)
                (set_defaultPrevented false (V8.run evs (V8.boot p d))))
      as (w' & E & _ & Ho'); [exact (V8Facts.v8_I_prevented t n _ false _ HI)|].
    unfold exec. rewrite E. exact Ho'.
Qed.

Lemma C10_witness :
  let w := V6.step (Click Sample.on_link_b)
             (V6.run [Click Sample.on_trigger] (V6.boot Sample.page Sample.dom0)) in
  V6.isOpen (nav w) = false ∧ activeElement (dom w) = Some Sample.toggle.
Proof.
  intros w.
  destruct (C10_link_click_closes Sample.page Sample.dom0 Sample.toggle Sample.panel
              [Click Sample.on_trigger] Sample.on_link_b eq_refl eq_refl sample_link_click)
    as (H6 & _).
  destruct (H6 ltac:(vm_compute; reflexivity)) as (E & Ho).
  split; [exact Ho|]. unfold w. rewrite E. vm_compute. reflexivity.
Defined.

(** * Further theorems *)

(** ** Version 6.0: mobileNav *)

(** X1.  In the 6.0 script, on a page whose body does not carry the open
    marker when the script starts, after a successful init and after every
    later event the body carries the class mobile-nav-open exactly when
    isOpen is true, and the panel's aria-hidden attribute reads "false"
    exactly when isOpen is true and "true" otherwise. *)
Theorem V6_marker_and_hidden_follow_state (p : Page) (d : Dom) (t n : Element)
    (evs : list Event) :
  q_toggle p = Some t → q_nav p = Some n →
  classList_contains "mobile-nav-open" d = false →
  classList_contains "mobile-nav-open" (dom (V6.run evs (V6.boot p d)))
    = V6.isOpen (nav (V6.run evs (V6.boot p d))) ∧
  getAttribute n "aria-hidden" (dom (V6.run evs (V6.boot p d)))
    = Some (String_of_bool (negb (V6.isOpen (nav (V6.run evs (V6.boot p d)))))).
Proof.
  intros Ht Hn Hc.
  destruct (V6Further.v6_boot_M p d t n Ht Hn Hc) as [HR HM].
  destruct (V6Further.v6_M_run t n _ evs _ (conj HR HM)) as [_ HM'].
  exact HM'.
Qed.

Lemma V6_marker_and_hidden_follow_state_witness :
  classList_contains "mobile-nav-open"
    (dom (V6.run [Click Sample.on_trigger; Keydown "Escape" false; Click Sample.on_trigger]
            (V6.boot Sample.page Sample.dom0))) = true ∧
  getAttribute Sample.panel "aria-hidden"
    (dom (V6.run [Click Sample.on_trigger; Keydown "Escape" false; Click Sample.on_trigger]
            (V6.boot Sample.page Sample.dom0))) = Some "false".
Proof.
  destruct (V6_marker_and_hidden_follow_state Sample.page Sample.dom0 Sample.toggle Sample.panel
              [Click Sample.on_trigger; Keydown "Escape" false; Click Sample.on_trigger]
              eq_refl eq_refl ltac:(vm_compute; reflexivity)) as [H1 H2].
  rewrite H1, H2. vm_compute. split; reflexivity.
Defined.

(** X2.  In the 6.0 script every way of closing an open panel (Escape, an
    activation of the trigger, a click on a link of the panel, a click
    outside the panel and the trigger, a resize to more than 768) takes the
    open marker off the body, writes aria-expanded "false" on the trigger
    and aria-hidden "true" on the panel, and asks the trigger to take the
    focus: the focus is on the trigger when the trigger can take it on the
    page the event leaves (it cannot when it is not displayed at the new
    width, say), and stays where it was otherwise.  No frame callback is
    requested and the default action of the event is not suppressed. *)
Theorem V6_closing_returns_focus (p : Page) (d : Dom) (t n : Element) (evs : list Event)
    (ev : Event) :
  q_toggle p = Some t → q_nav p = Some n →
  V6.isOpen (nav (V6.run evs (V6.boot p d))) = true →
  V6.closes_panel t n (q_focusable p) ev →
  V6.isOpen (nav (V6.step ev (V6.run evs (V6.boot p d)))) = false ∧
  (can_focus t (dom (V6.step ev (V6.run evs (V6.boot p d)))) = true →
   activeElement (dom (V6.step ev (V6.run evs (V6.boot p d)))) = Some t) ∧
  (can_focus t (dom (V6.step ev (V6.run evs (V6.boot p d)))) = false →
   activeElement (dom (V6.step ev (V6.run evs (V6.boot p d))))
     = activeElement (dom (V6.run evs (V6.boot p d)))) ∧
  classList_contains "mobile-nav-open" (dom (V6.step ev (V6.run evs (V6.boot p d)))) = false ∧
  getAttribute t "aria-expanded" (dom (V6.step ev (V6.run evs (V6.boot p d)))) = Some "false" ∧
  getAttribute n "aria-hidden" (dom (V6.step ev (V6.run evs (V6.boot p d)))) = Some "true" ∧
  frameQueue (V6.step ev (V6.run evs (V6.boot p d))) = frameQueue (V6.run evs (V6.boot p d)) ∧
  defaultPrevented (V6.step ev (V6.run evs (V6.boot p d))) = false.
Proof.
  intros Ht Hn Ho Hev. pose proof (V6Facts.v6_reachable p d t n evs Ht Hn) as [HR _].
  destruct (V6Further.v6_closing_step t n _ ev _ HR Ho Hev) as (w0 & HR0 & Hq0 & Hp0 & Ha0 & E).
  rewrite E. unfold exec. rewrite (V6Facts.v6_closeMenu_ready t n _ w0 HR0). simpl.
  split; [reflexivity|].
  split; [intros Hc; rewrite Hc; reflexivity|].
  split; [intros Hc; rewrite Hc; exact Ha0|].
  split; [apply contains_removed|].
  split; [|split; [|split; assumption]].
  - unfold getAttribute. simpl. destruct (decide ((n, "aria-hidden") = (t, "aria-expanded"))).
    + discriminate.
    + rewrite lookup_insert_ne by assumption. apply lookup_insert_eq.
  - unfold getAttribute. simpl. apply lookup_insert_eq.
Qed.

Lemma V6_closing_returns_focus_witness :
  activeElement
    (dom (V6.step (Keydown "Escape" false)
            (V6.run [Click Sample.on_trigger; AnimationFrame] (V6.boot Sample.page Sample.dom0))))
  = Some Sample.toggle.
Proof.
  destruct (V6_closing_returns_focus Sample.page Sample.dom0 Sample.toggle Sample.panel
              [Click Sample.on_trigger; AnimationFrame] (Keydown "Escape" false)
              eq_refl eq_refl ltac:(vm_compute; reflexivity) eq_refl) as (_ & Ha & _).
  apply Ha. vm_compute. reflexivity.
Defined.

(** X3.  In the 6.0 script the focus move that opening requests for the next
    frame is not cancelled by closing: when the panel is opened and closed
    again (by any of the closing events) before the frame, the frame still
    asks the first focusable element of the panel to take the focus, and the
    focus goes there when that element can take it on the closed page; the
    panel is closed by then and stays closed. *)
Theorem V6_focus_move_outlives_close (p : Page) (d : Dom) (t n f : Element)
    (evs : list Event) (path : list Element) (ev : Event) :
  q_toggle p = Some t → q_nav p = Some n → head (q_focusable p) = Some f →
  V6.isOpen (nav (V6.run evs (V6.boot p d))) = false →
  trigger_click t (q_focusable p) path →
  V6.closes_panel t n (q_focusable p) ev →
  V6.isOpen (nav (V6.step ev (V6.step (Click path) (V6.run evs (V6.boot p d))))) = false ∧
  V6.isOpen (nav (V6.step AnimationFrame
                    (V6.step ev (V6.step (Click path) (V6.run evs (V6.boot p d)))))) = false ∧
  (can_focus f (dom (V6.step ev (V6.step (Click path) (V6.run evs (V6.boot p d))))) = true →
   activeElement (dom (V6.step AnimationFrame
                         (V6.step ev (V6.step (Click path) (V6.run evs (V6.boot p d))))))
     = Some f) ∧
  (can_focus f (dom (V6.step ev (V6.step (Click path) (V6.run evs (V6.boot p d))))) = false →
   activeElement (dom (V6.step AnimationFrame
                         (V6.step ev (V6.step (Click path) (V6.run evs (V6.boot p d))))))
     = activeElement (dom (V6.step ev (V6.step (Click path) (V6.run evs (V6.boot p d)))))).
Proof.
  intros Ht Hn Hf Ho Htc Hev.
  destruct (V6Further.v6_boot_K p d t n Ht Hn) as [HR0 HC0].
  pose proof (V6Further.v6_K_run t n _ evs _ (conj HR0 HC0)) as HK.
  pose proof (V6Further.v6_K_step t n _ (Click path) _ HK) as HK1.
  destruct HK as [HR HC].
  destruct (V6Facts.v6_open_defers t n _ path _ HR Ho Htc) as (Ho1 & _ & Hq1).
  destruct HK1 as [HR1 HC1].
  destruct (V6Further.v6_closing_step t n _ ev _ HR1 Ho1 Hev)
    as (w0 & HRw0 & Hqw0 & _ & _ & E).
  pose proof (V6Further.v6_K_step t n _ ev _ (conj HR1 HC1)) as [HR2 (HQ2 & _)].
  assert (Hq2 : frameQueue (V6.step ev (V6.step (Click path) (V6.run evs (V6.boot p d))))
                = frameQueue (V6.run evs (V6.boot p d)) ++ [V6.H_focusFirst]).
  { rewrite E. unfold exec. rewrite (V6Facts.v6_closeMenu_ready t n _ w0 HRw0). simpl.
    rewrite Hqw0. exact Hq1. }
  assert (Ho2 : V6.isOpen (nav (V6.step ev (V6.step (Click path) (V6.run evs (V6.boot p d)))))
                = false).
  { rewrite E. unfold exec. rewrite (V6Facts.v6_closeMenu_ready t n _ w0 HRw0). reflexivity. }
  split; [exact Ho2|].
  rewrite (V6Further.v6_frame_step t n _ _ HR2 HQ2), Hf.
  destruct (decide _) as [Hnil|_].
  - rewrite Hq2 in Hnil. destruct (frameQueue (V6.run evs (V6.boot p d))); discriminate.
  - split; [exact Ho2|]. simpl. split; intros Hc; rewrite Hc; reflexivity.
Qed.

Lemma V6_focus_move_outlives_close_witness :
  V6.isOpen (nav (V6.step AnimationFrame
                    (V6.step (Keydown "Escape" false)
                       (V6.step (Click Sample.on_trigger)
                          (V6.boot Sample.page Sample.dom0))))) = false ∧
  activeElement (dom (V6.step AnimationFrame
                        (V6.step (Keydown "Escape" false)
                           (V6.step (Click Sample.on_trigger)
                              (V6.boot Sample.page Sample.dom0))))) = Some Sample.link_a.
Proof.
  pose proof (V6_focus_move_outlives_close Sample.page Sample.dom0 Sample.toggle Sample.panel
                Sample.link_a [] Sample.on_trigger (Keydown "Escape" false)
                eq_refl eq_refl eq_refl ltac:(vm_compute; reflexivity)
                sample_trigger_click eq_refl) as H.
  rewrite V6_run_nil in H. destruct H as (_ & Ho & Ha & _).
  split; [exact Ho | apply Ha; vm_compute; reflexivity].
Defined.

(** X4.  In the 6.0 script, after a successful init no callback ever throws,
    whatever the page and the events: nothing is ever reported on the
    console, no timer is ever started, and the only frame callback ever
    pending is the focus move requested by opening. *)
Theorem V6_never_throws (p : Page) (d : Dom) (t n : Element) (evs : list Event) :
  q_toggle p = Some t → q_nav p = Some n →
  console (V6.run evs (V6.boot p d)) = [] ∧
  timers (V6.run evs (V6.boot p d)) = [] ∧
  Forall (λ h, h = V6.H_focusFirst) (frameQueue (V6.run evs (V6.boot p d))).
Proof.
  intros Ht Hn.
  destruct (V6Further.v6_boot_K p d t n Ht Hn) as [HR0 HC0].
  destruct (V6Further.v6_K_run t n _ evs _ (conj HR0 HC0)) as [_ (Hq & Htm & Hc)].
  auto.
Qed.

Lemma V6_never_throws_witness :
  console (V6.run [Click Sample.on_trigger; AnimationFrame; Keydown "Tab" true; Resize 1024]
             (V6.boot Sample.page_without_links Sample.dom0)) = [].
Proof.
  destruct (V6_never_throws Sample.page_without_links Sample.dom0
              Sample.toggle Sample.panel
              [Click Sample.on_trigger; AnimationFrame; Keydown "Tab" true; Resize 1024]
              eq_refl eq_refl) as (Hc & _).
  exact Hc.
Defined.

(** X5.  In the 6.0 script, on a page whose panel holds no focusable element,
    Tab and Shift+Tab are never intercepted (the component stays quiet and
    the default action is kept, wherever the focus is and whether the panel
    is open or closed), and a frame moves no focus. *)
Theorem V6_panel_without_focusables (p : Page) (d : Dom) (t n : Element) (evs : list Event)
    (shift : bool) :
  q_toggle p = Some t → q_nav p = Some n → q_focusable p = [] →
  quiet (V6.run evs (V6.boot p d)) (V6.step (Keydown "Tab" shift) (V6.run evs (V6.boot p d))) ∧
  defaultPrevented (V6.step (Keydown "Tab" shift) (V6.run evs (V6.boot p d))) = false ∧
  quiet (V6.run evs (V6.boot p d)) (V6.step AnimationFrame (V6.run evs (V6.boot p d))).
Proof.
  intros Ht Hn Hfs.
  destruct (V6Further.v6_boot_K p d t n Ht Hn) as [HR0 HC0].
  destruct (V6Further.v6_K_run t n _ evs _ (conj HR0 HC0)) as [HR (Hq & _)].
  split; [|split].
  - destruct (V6.isOpen (nav (V6.run evs (V6.boot p d)))) eqn:Ho.
    + rewrite (V6Facts.v6_tab_step t n _ shift _ HR Ho). unfold exec.
      rewrite (V6Facts.v6_tab_elsewhere t n (q_focusable p)); [repeat split|exact HR|].
      rewrite Hfs. simpl. destruct (activeElement _), shift; reflexivity.
    + apply (V6Facts.v6_closed_quiet t n _ (Keydown "Tab" shift) _ HR Ho). exact I.
  - rewrite (V6Facts.v6_step_keydown t n _ "Tab" shift _ HR).
    unfold exec, V6.handleKeydown, bind, gets. simpl.
    destruct (V6.isOpen (nav (V6.run evs (V6.boot p d)))); simpl; [|reflexivity].
    rewrite (V6Facts.v6_tab_elsewhere t n (q_focusable p)); [reflexivity|exact HR|].
    rewrite Hfs. simpl. destruct (activeElement _), shift; reflexivity.
  - rewrite (V6Further.v6_frame_step t n _ _ HR Hq), Hfs. simpl. repeat split.
Qed.

Lemma V6_panel_without_focusables_witness :
  activeElement
    (dom (V6.step (Keydown "Tab" false)
            (V6.run [Click Sample.on_trigger; AnimationFrame]
               (V6.boot Sample.page_without_links
                        (focus Sample.toggle Sample.dom0)))))
  = Some Sample.toggle.
Proof.
  destruct (V6_panel_without_focusables Sample.page_without_links
              (focus Sample.toggle Sample.dom0) Sample.toggle Sample.panel
              [Click Sample.on_trigger; AnimationFrame] false eq_refl eq_refl eq_refl)
    as ((_ & _ & _ & Ha) & _ & _).
  rewrite Ha. vm_compute. reflexivity.
Defined.

(** ** Version 8.0: mobileNav *)

(** X6.  In the 8.0 script, after a successful init and after every later
    event, the trigger's aria-expanded attribute spells isOpen; and on a page
    whose body does not carry the open marker when the script starts, the
    body carries the class mobile-nav-open exactly when isOpen is true. *)
Theorem V8_attribute_and_marker_follow_state (p : Page) (d : Dom) (t n : Element)
    (evs : list Event) :
  q_toggle p = Some t → q_nav p = Some n →
  V8.isOpen (nav (V8.boot p d)) = false ∧
  getAttribute t "aria-expanded" (dom (V8.run evs (V8.boot p d)))
    = Some (String_of_bool (V8.isOpen (nav (V8.run evs (V8.boot p d))))) ∧
  (classList_contains "mobile-nav-open" d = false →
   classList_contains "mobile-nav-open" (dom (V8.run evs (V8.boot p d)))
     = V8.isOpen (nav (V8.run evs (V8.boot p d)))).
Proof.
  intros Ht Hn.
  destruct (V8Further.v8_boot_K p d t n Ht Hn) as (HI & HS & HD & HC & Hp & Hb).
  destruct (V8Facts.v8_boot_ready p d t n Ht Hn) as (_ & Ho).
  split; [exact Ho|]. split.
  - destruct (V8Further.v8_K_run t n _ evs _ (conj HI (conj HS (conj HD (conj HC Hp)))))
      as (_ & HS' & _).
    exact HS'.
  - intros Hc.
    assert (HM : classList_contains "mobile-nav-open" (dom (V8.boot p d))
                 = V8.isOpen (nav (V8.boot p d))).
    { rewrite Ho. unfold classList_contains in *. rewrite Hb. exact Hc. }
    destruct (V8Further.v8_M_run t n _ evs _ (conj HI HM)) as [_ HM'].
    exact HM'.
Qed.

Lemma V8_attribute_and_marker_follow_state_witness :
  getAttribute Sample.toggle "aria-expanded"
    (dom (V8.run [Click Sample.on_trigger; TimerFires 0; Keydown "Escape" false;
                  Click Sample.on_trigger]
            (V8.boot Sample.page Sample.dom0))) = Some "true".
Proof.
  destruct (V8_attribute_and_marker_follow_state Sample.page Sample.dom0 Sample.toggle
              Sample.panel
              [Click Sample.on_trigger; TimerFires 0; Keydown "Escape" false;
               Click Sample.on_trigger]
              eq_refl eq_refl) as (_ & Hs & _).
  rewrite Hs. vm_compute. reflexivity.
Defined.

(** X7.  The 8.0 script handles no key but Escape and traps no focus: after
    a successful init no event ever has its default action suppressed, any
    key other than Escape (Tab included) leaves the component's fields, the
    body's classes, the attributes and the focus as they were, even while
    the panel is open, and no callback ever throws. *)
Theorem V8_only_escape_is_handled (p : Page) (d : Dom) (t n : Element) (evs : list Event) :
  q_toggle p = Some t → q_nav p = Some n →
  (∀ ev, defaultPrevented (V8.step ev (V8.run evs (V8.boot p d))) = false) ∧
  (∀ key shift, key ≠ "Escape" →
     quiet (V8.run evs (V8.boot p d))
           (V8.step (Keydown key shift) (V8.run evs (V8.boot p d)))) ∧
  console (V8.run evs (V8.boot p d)) = [].
Proof.
  intros Ht Hn.
  destruct (V8Further.v8_boot_K p d t n Ht Hn) as (HI & HS & HD & HC & Hp & _).
  pose proof (V8Further.v8_K_run t n _ evs _ (conj HI (conj HS (conj HD (conj HC Hp)))))
    as HK.
  split; [|split].
  - intros ev. destruct (V8Further.v8_K_step t n _ ev _ HK) as (_ & _ & _ & _ & Hp').
    exact Hp'.
  - intros key shift Hne. destruct HK as (HI' & _).
    rewrite (V8Facts.v8_step_keydown t n _ key shift _ HI').
    unfold exec, V8.handleKeydown, bind, gets. simpl.
    rewrite (bool_decide_eq_false_2 _ Hne), orb_true_r. repeat split.
  - destruct HK as (_ & _ & _ & (_ & Hc) & _). exact Hc.
Qed.

Lemma V8_only_escape_is_handled_witness :
  defaultPrevented
    (V8.step (Keydown "Tab" false)
       (V8.run [Click Sample.on_trigger; AnimationFrame; Keydown "Tab" false;
                Keydown "Tab" false]
          (V8.boot Sample.page Sample.dom0))) = false.
Proof.
  destruct (V8_only_escape_is_handled Sample.page Sample.dom0 Sample.toggle Sample.panel
              [Click Sample.on_trigger; AnimationFrame; Keydown "Tab" false;
               Keydown "Tab" false] eq_refl eq_refl) as (Hp & _).
  exact (Hp (Keydown "Tab" false)).
Defined.

(** X8.  Debouncing in the 8.0 script: at any time at most one call of each
    debounced function is pending (so at most two timers in all), and right
    after a resize event, or a click anywhere, the pending call of the
    resize check, respectively of the outside-click check, is the one for
    that very event: earlier pending calls of the same function were
    dropped. *)
Theorem V8_one_pending_call_per_debounced_function (p : Page) (d : Dom) (t n : Element)
    (evs : list Event) :
  q_toggle p = Some t → q_nav p = Some n →
  NoDup (fst <$> timers (V8.run evs (V8.boot p d))) ∧
  (length (timers (V8.run evs (V8.boot p d))) ≤ 2)%nat ∧
  (∀ x, filter (λ c, c.1 = V8.H_resizeCheck)
               (timers (V8.step (Resize x) (V8.run evs (V8.boot p d))))
        = [(V8.H_resizeCheck, Resize x)]) ∧
  (∀ path, filter (λ c, c.1 = V8.H_handleOutsideClick)
               (timers (V8.step (Click path) (V8.run evs (V8.boot p d))))
        = [(V8.H_handleOutsideClick, Click path)]).
Proof.
  intros Ht Hn.
  destruct (V8Further.v8_boot_K p d t n Ht Hn) as (HI & HS & HD & HC & Hp & _).
  destruct (V8Further.v8_K_run t n _ evs _ (conj HI (conj HS (conj HD (conj HC Hp)))))
    as (HI' & _ & HD' & _).
  split; [exact HD'|]. split; [|split].
  - destruct HI' as [_ HT].
    assert (Hsub : fst <$> timers (V8.run evs (V8.boot p d))
                   ⊆+ [V8.H_handleOutsideClick; V8.H_resizeCheck]).
    { apply NoDup_submseteq; [exact HD'|]. intros h Hh.
      apply list_elem_of_fmap in Hh as ([h' e'] & -> & Hin).
      rewrite Forall_forall in HT. destruct (HT _ Hin) as [Hh|Hh]; simpl in Hh; subst.
      - left.
      - right. left. }
    apply submseteq_length in Hsub. rewrite length_fmap in Hsub. exact Hsub.
  - intros x. rewrite (V8Facts.v8_step_resize t n _ x _ HI').
    apply V8Further.v8_debounced_pending.
  - intros path.
    destruct (forEach_preserves (V8.Inv t n (q_focusable p)) path
                (λ e, fire V8.invoke (OnElement e) click (Click path)))
      with (s := set_defaultPrevented false (V8.run evs (V8.boot p d))) as (w1 & E1 & H1).
    { intros e s Hs. apply (fire_keeps V8.invoke (V8.Inv t n (q_focusable p)));
        auto using V8Facts.v8_I_exec, V8Facts.v8_I_console. }
    { apply V8Facts.v8_I_prevented, HI'. }
    rewrite (V8Facts.v8_step_click t n _ path _ w1 HI' E1 H1).
    apply V8Further.v8_debounced_pending.
Qed.

Lemma V8_one_pending_call_per_debounced_function_witness :
  filter (λ c, c.1 = V8.H_resizeCheck)
         (timers (V8.step (Resize 1024)
                    (V8.run [Resize 800; Click Sample.on_content; Resize 900]
                       (V8.boot Sample.page Sample.dom0))))
  = [(V8.H_resizeCheck, Resize 1024)].
Proof.
  destruct (V8_one_pending_call_per_debounced_function Sample.page Sample.dom0 Sample.toggle
              Sample.panel [Resize 800; Click Sample.on_content; Resize 900]
              eq_refl eq_refl) as (_ & _ & Hr & _).
  exact (Hr 1024).
Defined.

(** X9.  In the 8.0 script a click outside the panel and the trigger does
    not close the open panel within the click: the click leaves the
    component quiet and only arms the timer of the debounced check.  When
    that timer runs out the panel closes and the trigger is asked to take
    the focus: the focus is on the trigger when it can take it then, and
    stays where it was otherwise. *)
Theorem V8_outside_click_closes_on_timer (p : Page) (d : Dom) (t n : Element)
    (evs : list Event) (path : list Element) :
  q_toggle p = Some t → q_nav p = Some n →
  V8.isOpen (nav (V8.run evs (V8.boot p d))) = true →
  outside_click t n path → (∀ l, l ∈ q_focusable p → l ∉ path) →
  V8.isOpen (nav (V8.step (Click path) (V8.run evs (V8.boot p d)))) = true ∧
  quiet (V8.run evs (V8.boot p d)) (V8.step (Click path) (V8.run evs (V8.boot p d))) ∧
  (∃ i, timers (V8.step (Click path) (V8.run evs (V8.boot p d))) !! i
        = Some (V8.H_handleOutsideClick, Click path)) ∧
  (∀ i ev', timers (V8.step (Click path) (V8.run evs (V8.boot p d))) !! i
            = Some (V8.H_handleOutsideClick, ev') →
     V8.isOpen (nav (V8.step (TimerFires i)
                       (V8.step (Click path) (V8.run evs (V8.boot p d))))) = false ∧
     (can_focus t (dom (V8.step (TimerFires i)
                          (V8.step (Click path) (V8.run evs (V8.boot p d))))) = true →
      activeElement (dom (V8.step (TimerFires i)
                            (V8.step (Click path) (V8.run evs (V8.boot p d))))) = Some t) ∧
     (can_focus t (dom (V8.step (TimerFires i)
                          (V8.step (Click path) (V8.run evs (V8.boot p d))))) = false →
      activeElement (dom (V8.step (TimerFires i)
                            (V8.step (Click path) (V8.run evs (V8.boot p d)))))
        = activeElement (dom (V8.run evs (V8.boot p d))))).
Proof.
  intros Ht Hn Ho [Hnt Hnn] Hnl.
  pose proof (V8Facts.v8_reachable p d t n evs Ht Hn) as HI.
  pose proof (V8Facts.v8_I_step t n _ (Click path) _ HI) as HI1.
  revert HI1. rewrite (V8Further.v8_step_elsewhere t n _ path _ HI Hnt Hnl). intros HI1.
  split; [exact Ho|]. split; [repeat split|]. split.
  - exists (length (filter (λ c, c.1 ≠ V8.H_handleOutsideClick)
                      (timers (V8.run evs (V8.boot p d))))).
    unfold debounced. simpl. rewrite lookup_app_r by reflexivity.
    rewrite Nat.sub_diag. reflexivity.
  - intros i ev' Hi.
    pose proof (V8Further.v8_debounced_lookup _ _ _ _ _ Hi) as ->.
    rewrite (V8Further.v8_outside_timer t n _ i path _ HI1 Hi).
    simpl. rewrite Ho. unfold on_path.
    rewrite !bool_decide_eq_false_2 by assumption. simpl.
    unfold exec. rewrite (V8Facts.v8_close_ready t n (q_focusable p)).
    + simpl. split; [reflexivity|]. split; intros Hc; rewrite Hc; reflexivity.
    + destruct HI1 as [HR1 _]. exact HR1.
Qed.

Lemma V8_outside_click_closes_on_timer_witness :
  V8.isOpen (nav (V8.step (Click Sample.on_content)
                    (V8.run [Click Sample.on_trigger; TimerFires 0]
                       (V8.boot Sample.page Sample.dom0)))) = true ∧
  V8.isOpen (nav (V8.step (TimerFires 0)
                    (V8.step (Click Sample.on_content)
                       (V8.run [Click Sample.on_trigger; TimerFires 0]
                          (V8.boot Sample.page Sample.dom0))))) = false.
Proof.
  destruct (V8_outside_click_closes_on_timer Sample.page Sample.dom0 Sample.toggle Sample.panel
              [Click Sample.on_trigger; TimerFires 0] Sample.on_content
              eq_refl eq_refl ltac:(vm_compute; reflexivity) sample_outside_click
              ltac:(apply Forall_forall; compute_done)) as (Ho & _ & _ & Hfire).
  split; [exact Ho|].
  destruct (Hfire 0%nat (Click Sample.on_content) ltac:(vm_compute; reflexivity)) as (Hc & _).
  exact Hc.
Defined.

(** X10.  In the 8.0 script an activation of the trigger flips isOpen, and
    the outside-click check that the same click arms does not undo it: when
    its timer runs out the panel is as the activation left it. *)
Theorem V8_activation_survives_its_timer (p : Page) (d : Dom) (t n : Element)
    (evs : list Event) (path : list Element) :
  q_toggle p = Some t → q_nav p = Some n → trigger_click t (q_focusable p) path →
  V8.isOpen (nav (V8.step (Click path) (V8.run evs (V8.boot p d))))
    = negb (V8.isOpen (nav (V8.run evs (V8.boot p d)))) ∧
  (∀ i ev', timers (V8.step (Click path) (V8.run evs (V8.boot p d))) !! i
            = Some (V8.H_handleOutsideClick, ev') →
     quiet (V8.step (Click path) (V8.run evs (V8.boot p d)))
           (V8.step (TimerFires i) (V8.step (Click path) (V8.run evs (V8.boot p d))))).
Proof.
  intros Ht Hn Htc.
  pose proof (V8Facts.v8_reachable p d t n evs Ht Hn) as HI.
  pose proof (V8Facts.v8_I_step t n _ (Click path) _ HI) as HI1.
  revert HI1. rewrite (V8Further.v8_step_trigger t n _ path _ HI Htc). intros HI1.
  destruct (V8Further.v8_toggle_flips t n _ _ (V8Facts.v8_I_prevented t n _ false _ HI))
    as (w1 & E1 & _ & Ho1).
  unfold exec in *. rewrite E1 in *. simpl snd in *.
  split; [exact Ho1|].
  intros i ev' Hi.
  pose proof (V8Further.v8_debounced_lookup _ _ _ _ _ Hi) as ->.
  rewrite (V8Further.v8_outside_timer t n _ i path _ HI1 Hi).
  assert (Hon : on_path t path = true)
    by (apply bool_decide_eq_true_2, Htc).
  rewrite Hon, andb_false_r. repeat split.
Qed.

Lemma V8_activation_survives_its_timer_witness :
  V8.isOpen (nav (V8.step (TimerFires 0)
                    (V8.step (Click Sample.on_trigger) (V8.boot Sample.page Sample.dom0))))
  = true.
Proof.
  pose proof (V8_activation_survives_its_timer Sample.page Sample.dom0 Sample.toggle
                Sample.panel [] Sample.on_trigger eq_refl eq_refl sample_trigger_click) as H.
  rewrite V8_run_nil in H. destruct H as (Ho & Hq).
  destruct (Hq 0%nat (Click Sample.on_trigger) ltac:(vm_compute; reflexivity)) as (Hnav & _).
  rewrite Hnav, Ho. vm_compute. reflexivity.
Defined.

(** ** Professional Edition 1.0: mobileNav *)

(** X11.  In the Professional Edition script Escape on an open panel closes
    it through toggleMenu: the open marker leaves the body, aria-expanded
    reads "false" and the page's scroll lock is lifted; unlike the 6.0 and
    8.0 scripts it leaves the keyboard focus where it was (it is not returned
    to the trigger), and the key's default action is kept. *)
Theorem Pro1_escape_closes_without_moving_focus (p : Page) (d : Dom) (t n : Element)
    (evs : list Event) (shift : bool) :
  q_toggle p = Some t → q_nav p = Some n →
  Pro1.isNavOpen (Pro1.run evs (Pro1.boot p d)) = true →
  Pro1.isNavOpen (Pro1.step (Keydown "Escape" shift) (Pro1.run evs (Pro1.boot p d))) = false ∧
  getAttribute t "aria-expanded"
    (dom (Pro1.step (Keydown "Escape" shift) (Pro1.run evs (Pro1.boot p d)))) = Some "false" ∧
  bodyOverflow (dom (Pro1.step (Keydown "Escape" shift) (Pro1.run evs (Pro1.boot p d))))
    = EmptyString ∧
  activeElement (dom (Pro1.step (Keydown "Escape" shift) (Pro1.run evs (Pro1.boot p d))))
    = activeElement (dom (Pro1.run evs (Pro1.boot p d))) ∧
  defaultPrevented (Pro1.step (Keydown "Escape" shift) (Pro1.run evs (Pro1.boot p d))) = false ∧
  console (Pro1.step (Keydown "Escape" shift) (Pro1.run evs (Pro1.boot p d)))
    = console (Pro1.run evs (Pro1.boot p d)).
Proof.
  intros Ht Hn Ho. pose proof (Pro1Facts.pro1_reachable p d t n evs Ht Hn) as HR.
  rewrite (Pro1Facts.pro1_step_keydown_normal t n _ "Escape" shift _ _ HR
             (Pro1Further.pro1_escape t n _ shift _
                (Pro1Facts.pro1_I_prevented t n _ false _ HR) Ho)).
  split; [apply contains_removed|]. split; [|repeat split].
  unfold getAttribute. simpl. apply lookup_insert_eq.
Qed.

Lemma Pro1_escape_closes_without_moving_focus_witness :
  activeElement
    (dom (Pro1.step (Keydown "Escape" false)
            (Pro1.run [Click Sample.on_trigger] (Pro1.boot Sample.page Sample.dom0))))
  = Some Sample.link_a.
Proof.
  destruct (Pro1_escape_closes_without_moving_focus Sample.page Sample.dom0 Sample.toggle
              Sample.panel [Click Sample.on_trigger] false eq_refl eq_refl
              ltac:(vm_compute; reflexivity)) as (_ & _ & _ & Ha & _).
  rewrite Ha. vm_compute. reflexivity.
Defined.

(** X12.  In the Professional Edition script the page's scroll lock follows
    the open marker: on a page where body.style.overflow agrees with the
    marker when the script starts (in particular: no marker, no inline
    overflow), after every event the overflow is "hidden" exactly when the
    body carries mobile-nav-open, and empty otherwise. *)
Theorem Pro1_scroll_lock_follows_marker (p : Page) (d : Dom) (t n : Element)
    (evs : list Event) :
  q_toggle p = Some t → q_nav p = Some n →
  bodyOverflow d = (if classList_contains "mobile-nav-open" d then "hidden" else EmptyString) →
  bodyOverflow (dom (Pro1.run evs (Pro1.boot p d)))
    = (if Pro1.isNavOpen (Pro1.run evs (Pro1.boot p d)) then "hidden" else EmptyString).
Proof.
  intros Ht Hn Hd. destruct (Pro1Facts.pro1_boot_ready p d t n Ht Hn) as (HR & Hdom).
  assert (HL : Pro1.ScrollLocked (Pro1.boot p d)).
  { unfold Pro1.ScrollLocked, Pro1.isNavOpen. rewrite Hdom. exact Hd. }
  destruct (Pro1Further.pro1_L_run t n _ evs _ (conj HR HL)) as [_ HL'].
  exact HL'.
Qed.

Lemma Pro1_scroll_lock_follows_marker_witness :
  bodyOverflow
    (dom (Pro1.run [Click Sample.on_trigger; Keydown "Tab" true; Keydown "Escape" false;
                    Click Sample.on_trigger]
            (Pro1.boot Sample.page Sample.dom0))) = "hidden".
Proof.
  pose proof (Pro1_scroll_lock_follows_marker Sample.page Sample.dom0 Sample.toggle
                Sample.panel
                [Click Sample.on_trigger; Keydown "Tab" true; Keydown "Escape" false;
                 Click Sample.on_trigger]
                eq_refl eq_refl ltac:(vm_compute; reflexivity)) as H.
  rewrite H. vm_compute. reflexivity.
Defined.

(** X13.  In the Professional Edition script, on a page whose panel holds no
    focusable element, an activation of the trigger on a closed panel opens
    it (marker, aria-expanded "true", scroll lock) and then throws inside
    toggleMenu, at this.firstFocusable.focus(): the exception escapes the
    listener and is reported, the focus stays where it was. *)
Theorem Pro1_opening_without_focusables_throws (p : Page) (d : Dom) (t n : Element)
    (evs : list Event) (path : list Element) :
  q_toggle p = Some t → q_nav p = Some n → q_focusable p = [] →
  Pro1.isNavOpen (Pro1.run evs (Pro1.boot p d)) = false →
  NoDup path → t ∈ path →
  completion Pro1.toggleMenu (set_defaultPrevented false (Pro1.run evs (Pro1.boot p d)))
    = Thrown (TypeError "this.firstFocusable") ∧
  Pro1.isNavOpen (Pro1.step (Click path) (Pro1.run evs (Pro1.boot p d))) = true ∧
  getAttribute t "aria-expanded" (dom (Pro1.step (Click path) (Pro1.run evs (Pro1.boot p d))))
    = Some "true" ∧
  bodyOverflow (dom (Pro1.step (Click path) (Pro1.run evs (Pro1.boot p d)))) = "hidden" ∧
  activeElement (dom (Pro1.step (Click path) (Pro1.run evs (Pro1.boot p d))))
    = activeElement (dom (Pro1.run evs (Pro1.boot p d))) ∧
  console (Pro1.step (Click path) (Pro1.run evs (Pro1.boot p d)))
    = console (Pro1.run evs (Pro1.boot p d)) ++ ["Uncaught exception"].
Proof.
  intros Ht Hn Hfs Ho Hnd Hin. pose proof (Pro1Facts.pro1_reachable p d t n evs Ht Hn) as HR.
  pose proof (Pro1Facts.pro1_I_prevented t n _ false _ HR) as H0.
  assert (Hf : head (q_focusable p) = None) by (rewrite Hfs; reflexivity).
  pose proof (Pro1Further.pro1_toggleMenu_throws t n _ _ H0 Ho Hf) as E.
  rewrite (Pro1Further.pro1_step_trigger t n _ path _ HR Hnd Hin).
  unfold completion, exec, run_callback, try_catch. simpl Pro1.invoke. rewrite E. simpl.
  split; [reflexivity|]. split; [apply contains_added|]. split; [|repeat split].
  unfold getAttribute. simpl. apply lookup_insert_eq.
Qed.

Lemma Pro1_opening_without_focusables_throws_witness :
  console (Pro1.step (Click Sample.on_trigger)
             (Pro1.boot Sample.page_without_links Sample.dom0))
  = ["Uncaught exception"] ∧
  Pro1.isNavOpen (Pro1.step (Click Sample.on_trigger)
             (Pro1.boot Sample.page_without_links Sample.dom0))
  = true.
Proof.
  pose proof (Pro1_opening_without_focusables_throws
                Sample.page_without_links Sample.dom0
                Sample.toggle Sample.panel [] Sample.on_trigger eq_refl eq_refl eq_refl
                ltac:(vm_compute; reflexivity) ltac:(compute_done) ltac:(compute_done)) as H.
  rewrite Pro1_run_nil in H. destruct H as (_ & Ho & _ & _ & _ & Hc).
  split; [|exact Ho]. rewrite Hc. vm_compute. reflexivity.
Defined.

(** X14.  In the Professional Edition script, on a page whose panel holds at
    least one focusable element, no callback ever throws: nothing is ever
    reported on the console. *)
Theorem Pro1_never_throws_with_focusables (p : Page) (d : Dom) (t n : Element)
    (evs : list Event) :
  q_toggle p = Some t → q_nav p = Some n → q_focusable p ≠ [] →
  console (Pro1.run evs (Pro1.boot p d)) = [].
Proof.
  intros Ht Hn Hfs. destruct (Pro1Facts.pro1_boot_ready p d t n Ht Hn) as (HR & _).
  assert (Hf : is_Some (head (q_focusable p))).
  { destruct (q_focusable p); [contradiction|eauto]. }
  assert (Hc : console (Pro1.boot p d) = []).
  { unfold Pro1.boot, exec, Pro1.init. rewrite Ht, Hn. reflexivity. }
  destruct (Pro1Further.pro1_Q_run t n _ evs _ Hf (conj HR Hc)) as [_ Hc'].
  exact Hc'.
Qed.

Lemma Pro1_never_throws_with_focusables_witness :
  console (Pro1.run [Click Sample.on_trigger; Keydown "Tab" true; Keydown "Escape" false]
             (Pro1.boot Sample.page Sample.dom0)) = [].
Proof.
  apply (Pro1_never_throws_with_focusables Sample.page Sample.dom0 Sample.toggle Sample.panel
           [Click Sample.on_trigger; Keydown "Tab" true; Keydown "Escape" false]
           eq_refl eq_refl ltac:(discriminate)).
Defined.

(** X15.  The Professional Edition script listens for clicks on the trigger
    and for keys only: a click that does not go through the trigger (on a
    link of the panel, or outside), a resize, a frame or a timer leaves the
    component quiet, the scroll lock and the console as they were, even
    while the panel is open; in this revision neither a link nor an outside
    click closes the panel. *)
Theorem Pro1_only_trigger_and_keys_act (p : Page) (d : Dom) (t n : Element)
    (evs : list Event) (ev : Event) :
  q_toggle p = Some t → q_nav p = Some n →
  match ev with
  | Click path => t ∉ path
  | Keydown _ _ => False
  | _ => True
  end →
  quiet (Pro1.run evs (Pro1.boot p d)) (Pro1.step ev (Pro1.run evs (Pro1.boot p d))) ∧
  bodyOverflow (dom (Pro1.step ev (Pro1.run evs (Pro1.boot p d))))
    = bodyOverflow (dom (Pro1.run evs (Pro1.boot p d))) ∧
  console (Pro1.step ev (Pro1.run evs (Pro1.boot p d)))
    = console (Pro1.run evs (Pro1.boot p d)).
Proof.
  intros Ht Hn Hev. pose proof (Pro1Facts.pro1_reachable p d t n evs Ht Hn) as HR.
  rewrite (Pro1Further.pro1_step_elsewhere t n _ ev _ HR Hev).
  destruct ev; repeat split.
Qed.

Lemma Pro1_only_trigger_and_keys_act_witness :
  Pro1.isNavOpen (Pro1.step (Click Sample.on_link_b)
                    (Pro1.run [Click Sample.on_trigger] (Pro1.boot Sample.page Sample.dom0)))
  = true.
Proof.
  destruct (Pro1_only_trigger_and_keys_act Sample.page Sample.dom0 Sample.toggle Sample.panel
              [Click Sample.on_trigger] (Click Sample.on_link_b) eq_refl eq_refl
              ltac:(compute_done)) as ((_ & Hc & _) & _).
  unfold Pro1.isNavOpen, classList_contains. rewrite Hc. vm_compute. reflexivity.
Defined.

(** ** Versions 2.0 and 5.1: mobileNav *)

(** X16.  In the 2.0 script an activation of the trigger flips the open
    marker on the body and writes the new state to aria-expanded; it moves
    no focus, sets no scroll lock and logs nothing. *)
Theorem V2_trigger_click_toggles (p : Page) (d : Dom) (t n : Element) (evs : list Event)
    (path : list Element) :
  q_toggle p = Some t → q_nav p = Some n → NoDup path → t ∈ path →
  V2.isNavOpen (V2.step (Click path) (V2.run evs (V2.boot p d)))
    = negb (V2.isNavOpen (V2.run evs (V2.boot p d))) ∧
  getAttribute t "aria-expanded" (dom (V2.step (Click path) (V2.run evs (V2.boot p d))))
    = Some (String_of_bool (V2.isNavOpen (V2.step (Click path) (V2.run evs (V2.boot p d))))) ∧
  activeElement (dom (V2.step (Click path) (V2.run evs (V2.boot p d))))
    = activeElement (dom (V2.run evs (V2.boot p d))) ∧
  bodyOverflow (dom (V2.step (Click path) (V2.run evs (V2.boot p d))))
    = bodyOverflow (dom (V2.run evs (V2.boot p d))) ∧
  console (V2.step (Click path) (V2.run evs (V2.boot p d)))
    = console (V2.run evs (V2.boot p d)).
Proof.
  intros Ht Hn Hnd Hin. pose proof (V2Facts.v2_reachable p d t n evs Ht Hn) as HR.
  rewrite (V2Facts.v2_step_trigger t n _ path _ HR Hnd Hin).
  unfold exec. rewrite (V2Facts.v2_toggleMenu_ready t n (q_focusable p)) by exact HR.
  unfold V2.isNavOpen. simpl.
  assert (Hflip : classList_contains "mobile-nav-open"
                    (setAttribute t "aria-expanded"
                       (String_of_bool
                          (negb (classList_contains "mobile-nav-open"
                                   (dom (V2.run evs (V2.boot p d))))))
                       (classList_toggle_force "mobile-nav-open"
                          (negb (classList_contains "mobile-nav-open"
                                   (dom (V2.run evs (V2.boot p d)))))
                          (dom (V2.run evs (V2.boot p d)))))
                  = negb (classList_contains "mobile-nav-open"
                            (dom (V2.run evs (V2.boot p d))))).
  { destruct (classList_contains "mobile-nav-open" (dom (V2.run evs (V2.boot p d)))); simpl.
    - apply contains_removed.
    - apply contains_added. }
  rewrite Hflip. split; [reflexivity|].
  split; [|destruct (toggle_force_keeps "mobile-nav-open"
                       (negb (classList_contains "mobile-nav-open"
                                (dom (V2.run evs (V2.boot p d)))))
                       (dom (V2.run evs (V2.boot p d)))) as (Ha & Hb & _); auto].
  unfold getAttribute. simpl. apply lookup_insert_eq.
Qed.

Lemma V2_trigger_click_toggles_witness :
  V2.isNavOpen (V2.step (Click Sample.on_trigger)
                  (V2.run [Click Sample.on_trigger; Click Sample.on_trigger]
                     (V2.boot Sample.page Sample.dom0))) = true.
Proof.
  destruct (V2_trigger_click_toggles Sample.page Sample.dom0 Sample.toggle Sample.panel
              [Click Sample.on_trigger; Click Sample.on_trigger] Sample.on_trigger
              eq_refl eq_refl ltac:(compute_done) ltac:(compute_done)) as (Ho & _).
  rewrite Ho. vm_compute. reflexivity.
Defined.

(** X17.  The 2.0 script listens for clicks on the trigger and for nothing
    else: every key (Escape and Tab included), every click that does not go
    through the trigger, every resize, frame and timer leaves the component
    quiet and the default action in place, whether the panel is open or
    closed.  In this revision Escape does not close the panel and no focus
    is trapped. *)
Theorem V2_nothing_but_the_trigger_acts (p : Page) (d : Dom) (t n : Element)
    (evs : list Event) (ev : Event) :
  q_toggle p = Some t → q_nav p = Some n →
  match ev with
  | Click path => t ∉ path
  | _ => True
  end →
  quiet (V2.run evs (V2.boot p d)) (V2.step ev (V2.run evs (V2.boot p d))) ∧
  defaultPrevented (V2.step ev (V2.run evs (V2.boot p d))) = false ∧
  console (V2.step ev (V2.run evs (V2.boot p d))) = console (V2.run evs (V2.boot p d)).
Proof.
  intros Ht Hn Hev. pose proof (V2Facts.v2_reachable p d t n evs Ht Hn) as HR.
  rewrite (V2Facts.v2_step_elsewhere t n _ ev _ HR Hev).
  destruct ev; repeat split.
Qed.

Lemma V2_nothing_but_the_trigger_acts_witness :
  V2.isNavOpen (V2.step (Keydown "Escape" false)
                  (V2.run [Click Sample.on_trigger] (V2.boot Sample.page Sample.dom0)))
  = true.
Proof.
  destruct (V2_nothing_but_the_trigger_acts Sample.page Sample.dom0 Sample.toggle Sample.panel
              [Click Sample.on_trigger] (Keydown "Escape" false) eq_refl eq_refl I)
    as ((_ & Hc & _) & _).
  unfold V2.isNavOpen, classList_contains. rewrite Hc. vm_compute. reflexivity.
Defined.

(** X18.  The 5.1 script traps the focus like the later revisions: while the
    body carries the open marker, Tab on the last element its selector
    matched suppresses the default and asks the first to take the focus,
    Shift+Tab on the first suppresses the default and asks the last; the
    focus lands there when that element can take focus and stays where it is
    when it cannot (a disabled button); on any other element the keys are
    left alone.  No callback of this revision ever throws. *)
Theorem V5_1_focus_containment (p : Page) (d : Dom) (t n : Element) (evs : list Event) :
  q_toggle p = Some t → q_nav p = Some n →
  V5_1Nav.isNavOpen (V5_1Nav.run evs (V5_1Nav.boot p d)) = true →
  traps_focus V5_1Nav.step (q_focusable p) (V5_1Nav.run evs (V5_1Nav.boot p d)) ∧
  console (V5_1Nav.run evs (V5_1Nav.boot p d)) = [].
Proof.
  intros Ht Hn Ho. destruct (V51Facts.v51_reachable p d t n evs Ht Hn) as [HR Hc].
  split; [|exact Hc]. apply (V51Facts.v51_traps t n); assumption.
Qed.

Lemma V5_1_focus_containment_witness :
  activeElement
    (dom (V5_1Nav.step (Keydown "Tab" false)
            (V5_1Nav.run [Click Sample.on_trigger]
               (V5_1Nav.boot Sample.page (focus Sample.link_c Sample.dom0)))))
  = Some Sample.link_a ∧
  activeElement
    (dom (V5_1Nav.step (Keydown "Tab" false)
            (V5_1Nav.run [Click Sample.on_trigger]
               (V5_1Nav.boot Sample.page (focus Sample.link_c Sample.dom_first_disabled)))))
  = Some Sample.link_c.
Proof.
  split.
  - destruct (V5_1_focus_containment Sample.page (focus Sample.link_c Sample.dom0) Sample.toggle
                Sample.panel [Click Sample.on_trigger] eq_refl eq_refl
                ltac:(vm_compute; reflexivity)) as ((Htab & _) & _).
    destruct (Htab Sample.link_c eq_refl ltac:(vm_compute; reflexivity))
      as (f & Hf & _ & Ha & _).
    injection Hf as <-. apply Ha. vm_compute. reflexivity.
  - destruct (V5_1_focus_containment Sample.page
                (focus Sample.link_c Sample.dom_first_disabled) Sample.toggle
                Sample.panel [Click Sample.on_trigger] eq_refl eq_refl
                ltac:(vm_compute; reflexivity)) as ((Htab & _) & _).
    destruct (Htab Sample.link_c eq_refl ltac:(vm_compute; reflexivity))
      as (f & Hf & _ & _ & Ha).
    injection Hf as <-. apply Ha. vm_compute. reflexivity.
Defined.

(** X19.  In the 5.1 script neither opening nor closing moves the keyboard
    focus: an activation of the trigger flips the open marker and writes the
    new state to aria-expanded, Escape on an open panel removes the marker
    and writes "false", and in both cases the focused element is the one
    that had the focus before. *)
Theorem V5_1_toggle_leaves_focus (p : Page) (d : Dom) (t n : Element) (evs : list Event) :
  q_toggle p = Some t → q_nav p = Some n →
  (∀ path, NoDup path → t ∈ path →
     V5_1Nav.isNavOpen (V5_1Nav.step (Click path) (V5_1Nav.run evs (V5_1Nav.boot p d)))
       = negb (V5_1Nav.isNavOpen (V5_1Nav.run evs (V5_1Nav.boot p d))) ∧
     getAttribute t "aria-expanded"
       (dom (V5_1Nav.step (Click path) (V5_1Nav.run evs (V5_1Nav.boot p d))))
       = Some (String_of_bool (negb (V5_1Nav.isNavOpen (V5_1Nav.run evs (V5_1Nav.boot p d))))) ∧
     activeElement (dom (V5_1Nav.step (Click path) (V5_1Nav.run evs (V5_1Nav.boot p d))))
       = activeElement (dom (V5_1Nav.run evs (V5_1Nav.boot p d)))) ∧
  (V5_1Nav.isNavOpen (V5_1Nav.run evs (V5_1Nav.boot p d)) = true →
   ∀ shift,
     V5_1Nav.isNavOpen (V5_1Nav.step (Keydown "Escape" shift)
                          (V5_1Nav.run evs (V5_1Nav.boot p d))) = false ∧
     getAttribute t "aria-expanded"
       (dom (V5_1Nav.step (Keydown "Escape" shift) (V5_1Nav.run evs (V5_1Nav.boot p d))))
       = Some "false" ∧
     activeElement (dom (V5_1Nav.step (Keydown "Escape" shift)
                           (V5_1Nav.run evs (V5_1Nav.boot p d))))
       = activeElement (dom (V5_1Nav.run evs (V5_1Nav.boot p d)))).
Proof.
  intros Ht Hn. destruct (V51Facts.v51_reachable p d t n evs Ht Hn) as [HR _].
  pose proof (V51Facts.v51_I_prevented t n _ false _ HR) as H0.
  assert (Hflip : ∀ b d0, classList_contains "mobile-nav-open"
                    (setAttribute t "aria-expanded" (String_of_bool b)
                       (classList_toggle_force "mobile-nav-open" b d0)) = b).
  { intros [] d0; simpl; [apply contains_added | apply contains_removed]. }
  split.
  - intros path Hnd Hin.
    rewrite (V51Facts.v51_step_trigger t n _ path _ HR Hnd Hin).
    unfold exec. rewrite (V51Facts.v51_toggleMenu_ready t n (q_focusable p)) by exact H0.
    unfold V5_1Nav.isNavOpen. simpl. rewrite Hflip.
    split; [reflexivity|].
    split; [|apply (toggle_force_keeps "mobile-nav-open"
                      (negb (classList_contains "mobile-nav-open"
                               (dom (V5_1Nav.run evs (V5_1Nav.boot p d)))))
                      (dom (V5_1Nav.run evs (V5_1Nav.boot p d))))].
    unfold getAttribute. simpl. apply lookup_insert_eq.
  - intros Ho shift.
    rewrite (V51Facts.v51_step_keydown t n _ "Escape" shift _ HR).
    unfold exec. rewrite (V51Facts.v51_escape t n (q_focusable p)) by assumption.
    rewrite (V51Facts.v51_toggleMenu_ready t n (q_focusable p)) by exact H0.
    unfold V5_1Nav.isNavOpen in *. simpl. rewrite Hflip, Ho. simpl.
    split; [reflexivity|]. split; [|reflexivity].
    unfold getAttribute. simpl. apply lookup_insert_eq.
Qed.

Lemma V5_1_toggle_leaves_focus_witness :
  activeElement
    (dom (V5_1Nav.step (Click Sample.on_trigger)
            (V5_1Nav.boot Sample.page (focus Sample.toggle Sample.dom0))))
  = Some Sample.toggle.
Proof.
  pose proof (V5_1_toggle_leaves_focus Sample.page (focus Sample.toggle Sample.dom0)
                Sample.toggle Sample.panel [] eq_refl eq_refl) as H.
  rewrite V5_1Nav_run_nil in H. destruct H as (Hclick & _).
  destruct (Hclick Sample.on_trigger ltac:(compute_done) ltac:(compute_done)) as (_ & _ & Ha).
  rewrite Ha. vm_compute. reflexivity.
Defined.

(** ** componentLoader.fetchAndInject *)

(** X20.  The cache of the 6.0 loader: a successful retrieval of non-empty
    markup is stored under its URL, and a later call for the same URL, for
    whatever placeholder, takes the markup from the cache: its outcome does
    not depend on the network (it succeeds offline), and it touches neither
    the cache nor the error log. *)
Theorem V6Loader_cache_is_used (network network' : string → FetchOutcome)
    (url id id' : string) (w : LoaderWorld) (p p' : Path) (html : Markup) :
  getElementById id (document w) = Some p →
  V6Loader.falsy (cache w !! url) = true →
  fetched (network url) = Some html → html ≠ [] →
  getElementById id' (document (exec (V6Loader.fetchAndInject network url id) w)) = Some p' →
  cache (exec (V6Loader.fetchAndInject network url id) w) !! url = Some html ∧
  exec (V6Loader.fetchAndInject network' url id')
       (exec (V6Loader.fetchAndInject network url id) w)
    = with_document (V6Loader.inject p' html)
        (exec (V6Loader.fetchAndInject network url id) w).
Proof.
  intros Hp Hfalsy Hnet Hne Hp'.
  assert (Herr : fetch_error (network url) V6Loader.failure = None)
    by (apply fetch_error_fetched; eauto).
  assert (Hc : cache (exec (V6Loader.fetchAndInject network url id) w) !! url = Some html).
  { unfold exec. rewrite (V6Loader_outcome network url id w p Hp), Hfalsy, Herr, Hnet. simpl.
    apply lookup_insert_eq. }
  split; [exact Hc|].
  unfold exec at 1.
  rewrite (V6Loader_outcome network' url id' _ p' Hp'). simpl snd.
  destruct (cache (exec (V6Loader.fetchAndInject network url id) w) !! url) as [c|];
    [|discriminate Hc].
  injection Hc as ->. rewrite (falsy_nonempty html Hne). reflexivity.
Qed.

Lemma V6Loader_cache_is_used_witness :
  document
    (exec (V6Loader.fetchAndInject Sample.offline "badge.html" "second")
       (exec (V6Loader.fetchAndInject (Sample.serves Sample.badge) "badge.html" "first")
          Sample.two_placeholders))
  = [ElementNode "span" None []; ElementNode "span" None []].
Proof.
  destruct (V6Loader_cache_is_used (Sample.serves Sample.badge) Sample.offline
              "badge.html" "first" "second" Sample.two_placeholders
              [0%nat] [1%nat] Sample.badge
              eq_refl ltac:(vm_compute; reflexivity) eq_refl ltac:(discriminate)
              ltac:(vm_compute; reflexivity)) as (_ & E).
  rewrite E. vm_compute. reflexivity.
Defined.

(** X21.  A failed retrieval is not final, in the 5.1 and in the 6.0 loader:
    the failure is logged once (version 5.1 logs one text ending in the
    error's string form, version 6.0 a text naming the URL and the error
    object), the placeholder stays in the document at its place (with the
    fallback inside), the 6.0 cache is left as it was, and a later call that
    retrieves the markup leaves the document exactly as if the failure had
    not happened. *)
Theorem loader_failure_can_be_retried (network network2 : string → FetchOutcome)
    (url id : string) (w : LoaderWorld) (p : Path) :
  getElementById id (document w) = Some p →
  fetched (network url) = None →
  (getElementById id (document (exec (V5_1.fetchAndInject network url id) w)) = Some p ∧
   (∃ error, fetch_error (network url) (V5_1.failure url) = Some error ∧
      errors (exec (V5_1.fetchAndInject network url id) w)
        = errors w ++ [[LogText ("Error loading component: " +:+ String_of_Exn error)]]) ∧
   ∀ html, fetched (network2 url) = Some html →
     document (exec (V5_1.fetchAndInject network2 url id)
                    (exec (V5_1.fetchAndInject network url id) w))
     = replace_at p html (document w)) ∧
  (V6Loader.falsy (cache w !! url) = true →
   getElementById id (document (exec (V6Loader.fetchAndInject network url id) w)) = Some p ∧
   (∃ error, fetch_error (network url) V6Loader.failure = Some error ∧
      errors (exec (V6Loader.fetchAndInject network url id) w)
        = errors w ++ [[LogText ("Component loading failed for " +:+ url +:+ ":");
                        LogError error]]) ∧
   cache (exec (V6Loader.fetchAndInject network url id) w) = cache w ∧
   ∀ html, fetched (network2 url) = Some html →
     document (exec (V6Loader.fetchAndInject network2 url id)
                    (exec (V6Loader.fetchAndInject network url id) w))
     = V6Loader.inject p html (document w)).
Proof.
  intros Hp Hfail.
  assert (Hsome : ∀ failure, ∃ error, fetch_error (network url) failure = Some error).
  { intros failure. destruct (fetch_error (network url) failure) as [error|] eqn:E; [eauto|].
    apply fetch_error_fetched in E as [html E]. congruence. }
  split.
  - destruct (Hsome (V5_1.failure url)) as [error Herr].
    assert (E : exec (V5_1.fetchAndInject network url id) w
                = with_document (set_innerHTML p (V5_1.fallback url))
                    (console_error
                       [LogText ("Error loading component: " +:+ String_of_Exn error)] w)).
    { unfold exec. rewrite (V5_1_outcome network url id w p Hp), Herr. reflexivity. }
    rewrite E. simpl.
    split; [apply getElementById_set_innerHTML, Hp|]. split; [eauto|].
    intros html Hnet2. unfold exec.
    rewrite (V5_1_outcome network2 url id _ p)
      by (simpl; apply getElementById_set_innerHTML, Hp).
    rewrite (proj2 (fetch_error_fetched _ _) (ex_intro _ html Hnet2)), Hnet2. simpl.
    apply replace_at_set_innerHTML.
  - intros Hfalsy. destruct (Hsome V6Loader.failure) as [error Herr].
    assert (E : exec (V6Loader.fetchAndInject network url id) w
                = with_document (set_innerHTML p V6Loader.fallback)
                    (console_error
                       [LogText ("Component loading failed for " +:+ url +:+ ":");
                        LogError error] w)).
    { unfold exec. rewrite (V6Loader_outcome network url id w p Hp), Hfalsy, Herr.
      reflexivity. }
    rewrite E. simpl.
    split; [apply getElementById_set_innerHTML, Hp|]. split; [eauto|]. split; [reflexivity|].
    intros html Hnet2. unfold exec.
    rewrite (V6Loader_outcome network2 url id _ p)
      by (simpl; apply getElementById_set_innerHTML, Hp).
    simpl. rewrite Hfalsy.
    rewrite (proj2 (fetch_error_fetched _ _) (ex_intro _ html Hnet2)), Hnet2. simpl.
    apply inject_set_innerHTML.
Qed.

Lemma loader_failure_can_be_retried_witness :
  errors (exec (V6Loader.fetchAndInject Sample.not_found "header.html" "header-placeholder")
            Sample.nested_page)
  = [[LogText "Component loading failed for header.html:";
      LogError (Error "HTTP 404: Not Found")]] ∧
  document
    (exec (V6Loader.fetchAndInject (Sample.serves [ElementNode "header" None []])
             "header.html" "header-placeholder")
       (exec (V6Loader.fetchAndInject Sample.not_found "header.html" "header-placeholder")
          Sample.nested_page))
  = [ElementNode "section" None [TextNode "intro"];
     ElementNode "header" None [TextNode "top"; ElementNode "header" None []];
     ElementNode "main" None []].
Proof.
  destruct (loader_failure_can_be_retried Sample.not_found
              (Sample.serves [ElementNode "header" None []])
              "header.html" "header-placeholder" Sample.nested_page [1; 1]%nat
              eq_refl eq_refl) as (_ & H6).
  destruct (H6 ltac:(vm_compute; reflexivity)) as (_ & (error & Herr & Hlog) & _ & Hretry).
  injection Herr as <-.
  rewrite Hlog, (Hretry [ElementNode "header" None []] eq_refl). split; reflexivity.
Defined.

(** X22.  A successful injection consumes the placeholder: when the injected
    markup holds no element with the id and neither does the document apart
    from the placeholder, the id is found nowhere after the call and a
    second call for the same placeholder does nothing at all, whatever the
    network answers.  This holds for the 5.1 loader with any markup and for
    the 6.0 loader with markup that holds an element. *)
Theorem loader_second_call_does_nothing (network network2 : string → FetchOutcome)
    (url id : string) (w : LoaderWorld) (p : Path) (html : Markup) :
  getElementById id (document w) = Some p →
  fetched (network url) = Some html →
  getElementById id html = None →
  getElementById id (replace_at p [] (document w)) = None →
  (getElementById id (document (exec (V5_1.fetchAndInject network url id) w)) = None ∧
   V5_1.fetchAndInject network2 url id (exec (V5_1.fetchAndInject network url id) w)
     = (Normal tt, exec (V5_1.fetchAndInject network url id) w)) ∧
  (V6Loader.falsy (cache w !! url) = true → is_Some (firstElementChild html) →
     getElementById id (document (exec (V6Loader.fetchAndInject network url id) w)) = None ∧
     V6Loader.fetchAndInject network2 url id (exec (V6Loader.fetchAndInject network url id) w)
       = (Normal tt, exec (V6Loader.fetchAndInject network url id) w)).
Proof.
  intros Hp Hnet Hhtml Hrest.
  assert (Herr : ∀ failure, fetch_error (network url) failure = None)
    by (intros failure; apply fetch_error_fetched; eauto).
  split.
  - assert (Hgone : getElementById id
                      (document (exec (V5_1.fetchAndInject network url id) w)) = None).
    { unfold exec. rewrite (V5_1_outcome network url id w p Hp), Herr, Hnet. simpl.
      apply getElementById_replaced; assumption. }
    split; [exact Hgone|]. apply V5_1_absent, Hgone.
  - intros Hfalsy [e He].
    assert (Hgone : getElementById id
                      (document (exec (V6Loader.fetchAndInject network url id) w)) = None).
    { unfold exec. rewrite (V6Loader_outcome network url id w p Hp), Hfalsy, Herr, Hnet. simpl.
      unfold V6Loader.inject. rewrite He.
      apply getElementById_replaced; [exact Hp| |exact Hrest].
      apply getElementById_cons_None. split; [|reflexivity].
      apply (getElementById_None_elem id html e Hhtml).
      apply (firstElementChild_elem html e He). }
    split; [exact Hgone|]. apply V6Loader_absent, Hgone.
Qed.

Lemma loader_second_call_does_nothing_witness :
  V5_1.fetchAndInject Sample.offline "header.html" "header-placeholder"
    (exec (V5_1.fetchAndInject (Sample.serves Sample.two_roots)
             "header.html" "header-placeholder") Sample.nested_page)
  = (Normal tt,
     mkLoaderWorld [ElementNode "section" None [TextNode "intro"];
                    ElementNode "header" None (TextNode "top" :: Sample.two_roots);
                    ElementNode "main" None []] ∅ []).
Proof.
  destruct (loader_second_call_does_nothing (Sample.serves Sample.two_roots) Sample.offline
              "header.html" "header-placeholder" Sample.nested_page [1; 1]%nat
              Sample.two_roots eq_refl eq_refl eq_refl eq_refl) as ((_ & E) & _).
  rewrite E. reflexivity.
Defined.

(** ** Reveal on scroll *)

(** X23.  The observer callback of the Professional Edition's scrollAnimator
    reveals once and never hides: it returns normally; every target that is
    reported as intersecting gets the visible class, is no longer observed
    afterwards, and is assigned a transition delay made of its data-delay
    (0 when that is missing or empty) followed by ms: the declaration holds
    that value, as the CSS parser keeps it, when the parser accepts it, and
    stays as it was when it does not.  A target not reported as
    intersecting keeps its classes, its styles and its observation; no class
    is ever removed, no other style property is written, nothing is newly
    observed, and no observer or timer is created. *)
Theorem Pro1_reveal_once_never_hide (css : CssParser) (p : RevealPage)
    (entries : list (Element * bool)) (w : RevealWorld) :
  completion (Pro1.on_intersection css p entries) w = Normal tt ∧
  elClass w ⊆ elClass (exec (Pro1.on_intersection css p entries) w) ∧
  (∀ el, (el, true) ∈ entries →
     (el, Pro1.visibleClass) ∈ elClass (exec (Pro1.on_intersection css p entries) w) ∧
     (el ∉ observed (exec (Pro1.on_intersection css p entries) w)) ∧
     elStyle (exec (Pro1.on_intersection css p entries) w) !! (el, "transitionDelay")
       = match css "transitionDelay" (or_default (dataset_delay p el) "0" +:+ "ms") with
         | Some value => Some value
         | None => elStyle w !! (el, "transitionDelay")
         end) ∧
  (∀ el, ((el, true) ∉ entries) →
     (el ∈ observed (exec (Pro1.on_intersection css p entries) w) ↔ el ∈ observed w) ∧
     (∀ c, (el, c) ∈ elClass (exec (Pro1.on_intersection css p entries) w)
           ↔ (el, c) ∈ elClass w) ∧
     (∀ prop, elStyle (exec (Pro1.on_intersection css p entries) w) !! (el, prop)
              = elStyle w !! (el, prop))) ∧
  (∀ el prop, prop ≠ "transitionDelay" →
     elStyle (exec (Pro1.on_intersection css p entries) w) !! (el, prop)
     = elStyle w !! (el, prop)) ∧
  (∀ el, el ∈ observed (exec (Pro1.on_intersection css p entries) w) → el ∈ observed w) ∧
  observers (exec (Pro1.on_intersection css p entries) w) = observers w ∧
  pendingTimeouts (exec (Pro1.on_intersection css p entries) w) = pendingTimeouts w.
Proof.
  destruct (pro1_intersection_loop css p entries w)
    as (w' & E & Ho & Hp & Hsub & Hin & Hout & _ & Hsty & Hobs).
  unfold completion, exec. rewrite E. simpl. auto 10.
Qed.

(** X24.  Without the reduced-motion signal the reveal scripts only set up
    observation: createScrollReveal constructs one observer and observes
    every target, in document order; scrollAnimator.init of the Professional
    Edition does the same when there is a target and nothing at all when
    there is none.  No class, style or timer is touched at init. *)
Theorem reveal_init_observes_every_target (p : RevealPage) (w : RevealWorld) :
  reduced_motion p = false →
  exec (Reveal.createScrollReveal p) w
    = mkRevealWorld (elClass w) (elStyle w) (S (observers w)) (observed w ++ targets p)
                    (pendingTimeouts w) ∧
  exec (Pro1.scrollAnimator_init p) w
    = match targets p with
      | [] => w
      | _ :: _ => mkRevealWorld (elClass w) (elStyle w) (S (observers w))
                                (observed w ++ targets p) (pendingTimeouts w)
      end.
Proof.
  intros Hr. split.
  - unfold exec, Reveal.createScrollReveal. rewrite Hr.
    unfold bind at 1. unfold modify at 1. rewrite observe_loop. reflexivity.
  - unfold exec, Pro1.scrollAnimator_init. rewrite Hr.
    destruct (targets p) as [|x xs]; [reflexivity|].
    rewrite bool_decide_eq_false_2 by discriminate.
    unfold bind at 1. unfold modify at 1. rewrite observe_loop. reflexivity.
Qed.

Lemma reveal_init_observes_every_target_witness :
  observed (exec (Reveal.createScrollReveal Sample.scrolling_page) Sample.reveal_world0)
  = [20%nat; 21%nat] ∧
  observers (exec (Pro1.scrollAnimator_init Sample.scrolling_page) Sample.reveal_world0)
  = 1%nat.
Proof.
  destruct (reveal_init_observes_every_target Sample.scrolling_page Sample.reveal_world0
              eq_refl) as (E1 & E2).
  rewrite E1, E2. split; reflexivity.
Defined.

(** X25.  The observer callback of createScrollReveal defers the reveal: for
    every target reported as intersecting it starts one timer, in the order
    of the report, with the element's data-delay (0 when that is missing or
    empty), and touches nothing else; in particular it never stops observing,
    so a target that intersects again is scheduled again.  When such a timer
    runs out the element gets the class visible and the timer is gone. *)
Theorem Reveal_intersection_schedules_the_reveal (p : RevealPage)
    (entries : list (Element * bool)) (w : RevealWorld) :
  Reveal.on_intersection p entries w
    = (Normal tt,
       set_pendingTimeouts
         (pendingTimeouts w ++
            ((λ entry : Element * bool, (entry.1, or_default (dataset_delay p entry.1) "0")) <$>
               filter (λ entry : Element * bool, entry.2 = true) entries)) w) ∧
  (∀ i el delay, pendingTimeouts w !! i = Some (el, delay) →
     Reveal.timeout_fires i w
       = (Normal tt,
          el_classList_add el "visible" (set_pendingTimeouts (delete i (pendingTimeouts w)) w))).
Proof.
  split; [apply reveal_intersection_loop|].
  intros i el delay Hi. unfold Reveal.timeout_fires, bind, gets. rewrite Hi. reflexivity.
Qed.

(** ** Version 9.1: the restored mobileNav *)



(** ** Sticky headers *)

(** X27.  Professional Edition stickyHeader (part_005): once init found the
    header, at most one frame callback is ever pending, however many scroll
    events arrive; whenever none is pending the header carries the scrolled
    class exactly when window.scrollY exceeds the threshold of 10, from the
    moment init returns; a frame always leaves none pending.  The module
    touches no other class and no inline transform.  Without a header the
    class list never changes. *)
Theorem Pro1Header_class_follows_scroll_position (y : Q) (classes : gset string)
    (tr : string) (evs : list HeaderEvent) :
  Pro1Header.Throttled (Pro1Header.run evs (Pro1Header.init true (header_world0 y classes tr))) ∧
  (ticking (Pro1Header.run evs (Pro1Header.init true (header_world0 y classes tr))) = false →
   bool_decide ("is-scrolled" ∈
      headerClass (Pro1Header.run evs (Pro1Header.init true (header_world0 y classes tr))))
   = js_gt (scrollY (Pro1Header.run evs (Pro1Header.init true (header_world0 y classes tr)))) 10) ∧
  ticking (Pro1Header.step Frame
             (Pro1Header.run evs (Pro1Header.init true (header_world0 y classes tr)))) = false ∧
  (∀ c, c ≠ "is-scrolled" →
     c ∈ headerClass (Pro1Header.run evs (Pro1Header.init true (header_world0 y classes tr)))
     ↔ c ∈ classes) ∧
  headerTransform (Pro1Header.run evs (Pro1Header.init true (header_world0 y classes tr))) = tr ∧
  headerClass (Pro1Header.run evs (Pro1Header.init false (header_world0 y classes tr)))
    = classes.
Proof.
  pose proof (Pro1HeaderFacts.pro1h_run classes tr evs _
                (Pro1HeaderFacts.pro1h_init classes tr y)) as HJ.
  pose proof (Pro1HeaderFacts.pro1h_frame_settles classes tr _ HJ) as Hf.
  destruct HJ as (_ & Hth & Hs & Ht & Hc).
  split; [exact Hth|]. split; [exact Hs|]. split; [exact Hf|]. split; [exact Hc|].
  split; [exact Ht|].
  destruct (Pro1HeaderFacts.pro1h_absent_run evs
              (Pro1Header.init false (header_world0 y classes tr)) eq_refl eq_refl) as (E & _).
  exact E.
Qed.

(** X28.  Version 8.0 addSmartScroll (part_002): scroll events between two
    frames are coalesced.  Once init found the header, any burst of scroll
    events followed by a frame runs the callback once, with the position of
    the last event: the header is hidden (translateY(-100%)) exactly when
    that position exceeds 200 and the position recorded by the previous
    callback, and shown (translateY(0)) otherwise; the position is recorded
    and no callback is left pending.  A second frame without a scroll event
    in between changes nothing. *)
Theorem V8Header_smart_scroll (y0 : Q) (classes : gset string) (tr : string)
    (evs : list HeaderEvent) (ys : list Q) (y : Q) :
  headerTransform
    (V8Header.run ((Scroll <$> ys) ++ [Scroll y; Frame])
       (V8Header.run evs (V8Header.init true (header_world0 y0 classes tr))))
  = (if js_gt y 200 &&
        js_gt y (lastScrollY (V8Header.run evs
                                (V8Header.init true (header_world0 y0 classes tr))))
     then "translateY(-100%)" else "translateY(0)") ∧
  lastScrollY
    (V8Header.run ((Scroll <$> ys) ++ [Scroll y; Frame])
       (V8Header.run evs (V8Header.init true (header_world0 y0 classes tr))))
  = y ∧
  pendingFrames
    (V8Header.run ((Scroll <$> ys) ++ [Scroll y; Frame])
       (V8Header.run evs (V8Header.init true (header_world0 y0 classes tr))))
  = 0%nat ∧
  V8Header.step Frame (V8Header.step Frame
    (V8Header.run evs (V8Header.init true (header_world0 y0 classes tr))))
  = V8Header.step Frame
      (V8Header.run evs (V8Header.init true (header_world0 y0 classes tr))).
Proof.
  pose proof (V8HeaderFacts.v8h_run evs _ (V8HeaderFacts.v8h_init y0 classes tr)) as HJ.
  destruct (V8HeaderFacts.v8h_burst_then_frame ys y _ HJ) as (E1 & E2 & E3 & _).
  split; [exact E1|]. split; [exact E2|]. split; [exact E3|].
  apply V8HeaderFacts.v8h_frame_twice, HJ.
Qed.

(** X29.  Version 8.0 createScrollTrigger (part_002): the onUpdate callback
    compares the wanted state with the cached isScrolled, not with the class
    list.  When the markup does not carry is-scrolled to begin with, after
    any events the header carries the class exactly when the flag is set,
    and after an update it carries it exactly when the reported progress is
    positive. *)
Theorem V8Header_class_follows_progress (y : Q) (classes : gset string) (tr : string)
    (evs : list HeaderEvent) (progress : Q) :
  "is-scrolled" ∉ classes →
  V8Header.ClassCached (V8Header.run evs (V8Header.init true (header_world0 y classes tr))) ∧
  bool_decide ("is-scrolled" ∈
     headerClass (V8Header.step (Update progress)
                    (V8Header.run evs (V8Header.init true (header_world0 y classes tr)))))
  = js_gt progress 0.
Proof.
  intros Hnot.
  pose proof (V8HeaderFacts.v8h_run evs _ (V8HeaderFacts.v8h_init y classes tr)) as HJ.
  assert (Hc : V8Header.ClassCached (V8Header.init true (header_world0 y classes tr))).
  { unfold V8Header.ClassCached. simpl. apply bool_decide_eq_false. exact Hnot. }
  pose proof (V8HeaderFacts.v8h_run_cached evs _ (V8HeaderFacts.v8h_init y classes tr) Hc) as Hr.
  split; [exact Hr|].
  destruct HJ as (Hl & _). simpl. rewrite Hl.
  destruct (V8HeaderFacts.v8h_onUpdate_cached progress _ Hr) as (Hc' & Hi).
  unfold V8Header.ClassCached in Hc'. rewrite Hc'. exact Hi.
Qed.

Lemma V8Header_class_follows_progress_witness :
  bool_decide ("is-scrolled" ∈
     headerClass (V8Header.step (Update (1 # 2))
                    (V8Header.run [Update 1; Scroll 400; Frame; Update 0]
                       (V8Header.init true Sample.scrolled_header))))
  = true.
Proof.
  destruct (V8Header_class_follows_progress 350 {["main-header"]} EmptyString
              [Update 1; Scroll 400; Frame; Update 0] (1 # 2)
              ltac:(compute_done)) as (_ & E).
  unfold Sample.scrolled_header. rewrite E. reflexivity.
Defined.
